(** * Row-store search and backward cursor movement of the B-tree layer

    A shallow embedding of [src/btree/row_srch.c] and [src/btree/bt_curprev.c]
    and the properties of the record-location engine proved over it.

    Conventions of the embedding:
    - C unsigned integers are [Z] with the wrap-around written out
      ([u32], [u64]);
    - a pointer to a [WT_INSERT] is the index of the node in the store of
      insert nodes owned by the page; [None] is [NULL];
    - a function that returns an [int] and updates the cursor in place
      yields the return code together with the new cursor;
    - a failed [WT_ASSERT] or an invalid memory access ends the run in
      [Abort]; a loop that does not end yields [Diverge]. *)

From Stdlib Require Import ZArith Ascii String List Bool Lia.
Import ListNotations.
Open Scope Z_scope.

(** ** Machine integers *)

Definition UINT32_MAX : Z := 2 ^ 32 - 1.
Definition u32 (x : Z) : Z := x mod 2 ^ 32.
Definition u64 (x : Z) : Z := x mod 2 ^ 64.

(** ** Outcomes *)

Inductive fault : Type :=
| AssertFailed      (* WT_ASSERT did not hold *)
| InvalidAccess.    (* NULL, dangling or out-of-bounds access *)

Inductive outcome (A : Type) : Type :=
| Done (a : A)
| Abort (f : fault)
| Diverge.
Arguments Done {A} a.
Arguments Abort {A} f.
Arguments Diverge {A}.

Definition bind {A B : Type} (m : outcome A) (k : A -> outcome B) : outcome B :=
  match m with
  | Done a => k a
  | Abort f => Abort f
  | Diverge => Diverge
  end.

Notation "x <- m ;; k" := (bind m (fun x => k))
  (at level 61, m at next level, right associativity).
Notation "' p <- m ;; k" := (bind m (fun p => k))
  (at level 61, p pattern, m at next level, right associativity).

(** The [int] a function returns: 0, WT_NOTFOUND, or another error code. *)
Inductive ret_code : Type :=
| RET_OK
| WT_NOTFOUND
| WT_ERROR (code : Z).

Definition ret_is_ok (r : ret_code) : bool :=
  match r with RET_OK => true | _ => false end.
Definition ret_is_notfound (r : ret_code) : bool :=
  match r with WT_NOTFOUND => true | _ => false end.

(** ** Items, updates, insert lists *)

(** A [WT_ITEM] / key: a byte string (data and size together). *)
Definition WT_ITEM : Type := string.

(** A [WT_BUF] as the callers see it: the bytes [data] points to and the
    [size] the code stored next to it. *)
Record WT_BUF : Type := mkBuf { buf_data : string; buf_size : Z }.

Definition empty_buf : WT_BUF := mkBuf EmptyString 0.

(** Modelled from the spec: an Update is a value payload plus a deletion
    flag ([WT_UPDATE_DELETED_ISSET], [WT_UPDATE_DATA], [upd->size]). *)
Record WT_UPDATE : Type := mkUpd {
  upd_deleted : bool;
  upd_data : string;
  upd_size : Z
}.

Definition WT_UPDATE_DELETED_ISSET (u : WT_UPDATE) : bool := upd_deleted u.
Definition WT_UPDATE_DATA (u : WT_UPDATE) : string := upd_data u.

Definition ptr : Type := nat.

(** Modelled from the spec: an Insert Node holds a key (row store) or a
    record number (column store), one update, and its forward links, one
    per level the node is linked at. *)
Record WT_INSERT (K : Type) : Type := mkIns {
  ins_key : K;
  ins_upd : WT_UPDATE;
  ins_next : list (option ptr)
}.
Arguments mkIns {K} _ _ _.
Arguments ins_key {K} _.
Arguments ins_upd {K} _.
Arguments ins_next {K} _.

Record WT_INSERT_HEAD : Type := mkHead { head : list (option ptr) }.

(** A [WT_INSERT **]: the address of [inshead->head[i]] or of
    [node->next[i]]. *)
Inductive ins_slot : Type :=
| HeadSlot (i : Z)
| NextSlot (p : ptr) (i : Z).

(** [ins--] on a [WT_INSERT **]: the same array, one level down. *)
Definition ins_slot_dec (s : ins_slot) : ins_slot :=
  match s with
  | HeadSlot i => HeadSlot (i - 1)
  | NextSlot p i => NextSlot p (i - 1)
  end.

Definition array_get {A : Type} (l : list A) (i : Z) : option A :=
  if i <? 0 then None else nth_error l (Z.to_nat i).

Fixpoint list_set {A : Type} (l : list A) (n : nat) (x : A) : list A :=
  match l, n with
  | [], _ => []
  | _ :: l', O => x :: l'
  | y :: l', S n' => y :: list_set l' n' x
  end.

(** [a[i] = x] for an index the code keeps inside the array. *)
Definition array_set {A : Type} (l : list A) (i : Z) (x : A) : list A :=
  if i <? 0 then l else list_set l (Z.to_nat i) x.

(** [*ins] for a [WT_INSERT **]; [None] is an invalid access. *)
Definition ins_slot_deref {K : Type} (store : list (WT_INSERT K))
    (inshead : WT_INSERT_HEAD) (s : ins_slot) : option (option ptr) :=
  match s with
  | HeadSlot i => array_get (head inshead) i
  | NextSlot p i =>
      match nth_error store p with
      | Some n => array_get (ins_next n) i
      | None => None
      end
  end.

(** Modelled from the spec: [WT_SKIP_FIRST] and [WT_SKIP_NEXT] are the
    level-0 links of an insert list. *)
Definition WT_SKIP_FIRST (inshead : option WT_INSERT_HEAD) : outcome (option ptr) :=
  match inshead with
  | None => Done None
  | Some h =>
      match array_get (head h) 0 with
      | Some p => Done p
      | None => Abort InvalidAccess
      end
  end.

Definition WT_SKIP_NEXT {K : Type} (store : list (WT_INSERT K)) (ins : option ptr)
    : outcome (option ptr) :=
  match ins with
  | None => Abort InvalidAccess
  | Some p =>
      match nth_error store p with
      | Some n =>
          match array_get (ins_next n) 0 with
          | Some q => Done q
          | None => Abort InvalidAccess
          end
      | None => Abort InvalidAccess
      end
  end.

(** The loop [for (; ins != NULL; ins = WT_SKIP_NEXT (ins)) body] with the
    loop state [s]; the body answers with the new state and whether it
    left the loop through [break]. *)
Fixpoint skip_fold {K St : Type} (fuel : nat) (store : list (WT_INSERT K))
    (body : ptr -> WT_INSERT K -> St -> outcome (St * bool))
    (cur : option ptr) (s : St) : outcome St :=
  match cur with
  | None => Done s
  | Some p =>
      match fuel with
      | O => Diverge
      | S fuel' =>
          match nth_error store p with
          | None => Abort InvalidAccess
          | Some n =>
              '(s', brk) <- body p n s ;;
              if (brk : bool) then Done s'
              else
                nx <- WT_SKIP_NEXT store (Some p) ;;
                skip_fold fuel' store body nx s'
          end
      end
  end.

(** Modelled from the spec: [WT_SKIP_FOREACH (ins, ins_head)] walks level 0
    from [WT_SKIP_FIRST] until [NULL].  A walk of more steps than the store
    has nodes has come back to a node: the list is cyclic and the C loop
    does not end. *)
Definition WT_SKIP_FOREACH {K St : Type} (store : list (WT_INSERT K))
    (inshead : option WT_INSERT_HEAD)
    (body : ptr -> WT_INSERT K -> St -> outcome (St * bool)) (s : St) : outcome St :=
  first <- WT_SKIP_FIRST inshead ;;
  skip_fold (S (length store)) store body first s.

(** ** Cells and pages *)

Inductive cell_type : Type :=
| WT_CELL_DEL
| WT_CELL_VALUE
| WT_CELL_OTHER.

Definition cell_type_eqb (a b : cell_type) : bool :=
  match a, b with
  | WT_CELL_DEL, WT_CELL_DEL => true
  | WT_CELL_VALUE, WT_CELL_VALUE => true
  | WT_CELL_OTHER, WT_CELL_OTHER => true
  | _, _ => false
  end.

(** Modelled from the spec: [unpack_cell (cell)] gives the value, the
    repeat count and whether the cell is a deletion. *)
Record WT_CELL_UNPACK : Type := mkUnpack {
  unpack_type : cell_type;
  unpack_rle : Z;
  unpack_data : string
}.

Record WT_CELL : Type := mkCell { cell_unpacked : WT_CELL_UNPACK }.

Definition __wt_cell_unpack (cell : WT_CELL) : WT_CELL_UNPACK := cell_unpacked cell.

(** [rip->key]: an instantiated [WT_IKEY] ([__wt_off_page] holds) or a
    cell on the page. *)
Inductive WT_ROW_KEY : Type :=
| KeyOffPage (ikey : WT_ITEM)
| KeyOnPage (cell : WT_CELL).

Record WT_ROW : Type := mkRow {
  row_key : WT_ROW_KEY;
  row_value : option WT_CELL      (* __wt_row_value: NULL if no value cell *)
}.

Record ROW_LEAF : Type := mkRowLeaf {
  row_leaf_d : list WT_ROW;                               (* u.row_leaf.d *)
  row_leaf_ins : option (list (option WT_INSERT_HEAD));   (* u.row_leaf.ins, entries + 1 lists *)
  row_leaf_upd : option (list (option WT_UPDATE));        (* u.row_leaf.upd *)
  row_leaf_store : list (WT_INSERT WT_ITEM);              (* the insert nodes of the page *)
  row_leaf_write_gen : Z
}.

Record COL_FIX : Type := mkColFix {
  fix_recno : Z;                                          (* u.col_leaf.recno *)
  fix_bitf : list Z;                                      (* one value per entry *)
  fix_ins : option (list (option WT_INSERT_HEAD));        (* u.col_leaf.ins *)
  fix_store : list (WT_INSERT Z)
}.

Record COL_VAR : Type := mkColVar {
  var_recno : Z;                                          (* u.col_leaf.recno *)
  var_d : list (option WT_CELL);                          (* u.col_leaf.d, through WT_COL_PTR *)
  var_ins : option (list (option WT_INSERT_HEAD));        (* u.col_leaf.ins *)
  var_store : list (WT_INSERT Z)
}.

Inductive WT_PAGE : Type :=
| WT_PAGE_ROW_INT (t : list WT_ROW_REF)
| WT_PAGE_ROW_LEAF (l : ROW_LEAF)
| WT_PAGE_COL_INT
| WT_PAGE_COL_FIX (c : COL_FIX)
| WT_PAGE_COL_VAR (c : COL_VAR)
| WT_PAGE_INVALID
with WT_ROW_REF : Type :=
| mkRowRef (key : WT_ITEM) (child : WT_PAGE).

Definition rref_key (r : WT_ROW_REF) : WT_ITEM :=
  match r with mkRowRef k _ => k end.
Definition WT_ROW_REF_PAGE (r : WT_ROW_REF) : WT_PAGE :=
  match r with mkRowRef _ p => p end.

Definition len {A : Type} (l : list A) : Z := Z.of_nat (length l).

(** [page->entries] *)
Definition entries (page : WT_PAGE) : Z :=
  match page with
  | WT_PAGE_ROW_INT t => len t
  | WT_PAGE_ROW_LEAF l => len (row_leaf_d l)
  | WT_PAGE_COL_FIX c => len (fix_bitf c)
  | WT_PAGE_COL_VAR c => len (var_d c)
  | WT_PAGE_COL_INT => 0
  | WT_PAGE_INVALID => 0
  end.

Definition is_internal (page : WT_PAGE) : bool :=
  match page with
  | WT_PAGE_ROW_INT _ => true
  | WT_PAGE_COL_INT => true
  | _ => false
  end.

(** Modelled from the spec: each leaf owns, per slot, an optional insert
    list, and the row leaf one more before slot 0.  [ins == NULL] stands
    for a page without any insert list. *)
Definition insert_array_get (ins : option (list (option WT_INSERT_HEAD))) (i : Z)
    : outcome (option WT_INSERT_HEAD) :=
  match ins with
  | None => Done None
  | Some a =>
      match array_get a i with
      | Some h => Done h
      | None => Abort InvalidAccess
      end
  end.

Definition WT_ROW_INSERT_SLOT (l : ROW_LEAF) (slot : Z) : outcome (option WT_INSERT_HEAD) :=
  insert_array_get (row_leaf_ins l) slot.
Definition WT_ROW_INSERT_SMALLEST (l : ROW_LEAF) : outcome (option WT_INSERT_HEAD) :=
  insert_array_get (row_leaf_ins l) (len (row_leaf_d l)).
Definition WT_ROW_UPDATE (l : ROW_LEAF) (slot : Z) : outcome (option WT_UPDATE) :=
  match row_leaf_upd l with
  | None => Done None
  | Some a =>
      match array_get a slot with
      | Some u => Done u
      | None => Abort InvalidAccess
      end
  end.
Definition WT_COL_INSERT_SINGLE (c : COL_FIX) : outcome (option WT_INSERT_HEAD) :=
  insert_array_get (fix_ins c) 0.
Definition WT_COL_INSERT (c : COL_VAR) (slot : Z) : outcome (option WT_INSERT_HEAD) :=
  insert_array_get (var_ins c) slot.

(** Modelled from the spec: [bit_extract (page, record_number, bit_width)]
    reads the value of a record held by the page; a record number outside
    the page is a read outside the bit field. *)
Definition __bit_getv_recno (c : COL_FIX) (recno : Z) : outcome Z :=
  match array_get (fix_bitf c) (recno - fix_recno c) with
  | Some v => Done v
  | None => Abort InvalidAccess
  end.

(** ** The cursor *)

Record WT_CURSOR : Type := mkCursor {
  cur_key : WT_BUF;
  cur_value : WT_BUF;
  cur_recno : Z;
  WT_CURSTD_KEY_SET : bool;
  WT_CURSTD_VALUE_SET : bool
}.

(** The fields of [WT_CURSOR_BTREE] the two files use.  [slot], [nslots]
    and [ins_entry_cnt] are [uint32_t], [recno] is [uint64_t]; the three
    [WT_CBT_*] fields are the bits of [cbt->flags]. *)
Record WT_CURSOR_BTREE : Type := mkCbt {
  iface : WT_CURSOR;
  page : option WT_PAGE;
  cip : option Z;                      (* WT_COL *: index into u.col_leaf.d *)
  rip : option Z;                      (* WT_ROW *: index into u.row_leaf.d *)
  slot : Z;
  ins_head : option WT_INSERT_HEAD;
  ins : option ptr;
  ins_stack : list (option ins_slot);  (* WT_SKIP_MAXDEPTH positions *)
  cbt_match : bool;                    (* match *)
  write_gen : Z;
  nslots : Z;
  recno : Z;
  rle_return_cnt : Z;
  ins_entry_cnt : Z;
  value : WT_BUF;
  WT_CBT_RET_SLOT : bool;
  WT_CBT_RET_INSERT : bool;
  WT_CBT_SEARCH_SET : bool
}.

Definition set_iface (c : WT_CURSOR_BTREE) (x : WT_CURSOR) :=
  mkCbt x (page c) (cip c) (rip c) (slot c) (ins_head c) (ins c) (ins_stack c)
    (cbt_match c) (write_gen c) (nslots c) (recno c) (rle_return_cnt c)
    (ins_entry_cnt c) (value c) (WT_CBT_RET_SLOT c) (WT_CBT_RET_INSERT c) (WT_CBT_SEARCH_SET c).
Definition set_page (c : WT_CURSOR_BTREE) (x : option WT_PAGE) :=
  mkCbt (iface c) x (cip c) (rip c) (slot c) (ins_head c) (ins c) (ins_stack c)
    (cbt_match c) (write_gen c) (nslots c) (recno c) (rle_return_cnt c)
    (ins_entry_cnt c) (value c) (WT_CBT_RET_SLOT c) (WT_CBT_RET_INSERT c) (WT_CBT_SEARCH_SET c).
Definition set_cip (c : WT_CURSOR_BTREE) (x : option Z) :=
  mkCbt (iface c) (page c) x (rip c) (slot c) (ins_head c) (ins c) (ins_stack c)
    (cbt_match c) (write_gen c) (nslots c) (recno c) (rle_return_cnt c)
    (ins_entry_cnt c) (value c) (WT_CBT_RET_SLOT c) (WT_CBT_RET_INSERT c) (WT_CBT_SEARCH_SET c).
Definition set_rip (c : WT_CURSOR_BTREE) (x : option Z) :=
  mkCbt (iface c) (page c) (cip c) x (slot c) (ins_head c) (ins c) (ins_stack c)
    (cbt_match c) (write_gen c) (nslots c) (recno c) (rle_return_cnt c)
    (ins_entry_cnt c) (value c) (WT_CBT_RET_SLOT c) (WT_CBT_RET_INSERT c) (WT_CBT_SEARCH_SET c).
Definition set_slot (c : WT_CURSOR_BTREE) (x : Z) :=
  mkCbt (iface c) (page c) (cip c) (rip c) x (ins_head c) (ins c) (ins_stack c)
    (cbt_match c) (write_gen c) (nslots c) (recno c) (rle_return_cnt c)
    (ins_entry_cnt c) (value c) (WT_CBT_RET_SLOT c) (WT_CBT_RET_INSERT c) (WT_CBT_SEARCH_SET c).
Definition set_ins_head (c : WT_CURSOR_BTREE) (x : option WT_INSERT_HEAD) :=
  mkCbt (iface c) (page c) (cip c) (rip c) (slot c) x (ins c) (ins_stack c)
    (cbt_match c) (write_gen c) (nslots c) (recno c) (rle_return_cnt c)
    (ins_entry_cnt c) (value c) (WT_CBT_RET_SLOT c) (WT_CBT_RET_INSERT c) (WT_CBT_SEARCH_SET c).
Definition set_ins (c : WT_CURSOR_BTREE) (x : option ptr) :=
  mkCbt (iface c) (page c) (cip c) (rip c) (slot c) (ins_head c) x (ins_stack c)
    (cbt_match c) (write_gen c) (nslots c) (recno c) (rle_return_cnt c)
    (ins_entry_cnt c) (value c) (WT_CBT_RET_SLOT c) (WT_CBT_RET_INSERT c) (WT_CBT_SEARCH_SET c).
Definition set_ins_stack (c : WT_CURSOR_BTREE) (x : list (option ins_slot)) :=
  mkCbt (iface c) (page c) (cip c) (rip c) (slot c) (ins_head c) (ins c) x
    (cbt_match c) (write_gen c) (nslots c) (recno c) (rle_return_cnt c)
    (ins_entry_cnt c) (value c) (WT_CBT_RET_SLOT c) (WT_CBT_RET_INSERT c) (WT_CBT_SEARCH_SET c).
Definition set_match (c : WT_CURSOR_BTREE) (x : bool) :=
  mkCbt (iface c) (page c) (cip c) (rip c) (slot c) (ins_head c) (ins c) (ins_stack c)
    x (write_gen c) (nslots c) (recno c) (rle_return_cnt c)
    (ins_entry_cnt c) (value c) (WT_CBT_RET_SLOT c) (WT_CBT_RET_INSERT c) (WT_CBT_SEARCH_SET c).
Definition set_write_gen (c : WT_CURSOR_BTREE) (x : Z) :=
  mkCbt (iface c) (page c) (cip c) (rip c) (slot c) (ins_head c) (ins c) (ins_stack c)
    (cbt_match c) x (nslots c) (recno c) (rle_return_cnt c)
    (ins_entry_cnt c) (value c) (WT_CBT_RET_SLOT c) (WT_CBT_RET_INSERT c) (WT_CBT_SEARCH_SET c).
Definition set_nslots (c : WT_CURSOR_BTREE) (x : Z) :=
  mkCbt (iface c) (page c) (cip c) (rip c) (slot c) (ins_head c) (ins c) (ins_stack c)
    (cbt_match c) (write_gen c) x (recno c) (rle_return_cnt c)
    (ins_entry_cnt c) (value c) (WT_CBT_RET_SLOT c) (WT_CBT_RET_INSERT c) (WT_CBT_SEARCH_SET c).
Definition set_recno (c : WT_CURSOR_BTREE) (x : Z) :=
  mkCbt (iface c) (page c) (cip c) (rip c) (slot c) (ins_head c) (ins c) (ins_stack c)
    (cbt_match c) (write_gen c) (nslots c) x (rle_return_cnt c)
    (ins_entry_cnt c) (value c) (WT_CBT_RET_SLOT c) (WT_CBT_RET_INSERT c) (WT_CBT_SEARCH_SET c).
Definition set_rle_return_cnt (c : WT_CURSOR_BTREE) (x : Z) :=
  mkCbt (iface c) (page c) (cip c) (rip c) (slot c) (ins_head c) (ins c) (ins_stack c)
    (cbt_match c) (write_gen c) (nslots c) (recno c) x
    (ins_entry_cnt c) (value c) (WT_CBT_RET_SLOT c) (WT_CBT_RET_INSERT c) (WT_CBT_SEARCH_SET c).
Definition set_ins_entry_cnt (c : WT_CURSOR_BTREE) (x : Z) :=
  mkCbt (iface c) (page c) (cip c) (rip c) (slot c) (ins_head c) (ins c) (ins_stack c)
    (cbt_match c) (write_gen c) (nslots c) (recno c) (rle_return_cnt c)
    x (value c) (WT_CBT_RET_SLOT c) (WT_CBT_RET_INSERT c) (WT_CBT_SEARCH_SET c).
Definition set_value (c : WT_CURSOR_BTREE) (x : WT_BUF) :=
  mkCbt (iface c) (page c) (cip c) (rip c) (slot c) (ins_head c) (ins c) (ins_stack c)
    (cbt_match c) (write_gen c) (nslots c) (recno c) (rle_return_cnt c)
    (ins_entry_cnt c) x (WT_CBT_RET_SLOT c) (WT_CBT_RET_INSERT c) (WT_CBT_SEARCH_SET c).
Definition set_RET_SLOT (c : WT_CURSOR_BTREE) (x : bool) :=
  mkCbt (iface c) (page c) (cip c) (rip c) (slot c) (ins_head c) (ins c) (ins_stack c)
    (cbt_match c) (write_gen c) (nslots c) (recno c) (rle_return_cnt c)
    (ins_entry_cnt c) (value c) x (WT_CBT_RET_INSERT c) (WT_CBT_SEARCH_SET c).
Definition set_RET_INSERT (c : WT_CURSOR_BTREE) (x : bool) :=
  mkCbt (iface c) (page c) (cip c) (rip c) (slot c) (ins_head c) (ins c) (ins_stack c)
    (cbt_match c) (write_gen c) (nslots c) (recno c) (rle_return_cnt c)
    (ins_entry_cnt c) (value c) (WT_CBT_RET_SLOT c) x (WT_CBT_SEARCH_SET c).

Definition set_cur_key (c : WT_CURSOR) (x : WT_BUF) :=
  mkCursor x (cur_value c) (cur_recno c) (WT_CURSTD_KEY_SET c) (WT_CURSTD_VALUE_SET c).
Definition set_cur_value (c : WT_CURSOR) (x : WT_BUF) :=
  mkCursor (cur_key c) x (cur_recno c) (WT_CURSTD_KEY_SET c) (WT_CURSTD_VALUE_SET c).
Definition set_cur_recno (c : WT_CURSOR) (x : Z) :=
  mkCursor (cur_key c) (cur_value c) x (WT_CURSTD_KEY_SET c) (WT_CURSTD_VALUE_SET c).
Definition set_cur_flags (c : WT_CURSOR) (k v : bool) :=
  mkCursor (cur_key c) (cur_value c) (cur_recno c) k v.

(** ** The collaborators outside these two files *)

Class BtreeEnv : Type := {
  (* the depth of every insert-list head; a constant of the headers *)
  WT_SKIP_MAXDEPTH : Z;
  (* btree->btree_compare (key, item): negative, 0 or positive *)
  btree_compare : WT_ITEM -> WT_ITEM -> Z;
  (* __wt_row_key: build the key of a slot from its on-page cell *)
  __wt_row_key : WT_CELL -> ret_code * WT_ITEM;
  (* __wt_page_in: bring the child of a routing entry into memory *)
  __wt_page_in : WT_ROW_REF -> ret_code;
  (* __wt_cell_unpack_copy and __wt_cell_copy: the value of a cell *)
  __wt_cell_unpack_copy : WT_CELL_UNPACK -> ret_code * WT_BUF;
  __wt_cell_copy : WT_CELL -> ret_code * WT_BUF;
  (* __wt_buf_set: copy bytes into a scratch buffer *)
  __wt_buf_set : string -> Z -> ret_code * WT_BUF;
  (* __wt_xxx_np (session, &cbt->page, 0): the page before this one *)
  __wt_xxx_np : option WT_PAGE -> ret_code * option WT_PAGE;
  (* __wt_btcur_search_setup (cbt, 0) *)
  __wt_btcur_search_setup : WT_CURSOR_BTREE -> ret_code * WT_CURSOR_BTREE;
  (* __wt_cursor_clear (cbt) *)
  __wt_cursor_clear : WT_CURSOR_BTREE -> WT_CURSOR_BTREE;
  (* the error code WT_ILLEGAL_FORMAT_ERR leaves in ret *)
  WT_ILLEGAL_FORMAT : Z
}.

(** * row_srch.c *)

Section RowSearchDefs.
Context `{BtreeEnv}.

(** [__search_reset]: reset the cursor's state. *)
Definition __search_reset (cbt : WT_CURSOR_BTREE) : WT_CURSOR_BTREE :=
  mkCbt (iface cbt)
    None                 (* page = NULL *)
    None                 (* cip = NULL *)
    None                 (* rip = NULL *)
    UINT32_MAX           (* slot = UINT32_MAX *)
    None                 (* ins_head = NULL *)
    None                 (* ins = NULL *)
    (ins_stack cbt)
    false                (* match = 0 *)
    0                    (* write_gen = 0 *)
    (nslots cbt) (recno cbt) (rle_return_cnt cbt) (ins_entry_cnt cbt) (value cbt)
    (WT_CBT_RET_SLOT cbt) (WT_CBT_RET_INSERT cbt) (WT_CBT_SEARCH_SET cbt).

(** The [for] loop of [__search_insert], from level [i] and position
    [ins]; [stack] is [cbt->ins_stack].  The result is the node returned
    (or [NULL]) and the stack. *)
Fixpoint search_insert_loop (fuel : nat) (store : list (WT_INSERT WT_ITEM))
    (inshead : WT_INSERT_HEAD) (key : WT_ITEM) (i : Z) (ins : ins_slot)
    (stack : list (option ins_slot))
    : outcome (option ptr * list (option ins_slot)) :=
  if i <? 0 then Done (None, stack)
  else
    match fuel with
    | O => Diverge
    | S fuel' =>
        match ins_slot_deref store inshead ins with
        | None => Abort InvalidAccess
        | Some None =>
            (* *ins == NULL: cmp = -1, drop down a level *)
            search_insert_loop fuel' store inshead key (i - 1) (ins_slot_dec ins)
              (array_set stack i (Some ins))
        | Some (Some p) =>
            match nth_error store p with
            | None => Abort InvalidAccess
            | Some n =>
                let cmp := btree_compare key (ins_key n) in
                if cmp =? 0 then Done (Some p, stack)
                else if cmp >? 0 then
                  search_insert_loop fuel' store inshead key i (NextSlot p i) stack
                else
                  search_insert_loop fuel' store inshead key (i - 1) (ins_slot_dec ins)
                    (array_set stack i (Some ins))
            end
        end
    end.

(** The loop is deterministic in the pair (position, level) and there are
    [(length store + 1) * WT_SKIP_MAXDEPTH] of them: a run of more
    iterations is in a cycle of forward links and does not end. *)
Definition search_insert_fuel (store : list (WT_INSERT WT_ITEM)) : nat :=
  S (S (length store) * Z.to_nat WT_SKIP_MAXDEPTH).

(** [__search_insert]: search the slot's insert list. *)
Definition __search_insert (cbt : WT_CURSOR_BTREE) (store : list (WT_INSERT WT_ITEM))
    (inshead : option WT_INSERT_HEAD) (key : WT_ITEM)
    : outcome (option ptr * WT_CURSOR_BTREE) :=
  match inshead with
  | None => Done (None, cbt)
  | Some h =>
      '(r, stack) <- search_insert_loop (search_insert_fuel store) store h key
                       (WT_SKIP_MAXDEPTH - 1) (HeadSlot (WT_SKIP_MAXDEPTH - 1))
                       (ins_stack cbt) ;;
      Done (r, set_ins_stack cbt stack)
  end.

(** The binary search of an internal page: the inner [for] loop, from
    [base], [limit], the [cmp] left by earlier comparisons and [rref].
    The result is [(cmp, base, rref)] when the loop ends. *)
Fixpoint row_int_bsearch (fuel : nat) (t : list WT_ROW_REF) (key : WT_ITEM)
    (base limit cmp : Z) (rref : option Z) : outcome (Z * Z * option Z) :=
  if limit =? 0 then Done (cmp, base, rref)
  else
    match fuel with
    | O => Diverge
    | S fuel' =>
        let indx := u32 (base + Z.shiftr limit 1) in
        if negb (indx =? 0) then
          match array_get t indx with
          | None => Abort InvalidAccess
          | Some r =>
              let cmp := btree_compare key (rref_key r) in
              if cmp =? 0 then Done (cmp, base, Some indx)
              else if cmp <? 0 then
                row_int_bsearch fuel' t key base (Z.shiftr limit 1) cmp (Some indx)
              else
                row_int_bsearch fuel' t key (u32 (indx + 1))
                  (Z.shiftr (u32 (limit - 1)) 1) cmp (Some indx)
          end
        else
          row_int_bsearch fuel' t key (u32 (indx + 1))
            (Z.shiftr (u32 (limit - 1)) 1) cmp (Some indx)
    end.

(** One internal page of the descent: the binary search, the assertion
    and the choice of the routing entry.  The result is [cmp] and the
    index of the entry taken for the step down. *)
Definition row_int_step (t : list WT_ROW_REF) (key : WT_ITEM) (cmp : Z)
    : outcome (Z * Z) :=
  '(cmp, base, rref) <- row_int_bsearch (Z.to_nat (len t)) t key 0 (len t) cmp None ;;
  match rref with
  | None => Abort AssertFailed                (* WT_ASSERT (rref != NULL) *)
  | Some indx =>
      if negb (cmp =? 0) then Done (cmp, u32 (base - 1))
      else Done (cmp, indx)
  end.

(** The outer [for] loop: from [page] down to the first page that is not
    a row-store internal page. *)
Fixpoint row_descend (page : WT_PAGE) (key : WT_ITEM) (cmp : Z)
    : outcome (ret_code * WT_PAGE * Z) :=
  match page with
  | WT_PAGE_ROW_INT t =>
      match row_int_step t key cmp with
      | Done (cmp', chosen) =>
          (fix pick (l : list WT_ROW_REF) (n : nat) {struct l}
             : outcome (ret_code * WT_PAGE * Z) :=
             match l with
             | [] => Abort InvalidAccess
             | r :: l' =>
                 match n with
                 | O =>
                     match __wt_page_in r with
                     | RET_OK => row_descend (WT_ROW_REF_PAGE r) key cmp'
                     | ret => Done (ret, page, cmp')     (* WT_ERR *)
                     end
                 | S n' => pick l' n'
                 end
             end) t (Z.to_nat chosen)
      | Abort f => Abort f
      | Diverge => Diverge
      end
  | _ => Done (RET_OK, page, cmp)
  end.

(** The key of a slot: the instantiated key or [__wt_row_key]. *)
Definition row_slot_key (row : WT_ROW) : ret_code * WT_ITEM :=
  match row_key row with
  | KeyOffPage ikey => (RET_OK, ikey)
  | KeyOnPage cell => __wt_row_key cell
  end.

(** The binary search of the leaf page; the result is the return code
    (not [RET_OK] when [__wt_row_key] failed) and [(cmp, base, rip)]. *)
Fixpoint row_leaf_bsearch (fuel : nat) (d : list WT_ROW) (key : WT_ITEM)
    (base limit cmp : Z) (rip : option Z) : outcome (ret_code * (Z * Z * option Z)) :=
  if limit =? 0 then Done (RET_OK, (cmp, base, rip))
  else
    match fuel with
    | O => Diverge
    | S fuel' =>
        let indx := u32 (base + Z.shiftr limit 1) in
        match array_get d indx with
        | None => Abort InvalidAccess
        | Some row =>
            match row_slot_key row with
            | (RET_OK, item) =>
                let cmp := btree_compare key item in
                if cmp =? 0 then Done (RET_OK, (cmp, base, Some indx))
                else if cmp <? 0 then
                  row_leaf_bsearch fuel' d key base (Z.shiftr limit 1) cmp (Some indx)
                else
                  row_leaf_bsearch fuel' d key (u32 (indx + 1))
                    (Z.shiftr (u32 (limit - 1)) 1) cmp (Some indx)
            | (ret, _) => Done (ret, (cmp, base, Some indx))      (* WT_ERR *)
            end
        end
    end.

(** The part of [__wt_row_search] after the leaf's binary search found no
    slot: pick the insert list for [base] and search it. *)
Definition row_search_insert_list (cbt : WT_CURSOR_BTREE) (l : ROW_LEAF)
    (key : WT_ITEM) (base : Z) : outcome (ret_code * WT_CURSOR_BTREE) :=
  let rip := if negb (base =? 0) then u32 (base - 1) else 0 in
  let cbt := set_rip cbt (Some rip) in
  '(inshead, slot') <-
     (if base =? 0 then
        h <- WT_ROW_INSERT_SMALLEST l ;; Done (h, len (row_leaf_d l))   (* extra slot *)
      else
        h <- WT_ROW_INSERT_SLOT l rip ;; Done (h, rip)) ;;
  let cbt := set_slot (set_ins_head cbt inshead) slot' in
  '(found, cbt) <- __search_insert cbt (row_leaf_store l) (ins_head cbt) key ;;
  let cbt := set_ins cbt found in
  Done (RET_OK, set_match cbt (match ins cbt with None => false | Some _ => true end)).

(** The leaf part of [__wt_row_search], entered with the [cmp] the descent
    left behind. *)
Definition row_search_leaf (cbt : WT_CURSOR_BTREE) (page : WT_PAGE) (key : WT_ITEM)
    (cmp : Z) (is_modify : bool) : outcome (ret_code * WT_CURSOR_BTREE) :=
  match page with
  | WT_PAGE_ROW_LEAF l =>
      let cbt := if is_modify then set_write_gen cbt (row_leaf_write_gen l) else cbt in
      let cbt := set_page cbt (Some page) in
      '(ret, (cmp, base, rip)) <-
         row_leaf_bsearch (Z.to_nat (len (row_leaf_d l))) (row_leaf_d l) key
           0 (len (row_leaf_d l)) cmp None ;;
      if negb (ret_is_ok ret) then Done (ret, cbt)
      else if cmp =? 0 then
        match rip with
        | None => Abort AssertFailed            (* WT_ASSERT (rip != NULL) *)
        | Some indx =>
            Done (RET_OK, set_match (set_slot (set_rip cbt (Some indx)) indx) true)
        end
      else row_search_insert_list cbt l key base
  | _ => Abort InvalidAccess     (* u.row_leaf of a page that is no row leaf *)
  end.

(** [__wt_row_search]: search a row-store tree for a specific key (the
    key of the cursor), from the root page of the tree. *)
Definition __wt_row_search (root : WT_PAGE) (cbt : WT_CURSOR_BTREE) (is_modify : bool)
    : outcome (ret_code * WT_CURSOR_BTREE) :=
  let key := buf_data (cur_key (iface cbt)) in
  let cbt := __search_reset cbt in
  '(ret, page, cmp) <- row_descend root key (-1) ;;
  if negb (ret_is_ok ret) then Done (ret, cbt)
  else row_search_leaf cbt page key cmp is_modify.

End RowSearchDefs.

(** * bt_curprev.c *)

Section CurPrevDefs.
Context `{BtreeEnv}.

Inductive rec_state : Type := DELETED | FOUND | NOTFOUND.

(** [recnop], [key] and [value] point into the cursor: [&cursor->recno],
    [&cursor->key] and [&cursor->value]. *)
Definition set_recnop (cbt : WT_CURSOR_BTREE) (r : Z) : WT_CURSOR_BTREE :=
  set_iface cbt (set_cur_recno (iface cbt) r).
Definition set_valuep (cbt : WT_CURSOR_BTREE) (v : WT_BUF) : WT_CURSOR_BTREE :=
  set_iface cbt (set_cur_value (iface cbt) v).
Definition set_keyp (cbt : WT_CURSOR_BTREE) (k : WT_BUF) : WT_CURSOR_BTREE :=
  set_iface cbt (set_cur_key (iface cbt) k).

(** [cbt->ins->upd] *)
Definition cbt_ins_node {K : Type} (store : list (WT_INSERT K)) (cbt : WT_CURSOR_BTREE)
    : outcome (WT_INSERT K) :=
  match ins cbt with
  | None => Abort InvalidAccess
  | Some q =>
      match nth_error store q with
      | Some m => Done m
      | None => Abort InvalidAccess
      end
  end.

Definition byte_string (v : Z) : string :=
  String (ascii_of_N (Z.to_N v)) EmptyString.

(** The body of the [WT_SKIP_FOREACH] of [__prev_fix]; the loop state is
    [state] and the cursor. *)
Definition prev_fix_body (c : COL_FIX) (p : ptr) (node : WT_INSERT Z)
    (s : rec_state * WT_CURSOR_BTREE) : outcome (rec_state * WT_CURSOR_BTREE * bool) :=
  let '(state, cbt) := s in
  if negb (recno cbt =? ins_key node) then Done (state, cbt, false)     (* continue *)
  else
    m <- cbt_ins_node (fix_store c) cbt ;;
    let upd := ins_upd m in
    if WT_UPDATE_DELETED_ISSET upd then Done (DELETED, cbt, false)
    else Done (FOUND, set_valuep cbt (mkBuf (WT_UPDATE_DATA upd) 1), false).

(** The third clause of the [for]: [--cbt->recno, --cbt->nslots]. *)
Definition prev_fix_next (cbt : WT_CURSOR_BTREE) : WT_CURSOR_BTREE :=
  set_nslots (set_recno cbt (u64 (recno cbt - 1))) (u32 (nslots cbt - 1)).

(** The [for] loop of [__prev_fix], entered where [state != FOUND]
    holds.  Every turn that goes on takes one from [nslots], so the
    loop makes no more than [nslots] turns. *)
Fixpoint prev_fix_loop (fuel : nat) (c : COL_FIX) (cbt : WT_CURSOR_BTREE)
    : outcome (ret_code * WT_CURSOR_BTREE) :=
  if nslots cbt =? 0 then Done (WT_NOTFOUND, cbt)
  else
    match fuel with
    | O => Diverge
    | S fuel' =>
        let cbt := set_recnop cbt (recno cbt) in
        '(state, cbt) <-
           (match ins_head cbt with
            | None => Done (NOTFOUND, cbt)
            | Some _ =>
                WT_SKIP_FOREACH (fix_store c) (ins_head cbt) (prev_fix_body c) (NOTFOUND, cbt)
            end) ;;
        match state with
        | NOTFOUND =>
            v <- __bit_getv_recno c (recno cbt) ;;
            match __wt_buf_set (byte_string v) 1 with
            | (RET_OK, buf) =>
                let cbt := set_value cbt buf in
                let cbt := set_valuep cbt (mkBuf (buf_data (value cbt)) 1) in
                Done (RET_OK, prev_fix_next cbt)
            | (ret, _) => Done (ret, cbt)                      (* WT_RET *)
            end
        | FOUND => Done (RET_OK, prev_fix_next cbt)
        | DELETED => prev_fix_loop fuel' c (prev_fix_next cbt)
        end
    end.

(** [__prev_fix]: move to the previous, fixed-length column-store item. *)
Definition __prev_fix (cbt : WT_CURSOR_BTREE) (c : COL_FIX) (newpage : bool)
    : outcome (ret_code * WT_CURSOR_BTREE) :=
  cbt <- (if newpage then
            h <- WT_COL_INSERT_SINGLE c ;;
            let cbt := set_ins_head cbt h in
            let cbt := set_nslots cbt (len (fix_bitf c)) in
            Done (set_recno cbt (u64 (fix_recno c + u32 (len (fix_bitf c) - 1))))
          else Done cbt) ;;
  prev_fix_loop (Z.to_nat (nslots cbt)) c cbt.

(** [WT_COL_PTR (page, cip)]: the cell of a slot, [NULL] if it has none. *)
Definition WT_COL_PTR (c : COL_VAR) (cip : option Z) : outcome (option WT_CELL) :=
  match cip with
  | None => Abort InvalidAccess
  | Some i =>
      match array_get (var_d c) i with
      | Some cell => Done cell
      | None => Abort InvalidAccess
      end
  end.

(** The body of the [WT_SKIP_FOREACH] of [__prev_var]. *)
Definition prev_var_body (c : COL_VAR) (p : ptr) (node : WT_INSERT Z)
    (s : rec_state * WT_CURSOR_BTREE) : outcome (rec_state * WT_CURSOR_BTREE * bool) :=
  let '(state, cbt) := s in
  m <- cbt_ins_node (var_store c) cbt ;;
  if negb (recno cbt =? ins_key m) then Done (state, cbt, false)        (* continue *)
  else
    let upd := ins_upd m in
    if WT_UPDATE_DELETED_ISSET upd then Done (DELETED, cbt, true)
    else Done (FOUND, set_valuep cbt (mkBuf (WT_UPDATE_DATA upd) (upd_size upd)), true).

(** The [while (cbt->rle_return_cnt > 0)] loop; [true] in the result says
    the function returned 0 from inside the loop. *)
Fixpoint prev_var_run (fuel : nat) (c : COL_VAR) (cbt : WT_CURSOR_BTREE)
    (state : rec_state) : outcome (bool * WT_CURSOR_BTREE) :=
  if rle_return_cnt cbt >? 0 then
    match fuel with
    | O => Diverge
    | S fuel' =>
        let cbt := set_rle_return_cnt cbt (rle_return_cnt cbt - 1) in
        let cbt := set_recnop cbt (recno cbt) in
        let cbt := set_recno cbt (u64 (recno cbt - 1)) in
        '(state, cbt) <-
           (match ins_head cbt with
            | None => Done (state, cbt)
            | Some _ =>
                WT_SKIP_FOREACH (var_store c) (ins_head cbt) (prev_var_body c) (state, cbt)
            end) ;;
        match state with
        | NOTFOUND => Done (true, set_valuep cbt (value cbt))
        | FOUND => Done (true, cbt)
        | DELETED => prev_var_run fuel' c cbt state
        end
    end
  else Done (false, cbt).

(** What the [if (newcell)] block of [__prev_var] ends in. *)
Inductive newcell_result : Type :=
| CellSkipped (cbt : WT_CURSOR_BTREE) (unpack : WT_CELL_UNPACK)       (* continue *)
| CellReady (cbt : WT_CURSOR_BTREE) (unpack : WT_CELL_UNPACK) (cell : option WT_CELL)
| CellError (ret : ret_code) (cbt : WT_CURSOR_BTREE).   (* WT_RET *)

Definition cip_slot (cbt : WT_CURSOR_BTREE) : Z :=
  match cip cbt with Some i => i | None => 0 end.

(** The [if (newcell)] block: unpack the cell, find the insert list, skip
    a deleted run or copy the value. *)
Definition prev_var_newcell (c : COL_VAR) (cbt : WT_CURSOR_BTREE)
    (unpack : WT_CELL_UNPACK) : outcome newcell_result :=
  cell <- WT_COL_PTR c (cip cbt) ;;
  let '(unpack, cbt) :=
    match cell with
    | Some ce =>
        let u := __wt_cell_unpack ce in (u, set_rle_return_cnt cbt (unpack_rle u))
    | None => (unpack, set_rle_return_cnt cbt 1)
    end in
  h <- WT_COL_INSERT c (cip_slot cbt) ;;
  let cbt := set_ins_head cbt h in
  if match ins_head cbt with None => true | Some _ => false end
     && cell_type_eqb (unpack_type unpack) WT_CELL_DEL
  then
    let cbt := set_recno cbt (u64 (recno cbt - rle_return_cnt cbt)) in
    Done (CellSkipped (set_rle_return_cnt cbt 0) unpack)
  else
    match cell with
    | None => Done (CellReady (set_value cbt (mkBuf EmptyString 0)) unpack cell)
    | Some _ =>
        match __wt_cell_unpack_copy unpack with
        | (RET_OK, buf) => Done (CellReady (set_value cbt buf) unpack cell)
        | (ret, _) => Done (CellError ret cbt)
        end
    end.

(** The third clause of the [for]: [--cbt->cip, --cbt->nslots]. *)
Definition prev_var_next (cbt : WT_CURSOR_BTREE) : WT_CURSOR_BTREE :=
  set_nslots (set_cip cbt (option_map Z.pred (cip cbt))) (u32 (nslots cbt - 1)).

(** The [for] loop of [__prev_var]; [unpack] is the local the cells are
    unpacked into. *)
Fixpoint prev_var_loop (fuel : nat) (c : COL_VAR) (cbt : WT_CURSOR_BTREE)
    (unpack : WT_CELL_UNPACK) (newcell : bool)
    : outcome (ret_code * WT_CURSOR_BTREE) :=
  if (rle_return_cnt cbt >? 0) || (nslots cbt >? 0) then
    match fuel with
    | O => Diverge
    | S fuel' =>
        r <- (if newcell then prev_var_newcell c cbt unpack
              else Done (CellReady cbt unpack None)) ;;
        match r with
        | CellError ret cbt => Done (ret, cbt)
        | CellSkipped cbt unpack' => prev_var_loop fuel' c (prev_var_next cbt) unpack' true
        | CellReady cbt unpack' _ =>
            '(returned, cbt) <-
               prev_var_run (Z.to_nat (rle_return_cnt cbt)) c cbt NOTFOUND ;;
            if (returned : bool) then Done (RET_OK, cbt)
            else prev_var_loop fuel' c (prev_var_next cbt) unpack' true
        end
    end
  else Done (WT_NOTFOUND, cbt).

(** [__prev_var]: move to the previous, variable-length column-store
    item.  [unpack0] is what the local [_unpack] holds on entry, which the
    C code does not set. *)
Definition __prev_var (fuel : nat) (cbt : WT_CURSOR_BTREE) (c : COL_VAR)
    (newpage : bool) (unpack0 : WT_CELL_UNPACK)
    : outcome (ret_code * WT_CURSOR_BTREE) :=
  let cbt :=
    if newpage then
      let cbt := set_cip cbt (Some (u32 (len (var_d c) - 1))) in
      let cbt := set_nslots cbt (len (var_d c)) in
      set_recno cbt (u64 (var_recno c + u32 (len (var_d c) - 1)))
    else cbt in
  prev_var_loop fuel c cbt unpack0 newpage.

(** [++cbt->ins_entry_cnt] for every node of the list. *)
Definition count_inserts (store : list (WT_INSERT WT_ITEM))
    (inshead : option WT_INSERT_HEAD) : outcome Z :=
  WT_SKIP_FOREACH store inshead (fun _ _ n => Done (u32 (n + 1), false)) 0.

(** [ins = WT_SKIP_NEXT (ins)], [n] times. *)
Fixpoint skip_advance (n : nat) (store : list (WT_INSERT WT_ITEM)) (cur : option ptr)
    : outcome (option ptr) :=
  match n with
  | O => Done cur
  | S n' =>
      nx <- WT_SKIP_NEXT store cur ;;
      skip_advance n' store nx
  end.

(** [for (i = cnt, ins = WT_SKIP_FIRST (head); i > 1; --i) ins = WT_SKIP_NEXT (ins)]
    and the node [ins] then points to. *)
Definition nth_insert (store : list (WT_INSERT WT_ITEM))
    (inshead : option WT_INSERT_HEAD) (cnt : Z) : outcome (WT_INSERT WT_ITEM) :=
  first <- WT_SKIP_FIRST inshead ;;
  cur <- skip_advance (Z.to_nat (cnt - 1)) store first ;;
  match cur with
  | None => Abort InvalidAccess
  | Some p =>
      match nth_error store p with
      | Some n => Done n
      | None => Abort InvalidAccess
      end
  end.

Definition item_buf (k : WT_ITEM) : WT_BUF := mkBuf k (Z.of_nat (String.length k)).

(** The second half of the loop body of [__prev_row]: move to the slot,
    set up its insert list and return its pair.  [None] stands for
    [continue]. *)
Definition prev_row_slot (l : ROW_LEAF) (cbt : WT_CURSOR_BTREE)
    : outcome (option ret_code * WT_CURSOR_BTREE) :=
  if negb (WT_CBT_RET_SLOT cbt) && (slot cbt =? 0) then Done (Some WT_NOTFOUND, cbt)
  else
    let cbt :=
      if WT_CBT_RET_SLOT cbt then set_RET_SLOT cbt false
      else set_slot cbt (u32 (slot cbt - 1)) in
    h <- (if slot cbt =? 0 then WT_ROW_INSERT_SMALLEST l
          else WT_ROW_INSERT_SLOT l (u32 (slot cbt - 1))) ;;
    let cbt := set_ins_head cbt h in
    cnt <- count_inserts (row_leaf_store l) (ins_head cbt) ;;
    let cbt := set_RET_INSERT (set_ins_entry_cnt cbt cnt) true in
    upd <- WT_ROW_UPDATE l (slot cbt) ;;
    if match upd with Some u => WT_UPDATE_DELETED_ISSET u | None => false end
    then Done (None, cbt)                                    (* continue *)
    else
      match array_get (row_leaf_d l) (slot cbt) with
      | None => Abort InvalidAccess
      | Some row =>
          match row_slot_key row with
          | (RET_OK, k) =>
              let cbt := set_keyp cbt (item_buf k) in
              match upd with
              | Some u =>
                  Done (Some RET_OK,
                        set_valuep cbt (mkBuf (WT_UPDATE_DATA u) (upd_size u)))
              | None =>
                  match row_value row with
                  | None => Done (Some RET_OK, set_valuep cbt (mkBuf EmptyString 0))
                  | Some cell =>
                      match __wt_cell_copy cell with
                      | (RET_OK, buf) => Done (Some RET_OK, set_valuep cbt buf)
                      | (ret, _) => Done (Some ret, cbt)      (* WT_RET *)
                      end
                  end
              end
          | (ret, _) => Done (Some ret, cbt)                  (* WT_RET *)
          end
      end.

(** The [for (;; newpage = 0)] loop of [__prev_row]. *)
Fixpoint prev_row_loop (fuel : nat) (l : ROW_LEAF) (cbt : WT_CURSOR_BTREE)
    : outcome (ret_code * WT_CURSOR_BTREE) :=
  match fuel with
  | O => Diverge
  | S fuel' =>
      if match ins_head cbt with Some _ => true | None => false end
         && negb (ins_entry_cnt cbt =? 0)
      then
        let '(cbt, skip) :=
          if WT_CBT_RET_INSERT cbt then (set_RET_INSERT cbt false, false)
          else
            let cbt := set_ins_entry_cnt cbt (u32 (ins_entry_cnt cbt - 1)) in
            (cbt, ins_entry_cnt cbt =? 0) in
        if (skip : bool) then prev_row_loop fuel' l cbt           (* continue *)
        else
          node <- nth_insert (row_leaf_store l) (ins_head cbt) (ins_entry_cnt cbt) ;;
          let upd := ins_upd node in
          if WT_UPDATE_DELETED_ISSET upd then prev_row_loop fuel' l cbt
          else
            let cbt := set_keyp cbt (item_buf (ins_key node)) in
            Done (RET_OK, set_valuep cbt (mkBuf (WT_UPDATE_DATA upd) (upd_size upd)))
      else
        '(r, cbt) <- prev_row_slot l cbt ;;
        match r with
        | Some ret => Done (ret, cbt)
        | None => prev_row_loop fuel' l cbt
        end
  end.

(** [__prev_row]: move to the previous row-store item. *)
Definition __prev_row (fuel : nat) (cbt : WT_CURSOR_BTREE) (l : ROW_LEAF)
    (newpage : bool) : outcome (ret_code * WT_CURSOR_BTREE) :=
  cbt <- (if newpage then
            h <- WT_ROW_INSERT_SLOT l (u32 (len (row_leaf_d l) - 1)) ;;
            let cbt := set_ins_head cbt h in
            first <- WT_SKIP_FIRST (ins_head cbt) ;;
            let cbt := set_ins cbt first in
            cnt <- count_inserts (row_leaf_store l) (ins_head cbt) ;;
            let cbt := set_ins_entry_cnt cbt cnt in
            let cbt := set_slot cbt (u32 (len (row_leaf_d l) - 1)) in
            Done (set_RET_INSERT (set_RET_SLOT cbt true) true)
          else Done cbt) ;;
  prev_row_loop fuel l cbt.

(** The [do ... while] of [__wt_btcur_prev]: ask for the page before this
    one until it is a leaf.  [WT_NOTFOUND] when there is none. *)
Fixpoint prev_page (fuel : nat) (cbt : WT_CURSOR_BTREE)
    : outcome (ret_code * WT_CURSOR_BTREE) :=
  match fuel with
  | O => Diverge
  | S fuel' =>
      match __wt_xxx_np (page cbt) with
      | (RET_OK, p) =>
          let cbt := set_page cbt p in
          match p with
          | None => Done (WT_NOTFOUND, cbt)               (* WT_ERR_TEST *)
          | Some pg =>
              if is_internal pg then prev_page fuel' cbt
              else Done (RET_OK, cbt)
          end
      | (ret, p) => Done (ret, set_page cbt p)            (* WT_ERR *)
      end
  end.

(** The layout-specific iterator of the page the cursor holds. *)
Definition prev_on_page (fuel : nat) (cbt : WT_CURSOR_BTREE) (pg : WT_PAGE)
    (newpage : bool) (unpack0 : WT_CELL_UNPACK)
    : outcome (ret_code * WT_CURSOR_BTREE) :=
  match pg with
  | WT_PAGE_COL_FIX c => __prev_fix cbt c newpage
  | WT_PAGE_COL_VAR c => __prev_var fuel cbt c newpage unpack0
  | WT_PAGE_ROW_LEAF l => __prev_row fuel cbt l newpage
  | _ => Done (WT_ERROR WT_ILLEGAL_FORMAT, cbt)            (* WT_ILLEGAL_FORMAT_ERR *)
  end.

(** The [for (newpage = 0;; newpage = 1)] loop of [__wt_btcur_prev]. *)
Fixpoint btcur_prev_loop (fuel : nat) (cbt : WT_CURSOR_BTREE) (newpage : bool)
    (unpack0 : WT_CELL_UNPACK) : outcome (ret_code * WT_CURSOR_BTREE) :=
  match fuel with
  | O => Diverge
  | S fuel' =>
      '(ret, cbt) <-
         (match page cbt with
          | Some pg => prev_on_page fuel' cbt pg newpage unpack0
          | None => Done (WT_NOTFOUND, cbt)
          end) ;;
      if negb (ret_is_notfound ret) then Done (ret, cbt)     (* break *)
      else
        '(ret, cbt) <- prev_page fuel' cbt ;;
        if ret_is_ok ret then btcur_prev_loop fuel' cbt true unpack0
        else Done (ret, cbt)
  end.

(** [__wt_btcur_prev]: move to the previous record in the tree. *)
Definition __wt_btcur_prev (fuel : nat) (cbt : WT_CURSOR_BTREE)
    (unpack0 : WT_CELL_UNPACK) : outcome (ret_code * WT_CURSOR_BTREE) :=
  let cbt := set_iface cbt (set_cur_flags (iface cbt) false false) in
  match (if WT_CBT_SEARCH_SET cbt then __wt_btcur_search_setup cbt else (RET_OK, cbt)) with
  | (RET_OK, cbt) =>
      '(ret, cbt) <- btcur_prev_loop fuel cbt false unpack0 ;;
      if ret_is_ok ret
      then Done (RET_OK, set_iface cbt (set_cur_flags (iface cbt) true true))
      else Done (ret, cbt)
  | (ret, cbt) => Done (ret, cbt)                           (* WT_RET *)
  end.

(** [__wt_btcur_last]: move to the last record in the tree. *)
Definition __wt_btcur_last (fuel : nat) (cbt : WT_CURSOR_BTREE)
    (unpack0 : WT_CELL_UNPACK) : outcome (ret_code * WT_CURSOR_BTREE) :=
  let cbt := __wt_cursor_clear cbt in
  __wt_btcur_prev fuel cbt unpack0.

(** The spec's words for [last ()]: reset the cursor, then [prev ()]. *)
Definition spec_last (fuel : nat) (cbt : WT_CURSOR_BTREE) (unpack0 : WT_CELL_UNPACK)
    : outcome (ret_code * WT_CURSOR_BTREE) :=
  __wt_btcur_prev fuel (__wt_cursor_clear cbt) unpack0.

End CurPrevDefs.

(** * Well-formed insert lists *)

Section WellFormedDefs.
Context `{BtreeEnv}.

(** A forward link at level [i] is either [NULL] or goes to a node at
    address [lo] or above that is linked at level [i]. *)
Definition link_ok {K : Type} (store : list (WT_INSERT K)) (lo i : nat)
    (tgt : option ptr) : bool :=
  match tgt with
  | None => true
  | Some q =>
      (lo <=? q)%nat &&
      match nth_error store q with
      | Some n => (i <? length (ins_next n))%nat
      | None => false
      end
  end.

Fixpoint links_ok {K : Type} (store : list (WT_INSERT K)) (lo i : nat)
    (l : list (option ptr)) : bool :=
  match l with
  | [] => true
  | t :: l' => link_ok store lo i t && links_ok store lo (S i) l'
  end.

(** Every node, from address [p] on, links only to nodes behind it. *)
Fixpoint nodes_ok {K : Type} (store : list (WT_INSERT K)) (p : nat)
    (ns : list (WT_INSERT K)) : bool :=
  match ns with
  | [] => true
  | n :: ns' => links_ok store (S p) 0 (ins_next n) && nodes_ok store (S p) ns'
  end.

(** A well-formed insert list: the head has [WT_SKIP_MAXDEPTH] levels and
    all links go forward in the store, to nodes linked at that level. *)
Definition skiplist_wf {K : Type} (store : list (WT_INSERT K)) (h : WT_INSERT_HEAD)
    : bool :=
  (len (head h) =? WT_SKIP_MAXDEPTH) && links_ok store 0 0 (head h)
  && nodes_ok store 0 store.

End WellFormedDefs.

(** * Predicates of the specification *)

Section SpecDefs.
Context `{BtreeEnv}.

(** The position [ins] is a valid address at level [i]. *)
Definition slot_ok (store : list (WT_INSERT WT_ITEM)) (h : WT_INSERT_HEAD)
    (s : ins_slot) (i : Z) : Prop :=
  match s with
  | HeadSlot j => j = i /\ i < len (head h)
  | NextSlot p j =>
      j = i /\ exists n, nth_error store p = Some n /\ i < len (ins_next n)
  end.

Definition slot_rank (store : list (WT_INSERT WT_ITEM)) (s : ins_slot) : nat :=
  match s with
  | HeadSlot _ => S (length store)
  | NextSlot p _ => length store - p
  end.

(** The routing entry [j] compares greater than [key]; the 0th entry
    sorts below every key. *)
Definition entry_greater (t : list WT_ROW_REF) (key : WT_ITEM) (j : Z) : Prop :=
  j <> 0 /\
  exists r, array_get t j = Some r /\ btree_compare key (rref_key r) < 0.

(** Results of comparing [key] with a sorted run of keys: once a key is
    not below [key], all later keys are above it. *)
Fixpoint cmp_monotone (cs : list Z) : bool :=
  match cs with
  | a :: (b :: _) as rest => (if a <=? 0 then b <? 0 else true) && cmp_monotone rest
  | _ => true
  end.

(** The routing keys of an internal page, the 0th apart, are in order as
    [key] sees them. *)
Definition int_page_sorted_for (key : WT_ITEM) (t : list WT_ROW_REF) : bool :=
  cmp_monotone (map (fun r => btree_compare key (rref_key r)) (tl t)).

(** No entry from 1 up to [base - 1] compares greater than [key]. *)
Definition below_ok (t : list WT_ROW_REF) (key : WT_ITEM) (base : Z) : Prop :=
  forall j r, 1 <= j < base -> array_get t j = Some r ->
    btree_compare key (rref_key r) >= 0.

(** Every entry from [hi] on compares greater than [key]. *)
Definition above_ok (t : list WT_ROW_REF) (key : WT_ITEM) (hi : Z) : Prop :=
  forall j r, hi <= j -> array_get t j = Some r ->
    btree_compare key (rref_key r) < 0.

Definition sorted_for (t : list WT_ROW_REF) (key : WT_ITEM) : Prop :=
  forall i j ri rj, 1 <= i < j ->
    array_get t i = Some ri -> array_get t j = Some rj ->
    btree_compare key (rref_key ri) <= 0 -> btree_compare key (rref_key rj) < 0.

(** The step down from an internal page, through the entry chosen. *)
Definition step_down (t : list WT_ROW_REF) (key : WT_ITEM) (cmp' : Z) (r : WT_ROW_REF)
    : outcome (ret_code * WT_PAGE * Z) :=
  match __wt_page_in r with
  | RET_OK => row_descend (WT_ROW_REF_PAGE r) key cmp'
  | ret => Done (ret, WT_PAGE_ROW_INT t, cmp')
  end.

(** The slot [i] of the leaf holds a key that compares equal to [key]. *)
Definition slot_matches (d : list WT_ROW) (key : WT_ITEM) (i : Z) : Prop :=
  exists row k,
    array_get d i = Some row /\ row_slot_key row = (RET_OK, k) /\
    btree_compare key k = 0.

(** The cursor when the binary search of the leaf starts: reset, the
    write generation copied if the search is for a modification, the page
    set. *)
Definition leaf_cursor (cbt : WT_CURSOR_BTREE) (l : ROW_LEAF) (is_modify : bool)
    : WT_CURSOR_BTREE :=
  set_page
    (if is_modify then set_write_gen (__search_reset cbt) (row_leaf_write_gen l)
     else __search_reset cbt)
    (Some (WT_PAGE_ROW_LEAF l)).

Definition is_some {A : Type} (o : option A) : bool :=
  match o with Some _ => true | None => false end.

(** The cursor of the fixed-length iterator stands on a record of the
    page: [nslots] records are left, the current one is the last of them. *)
Definition fix_inv (c : COL_FIX) (cbt : WT_CURSOR_BTREE) : Prop :=
  0 <= nslots cbt <= len (fix_bitf c) /\
  (nslots cbt <> 0 -> recno cbt = fix_recno c + nslots cbt - 1).

(** The cursor after the variable-length iterator skipped a deleted run
    of [rle] records and moved to the cell before. *)
Definition skip_run (cbt : WT_CURSOR_BTREE) (rle : Z) : WT_CURSOR_BTREE :=
  prev_var_next
    (set_rle_return_cnt
       (set_recno (set_ins_head (set_rle_return_cnt cbt rle) None)
                  (u64 (recno cbt - rle)))
       0).

(** The cursor flags cleared at the start of [__wt_btcur_prev]. *)
Definition clear_std_flags (cbt : WT_CURSOR_BTREE) : WT_CURSOR_BTREE :=
  set_iface cbt (set_cur_flags (iface cbt) false false).

(** The cursor after the set-up [__wt_btcur_prev] does before its loop;
    the return code is that of [__wt_btcur_search_setup]. *)
Definition prev_setup (cbt : WT_CURSOR_BTREE) : ret_code * WT_CURSOR_BTREE :=
  if WT_CBT_SEARCH_SET (clear_std_flags cbt)
  then __wt_btcur_search_setup (clear_std_flags cbt)
  else (RET_OK, clear_std_flags cbt).

(** What the walk over the insert list leaves as it was. *)
Definition same_position (a : WT_CURSOR_BTREE) (s : rec_state * WT_CURSOR_BTREE) : Prop :=
  recno (snd s) = recno a /\ nslots (snd s) = nslots a /\
  cur_recno (iface (snd s)) = cur_recno (iface a).

(** Keys in strictly increasing order, each below the next. *)
Fixpoint keys_sorted (ks : list WT_ITEM) : Prop :=
  match ks with
  | a :: (b :: _) as rest => btree_compare a b < 0 /\ keys_sorted rest
  | _ => True
  end.

(** The level a position of the search belongs to. *)
Definition slot_level (s : ins_slot) : Z :=
  match s with
  | HeadSlot i => i
  | NextSlot _ i => i
  end.

(** The position is in the head, or in a node whose key is below [key]. *)
Definition owner_below (store : list (WT_INSERT WT_ITEM)) (key : WT_ITEM)
    (s : ins_slot) : Prop :=
  match s with
  | HeadSlot _ => True
  | NextSlot p _ =>
      exists n, nth_error store p = Some n /\ btree_compare key (ins_key n) > 0
  end.

(** The link at the position is [NULL] or goes to a node whose key is
    above [key]. *)
Definition next_above (store : list (WT_INSERT WT_ITEM)) (h : WT_INSERT_HEAD)
    (key : WT_ITEM) (s : ins_slot) : Prop :=
  ins_slot_deref store h s = Some None \/
  exists p n,
    ins_slot_deref store h s = Some (Some p) /\ nth_error store p = Some n /\
    btree_compare key (ins_key n) < 0.

(** The entry [j] of the insertion stack holds a position of level [j]
    after which a node with [key] is to be linked. *)
Definition stack_entry_ok (store : list (WT_INSERT WT_ITEM)) (h : WT_INSERT_HEAD)
    (key : WT_ITEM) (stack : list (option ins_slot)) (j : Z) : Prop :=
  exists s,
    array_get stack j = Some (Some s) /\ slot_level s = j /\
    owner_below store key s /\ next_above store h key s.

(** The result of comparing [key] with the key of the slot [j] of a leaf. *)
Definition slot_cmp (d : list WT_ROW) (key : WT_ITEM) (j : Z) : option Z :=
  match array_get d j with
  | Some row => Some (btree_compare key (snd (row_slot_key row)))
  | None => None
  end.

(** The key of every slot can be had: it is instantiated or
    [__wt_row_key] builds it. *)
Definition leaf_keys_ok (d : list WT_ROW) : bool :=
  forallb (fun row => ret_is_ok (fst (row_slot_key row))) d.

(** The keys of the slots of a leaf are in order as [key] sees them. *)
Definition leaf_sorted_for (key : WT_ITEM) (d : list WT_ROW) : bool :=
  cmp_monotone (map (fun row => btree_compare key (snd (row_slot_key row))) d).

(** The keys of all slots before [base] are below [key]. *)
Definition slots_below (d : list WT_ROW) (key : WT_ITEM) (base : Z) : Prop :=
  forall j c, 0 <= j < base -> slot_cmp d key j = Some c -> c > 0.

(** The keys of all slots from [base] on are above [key]. *)
Definition slots_above (d : list WT_ROW) (key : WT_ITEM) (base : Z) : Prop :=
  forall j c, base <= j -> slot_cmp d key j = Some c -> c < 0.

(** The slot index and the insert list the search returns for the
    boundary [base]. *)
Definition anchor_slot (l : ROW_LEAF) (base : Z) : Z :=
  if base =? 0 then len (row_leaf_d l) else base - 1.
Definition anchor_rip (base : Z) : Z :=
  if base =? 0 then 0 else base - 1.
Definition anchor_list (l : ROW_LEAF) (base : Z) : outcome (option WT_INSERT_HEAD) :=
  if base =? 0 then WT_ROW_INSERT_SMALLEST l else WT_ROW_INSERT_SLOT l (base - 1).

(** Once the key of a slot is not below [key], the keys of all later
    slots are above it. *)
Definition leaf_sorted_prop (d : list WT_ROW) (key : WT_ITEM) : Prop :=
  forall i j ci cj, 0 <= i < j ->
    slot_cmp d key i = Some ci -> slot_cmp d key j = Some cj ->
    ci <= 0 -> cj < 0.

(** Some slot of the leaf holds a key that compares equal to [key]. *)
Definition leaf_has_key (key : WT_ITEM) (d : list WT_ROW) : bool :=
  existsb (fun row => btree_compare key (snd (row_slot_key row)) =? 0) d.

Definition is_row_int (p : WT_PAGE) : bool :=
  match p with WT_PAGE_ROW_INT _ => true | _ => false end.

(** Every internal page of the tree has at least one routing entry, no
    more than a [uint32_t] counts, and every child can be brought in. *)
Fixpoint tree_ok (p : WT_PAGE) : bool :=
  match p with
  | WT_PAGE_ROW_INT t =>
      (1 <=? len t) && (len t <=? UINT32_MAX) &&
      forallb (fun r => ret_is_ok (__wt_page_in r) && tree_ok (WT_ROW_REF_PAGE r)) t
  | _ => true
  end.

(** What the iterators leave of the cursor as it was: the page it holds
    and the flags of the cursor interface. *)
Definition iter_frame (a b : WT_CURSOR_BTREE) : Prop :=
  page b = page a /\
  WT_CURSTD_KEY_SET (iface b) = WT_CURSTD_KEY_SET (iface a) /\
  WT_CURSTD_VALUE_SET (iface b) = WT_CURSTD_VALUE_SET (iface a).

(** The page types [__wt_btcur_prev] has an iterator for. *)
Definition is_leaf (p : WT_PAGE) : bool :=
  match p with
  | WT_PAGE_ROW_LEAF _ => true
  | WT_PAGE_COL_FIX _ => true
  | WT_PAGE_COL_VAR _ => true
  | _ => false
  end.

(** The call number [k], counted from 0, of the fixed-length iterator on
    a page: the first with [newpage] set, each on the cursor the call
    before it left. *)
Fixpoint fix_call (c : COL_FIX) (k : nat) (cbt : WT_CURSOR_BTREE)
    : outcome (ret_code * WT_CURSOR_BTREE) :=
  match k with
  | O => __prev_fix cbt c true
  | S k' => '(_, cbt1) <- fix_call c k' cbt ;; __prev_fix cbt1 c false
  end.

(** The same for the variable-length iterator. *)
Fixpoint var_call (c : COL_VAR) (fuel : nat) (u : WT_CELL_UNPACK) (k : nat)
    (cbt : WT_CURSOR_BTREE) : outcome (ret_code * WT_CURSOR_BTREE) :=
  match k with
  | O => __prev_var fuel cbt c true u
  | S k' => '(_, cbt1) <- var_call c fuel u k' cbt ;; __prev_var fuel cbt1 c false u
  end.

(** ** The records of a row-store leaf, last to first *)

(** The nodes of an insert list in the order of its level-0 links; [None]
    for a list with a dangling link or with more nodes than [fuel]. *)
Fixpoint chain_from {K : Type} (fuel : nat) (store : list (WT_INSERT K))
    (cur : option ptr) : option (list (WT_INSERT K)) :=
  match cur with
  | None => Some []
  | Some p =>
      match fuel with
      | O => None
      | S fuel' =>
          match nth_error store p with
          | None => None
          | Some n =>
              match array_get (ins_next n) 0 with
              | None => None
              | Some nx => option_map (cons n) (chain_from fuel' store nx)
              end
          end
      end
  end.

Definition insert_chain {K : Type} (store : list (WT_INSERT K))
    (inshead : option WT_INSERT_HEAD) : option (list (WT_INSERT K)) :=
  match inshead with
  | None => Some []
  | Some h =>
      match array_get (head h) 0 with
      | Some first => chain_from (S (length store)) store first
      | None => None
      end
  end.

(** The insert list number [i] of a row leaf is a proper list. *)
Definition page_chain_ok (l : ROW_LEAF) (i : Z) : bool :=
  match insert_array_get (row_leaf_ins l) i with
  | Done h => is_some (insert_chain (row_leaf_store l) h)
  | _ => false
  end.

Definition page_chain (l : ROW_LEAF) (i : Z) : list (WT_INSERT WT_ITEM) :=
  match insert_array_get (row_leaf_ins l) i with
  | Done h =>
      match insert_chain (row_leaf_store l) h with
      | Some ns => ns
      | None => []
      end
  | _ => []
  end.

(** A key/value pair as the iterator hands it out. *)
Definition row_record : Type := (WT_BUF * WT_BUF)%type.

Definition insert_record (n : WT_INSERT WT_ITEM) : row_record :=
  (item_buf (ins_key n), mkBuf (WT_UPDATE_DATA (ins_upd n)) (upd_size (ins_upd n))).

(** The pairs of the nodes of a list that are not deleted. *)
Definition live_inserts (ns : list (WT_INSERT WT_ITEM)) : list row_record :=
  map insert_record
      (filter (fun n => negb (WT_UPDATE_DELETED_ISSET (ins_upd n))) ns).

(** The pair of slot [i]: none if its update is a deletion, the update's
    value if it has one, else the value of the page. *)
Definition slot_record (l : ROW_LEAF) (i : Z) : list row_record :=
  match array_get (row_leaf_d l) i, WT_ROW_UPDATE l i with
  | Some row, Done upd =>
      let k := item_buf (snd (row_slot_key row)) in
      match upd with
      | Some u =>
          if WT_UPDATE_DELETED_ISSET u then []
          else [(k, mkBuf (WT_UPDATE_DATA u) (upd_size u))]
      | None =>
          match row_value row with
          | None => [(k, mkBuf EmptyString 0)]
          | Some cell => [(k, snd (__wt_cell_copy cell))]
          end
      end
  | _, _ => []
  end.

(** Slot [i], then the list in front of it, then the slots before, the
    list in front of slot 0 being the page's last array entry. *)
Fixpoint records_from (l : ROW_LEAF) (i : nat) : list row_record :=
  match i with
  | O => slot_record l 0 ++ rev (live_inserts (page_chain l (len (row_leaf_d l))))
  | S i' =>
      slot_record l (Z.of_nat (S i'))
      ++ rev (live_inserts (page_chain l (Z.of_nat i')))
      ++ records_from l i'
  end.

(** All the pairs of a leaf page, last to first. *)
Definition row_records (l : ROW_LEAF) : list row_record :=
  rev (live_inserts (page_chain l (len (row_leaf_d l) - 1)))
  ++ records_from l (Z.to_nat (len (row_leaf_d l) - 1)).

(** A leaf the iterator can walk: at least one slot, counters that fit
    32 bits, proper insert lists, an update array (if any) with an entry
    per slot, keys and values that can be had. *)
Definition row_page_ok (l : ROW_LEAF) : bool :=
  (1 <=? len (row_leaf_d l))
  && (len (row_leaf_d l) <=? UINT32_MAX)
  && (len (row_leaf_store l) <? UINT32_MAX)
  && forallb (fun i => page_chain_ok l (Z.of_nat i)) (seq 0 (S (length (row_leaf_d l))))
  && match row_leaf_upd l with
     | None => true
     | Some a => len (row_leaf_d l) <=? len a
     end
  && leaf_keys_ok (row_leaf_d l)
  && forallb (fun row => match row_value row with
                         | None => true
                         | Some cell => ret_is_ok (fst (__wt_cell_copy cell))
                         end) (row_leaf_d l).

(** The pairs of the current insert list the cursor has not been at. *)
Definition row_pending_inserts (l : ROW_LEAF) (cbt : WT_CURSOR_BTREE) : list row_record :=
  match insert_chain (row_leaf_store l) (ins_head cbt) with
  | Some ns =>
      let cand :=
        if ins_entry_cnt cbt =? 0 then 0
        else if WT_CBT_RET_INSERT cbt then ins_entry_cnt cbt
        else ins_entry_cnt cbt - 1 in
      rev (live_inserts (firstn (Z.to_nat cand) ns))
  | None => []
  end.

(** The pairs of the page the cursor has not been at. *)
Definition row_remaining (l : ROW_LEAF) (cbt : WT_CURSOR_BTREE) : list row_record :=
  row_pending_inserts l cbt
  ++ (if WT_CBT_RET_SLOT cbt then records_from l (Z.to_nat (slot cbt))
      else if slot cbt =? 0 then []
      else records_from l (Z.to_nat (slot cbt - 1))).

(** The cursor is on a slot of the page and its counter inside its list. *)
Definition row_cursor_ok (l : ROW_LEAF) (cbt : WT_CURSOR_BTREE) : Prop :=
  0 <= slot cbt < len (row_leaf_d l) /\
  exists ns, insert_chain (row_leaf_store l) (ins_head cbt) = Some ns /\
             0 <= ins_entry_cnt cbt <= len ns.

(** A bound on the turns of the loop of [__prev_row] left on the page. *)
Definition row_work (l : ROW_LEAF) (cbt : WT_CURSOR_BTREE) : Z :=
  (if is_some (ins_head cbt) && negb (ins_entry_cnt cbt =? 0)
   then ins_entry_cnt cbt + (if WT_CBT_RET_INSERT cbt then 1 else 0)
   else 0)
  + (slot cbt + (if WT_CBT_RET_SLOT cbt then 1 else 0)) * (len (row_leaf_store l) + 3).

(** The result of call [k] of [__prev_row] on a page, the first with
    [newpage] set. *)
Fixpoint row_call (l : ROW_LEAF) (fuel : nat) (k : nat) (cbt : WT_CURSOR_BTREE)
    : outcome (ret_code * WT_CURSOR_BTREE) :=
  match k with
  | O => __prev_row fuel cbt l true
  | S k' => '(_, cbt1) <- row_call l fuel k' cbt ;; __prev_row fuel cbt1 l false
  end.

(** ** A sorted insert list *)

Definition opt_ptr_eqb (x y : option ptr) : bool :=
  match x, y with
  | None, None => true
  | Some p, Some q => Nat.eqb p q
  | _, _ => false
  end.

(** The forward links of place [a] of a list whose level-0 chain is [c]:
    place 0 is the head, place [S a'] the node [c[a']]. *)
Definition place_links (store : list (WT_INSERT WT_ITEM)) (h : WT_INSERT_HEAD)
    (c : list ptr) (a : nat) : option (list (option ptr)) :=
  match a with
  | O => Some (head h)
  | S a' =>
      match nth_error c a' with
      | Some p =>
          match nth_error store p with
          | Some n => Some (ins_next n)
          | None => None
          end
      | None => None
      end
  end.

(** A link from place [a] is [NULL] or goes to a node further on in the
    chain. *)
Definition link_lands (c : list ptr) (a : nat) (tgt : option ptr) : bool :=
  match tgt with
  | None => true
  | Some q =>
      existsb (fun a' => (a <=? a')%nat && opt_ptr_eqb (nth_error c a') (Some q))
              (seq 0 (length c))
  end.

(** [c] is the level-0 chain of the list and the links of the other
    levels stay on it, going forward. *)
Definition skiplist_chain (store : list (WT_INSERT WT_ITEM)) (h : WT_INSERT_HEAD)
    (c : list ptr) : bool :=
  forallb (fun a =>
             match place_links store h c a with
             | Some (t0 :: ls) =>
                 opt_ptr_eqb t0 (nth_error c a) && forallb (link_lands c a) ls
             | _ => false
             end)
          (seq 0 (S (length c))).

(** What [key] compares to along the chain. *)
Definition chain_key_cmps (store : list (WT_INSERT WT_ITEM)) (key : WT_ITEM)
    (c : list ptr) : list Z :=
  map (fun p => match nth_error store p with
                | Some n => btree_compare key (ins_key n)
                | None => 0
                end) c.

(** The position [s] is at level [i] of place [a]. *)
Definition slot_place (c : list ptr) (s : ins_slot) (i : Z) (a : nat) : Prop :=
  match s with
  | HeadSlot j => j = i /\ a = O
  | NextSlot p j => j = i /\ exists a', a = S a' /\ nth_error c a' = Some p
  end.

(** The keys of the first [base] slots are below [key] and the keys of
    the slots from [base] on are above it. *)
Definition leaf_boundary (key : WT_ITEM) (d : list WT_ROW) (base : Z) : bool :=
  forallb (fun row => 0 <? btree_compare key (snd (row_slot_key row)))
          (firstn (Z.to_nat base) d)
  && forallb (fun row => btree_compare key (snd (row_slot_key row)) <? 0)
             (skipn (Z.to_nat base) d).

(** ** The records of a row-store tree, last to first *)

(** The pages [__wt_xxx_np] hands out after [cur] are [ps], in turn, and
    then there is none. *)
Fixpoint walk_ok (cur : option WT_PAGE) (ps : list WT_PAGE) : Prop :=
  match ps with
  | [] => __wt_xxx_np cur = (RET_OK, None)
  | p :: ps' => __wt_xxx_np cur = (RET_OK, Some p) /\ walk_ok (Some p) ps'
  end.

(** An internal page, or a row leaf the iterator can walk. *)
Definition walk_page_ok (p : WT_PAGE) : bool :=
  match p with
  | WT_PAGE_ROW_LEAF l => row_page_ok l
  | _ => is_internal p
  end.

Definition page_records (p : WT_PAGE) : list row_record :=
  match p with
  | WT_PAGE_ROW_LEAF l => row_records l
  | _ => []
  end.

(** The pairs of the pages of a walk, in the order of the walk. *)
Definition walk_records (ps : list WT_PAGE) : list row_record :=
  flat_map page_records ps.

(** The turns the loop of [__prev_row] may take on a page. *)
Definition page_fuel (p : WT_PAGE) : Z :=
  match p with
  | WT_PAGE_ROW_LEAF l => (len (row_leaf_d l) + 1) * (len (row_leaf_store l) + 3)
  | _ => 0
  end.

(** Fuel for a call of [__wt_btcur_prev] on a walk. *)
Definition walk_fuel (ps : list WT_PAGE) : Z :=
  fold_right Z.max 0 (map page_fuel ps) + len ps + 3.

(** Between two calls: the cursor is on a row leaf of the walk, [rem] are
    the pairs still to come and [ps] the pages still to come. *)
Definition walk_state (F : Z) (cbt : WT_CURSOR_BTREE) (ps : list WT_PAGE)
    (rem : list row_record) : Prop :=
  exists l,
    page cbt = Some (WT_PAGE_ROW_LEAF l) /\
    row_page_ok l = true /\
    page_fuel (WT_PAGE_ROW_LEAF l) <= F /\
    row_cursor_ok l cbt /\
    row_work l cbt < page_fuel (WT_PAGE_ROW_LEAF l) /\
    rem = row_remaining l cbt ++ walk_records ps /\
    walk_ok (page cbt) ps /\
    forallb walk_page_ok ps = true /\
    (forall p, In p ps -> page_fuel p <= F).

(** The result of call [k] of [__wt_btcur_prev], each call on the cursor
    the call before it left. *)
Fixpoint tree_call (fuel : nat) (u : WT_CELL_UNPACK) (k : nat) (cbt : WT_CURSOR_BTREE)
    : outcome (ret_code * WT_CURSOR_BTREE) :=
  match k with
  | O => __wt_btcur_prev fuel cbt u
  | S k' => '(_, cbt1) <- tree_call fuel u k' cbt ;; __wt_btcur_prev fuel cbt1 u
  end.

(** ** What a call of the row iterator can return *)

(** The pair in the cursor is that of a node of the page that is not
    deleted. *)
Definition insert_result (l : ROW_LEAF) (c : WT_CURSOR_BTREE) : Prop :=
  exists p node,
    nth_error (row_leaf_store l) p = Some node /\
    WT_UPDATE_DELETED_ISSET (ins_upd node) = false /\
    (cur_key (iface c), cur_value (iface c)) = insert_record node.

(** The pair in the cursor is that of the slot the cursor is at, whose
    key and value could be had. *)
Definition slot_result (l : ROW_LEAF) (c : WT_CURSOR_BTREE) : Prop :=
  slot_record l (slot c) = [(cur_key (iface c), cur_value (iface c))] /\
  exists row,
    array_get (row_leaf_d l) (slot c) = Some row /\
    fst (row_slot_key row) = RET_OK /\
    (forall cell, WT_ROW_UPDATE l (slot c) = Done None ->
                  row_value row = Some cell ->
                  fst (__wt_cell_copy cell) = RET_OK).

(** [ret] is a code that [__wt_row_key] or [__wt_cell_copy] returned for
    a slot of the page, and not 0. *)
Definition collaborator_code (l : ROW_LEAF) (ret : ret_code) : Prop :=
  ret <> RET_OK /\
  exists row,
    In row (row_leaf_d l) /\
    (fst (row_slot_key row) = ret \/
     exists cell, row_value row = Some cell /\ fst (__wt_cell_copy cell) = ret).

(** The three kinds of result of a call of [__prev_row]. *)
Definition prev_row_result (l : ROW_LEAF) (ret : ret_code) (c : WT_CURSOR_BTREE) : Prop :=
  (ret = RET_OK /\ (insert_result l c \/ slot_result l c)) \/
  (ret = WT_NOTFOUND /\ slot c = 0 /\ WT_CBT_RET_SLOT c = false) \/
  collaborator_code l ret.

(** Every insert list of the leaf, the one in front of slot 0 too, can
    be had and is well formed. *)
Definition leaf_lists_wf (l : ROW_LEAF) : bool :=
  forallb (fun i =>
             match insert_array_get (row_leaf_ins l) (Z.of_nat i) with
             | Done None => true
             | Done (Some h) => skiplist_wf (row_leaf_store l) h
             | _ => false
             end)
          (seq 0 (S (length (row_leaf_d l)))).

(** ** The record numbers of a variable-length page *)

(** The repeat count of a slot: that of its cell, 1 without a cell. *)
Definition cell_rle (o : option WT_CELL) : Z :=
  match o with
  | Some cell => unpack_rle (__wt_cell_unpack cell)
  | None => 1
  end.

(** Modelled from the spec: the base record number plus the run lengths
    of the cells before it give the first record number of cell [i]. *)
Definition cell_first_recno (c : COL_VAR) (i : nat) : Z :=
  var_recno c + fold_right Z.add 0 (map cell_rle (firstn i (var_d c))).

(** The record number [r] is one of the run of cell [i]. *)
Definition in_cell_run (c : COL_VAR) (i : nat) (r : Z) : bool :=
  match nth_error (var_d c) i with
  | Some o => (cell_first_recno c i <=? r) && (r <? cell_first_recno c i + cell_rle o)
  | None => false
  end.

End SpecDefs.

(** * A small tree to run the code on *)

Local Open Scope string_scope.

Definition lex_compare (a b : string) : Z :=
  match String.compare a b with
  | Eq => 0
  | Lt => -1
  | Gt => 1
  end.

Definition value_cell (v : string) : WT_CELL := mkCell (mkUnpack WT_CELL_VALUE 1 v).

#[local] Instance demo_env : BtreeEnv := {|
  WT_SKIP_MAXDEPTH := 3;
  btree_compare := lex_compare;
  __wt_row_key := fun cell => (RET_OK, unpack_data (cell_unpacked cell));
  __wt_page_in := fun _ => RET_OK;
  __wt_cell_unpack_copy := fun u => (RET_OK, mkBuf (unpack_data u) (Z.of_nat (String.length (unpack_data u))));
  __wt_cell_copy := fun cell =>
    (RET_OK, mkBuf (unpack_data (cell_unpacked cell))
                   (Z.of_nat (String.length (unpack_data (cell_unpacked cell)))));
  __wt_buf_set := fun s n => (RET_OK, mkBuf s n);
  __wt_xxx_np := fun _ => (RET_OK, None);
  __wt_btcur_search_setup := fun cbt => (RET_OK, cbt);
  __wt_cursor_clear := fun cbt =>
    mkCbt (iface cbt) None None None UINT32_MAX None None (ins_stack cbt)
      false 0 0 0 0 0 (mkBuf EmptyString 0) false false false;
  WT_ILLEGAL_FORMAT := 22
|}.

Definition live (v : string) : WT_UPDATE := mkUpd false v (Z.of_nat (String.length v)).
Definition tombstone : WT_UPDATE := mkUpd true EmptyString 0.

Definition cursor0 : WT_CURSOR := mkCursor empty_buf empty_buf 0 false false.
Definition cbt0 : WT_CURSOR_BTREE :=
  mkCbt cursor0 None None None UINT32_MAX None None [None; None; None]
    false 0 0 0 0 0 empty_buf false false false.
Definition cbt_for (key : string) : WT_CURSOR_BTREE :=
  set_iface cbt0 (set_cur_key cursor0 (mkBuf key (Z.of_nat (String.length key)))).

(** The row page of the spec's scenario: slots [b, d, f] and the live
    node [e] on the insert list of the slot of [d]. *)
Definition demo_store : list (WT_INSERT WT_ITEM) :=
  [ mkIns "e"%string (live "E") [None; None] ].
Definition demo_head : WT_INSERT_HEAD := mkHead [Some 0%nat; Some 0%nat; None].
Definition demo_leaf : ROW_LEAF :=
  mkRowLeaf
    [ mkRow (KeyOffPage "b") (Some (value_cell "B"));
      mkRow (KeyOnPage (value_cell "d")) (Some (value_cell "D"));
      mkRow (KeyOffPage "f") None ]
    (Some [None; Some demo_head; None; None])
    None
    demo_store
    7.

Definition demo_routes : list WT_ROW_REF :=
  [ mkRowRef EmptyString (WT_PAGE_ROW_LEAF (mkRowLeaf [mkRow (KeyOffPage "a") None] None None [] 1));
    mkRowRef "b" (WT_PAGE_ROW_LEAF demo_leaf) ].

Definition demo_root : WT_PAGE := WT_PAGE_ROW_INT demo_routes.

(** A tree whose only leaf is [leaf]: the page before no page is the
    leaf, and there is no page before the leaf. *)
Definition one_leaf_env (leaf : WT_PAGE) : BtreeEnv := {|
  WT_SKIP_MAXDEPTH := 3;
  btree_compare := lex_compare;
  __wt_row_key := fun cell => (RET_OK, unpack_data (cell_unpacked cell));
  __wt_page_in := fun _ => RET_OK;
  __wt_cell_unpack_copy := fun u => (RET_OK, mkBuf (unpack_data u) (Z.of_nat (String.length (unpack_data u))));
  __wt_cell_copy := fun cell =>
    (RET_OK, mkBuf (unpack_data (cell_unpacked cell))
                   (Z.of_nat (String.length (unpack_data (cell_unpacked cell)))));
  __wt_buf_set := fun s n => (RET_OK, mkBuf s n);
  __wt_xxx_np := fun cur =>
    match cur with
    | None => (RET_OK, Some leaf)
    | Some _ => (RET_OK, None)
    end;
  __wt_btcur_search_setup := fun cbt => (RET_OK, cbt);
  __wt_cursor_clear := fun cbt =>
    mkCbt (iface cbt) None None None UINT32_MAX None None (ins_stack cbt)
      false 0 0 0 0 0 (mkBuf EmptyString 0) false false false;
  WT_ILLEGAL_FORMAT := 22
|}.

Definition unpack_garbage : WT_CELL_UNPACK := mkUnpack WT_CELL_OTHER 0 EmptyString.

(** The fixed-length page of the spec's scenario: base record 100, four
    entries, and an insert list with one node for record 102. *)
Definition fix_page (u : WT_UPDATE) : COL_FIX :=
  mkColFix 100 [65; 66; 67; 68]
    (Some [Some (mkHead [Some 0%nat; None; None])])
    [ mkIns 102 u [None] ].

(** A variable-length page, base record 100, with one cell of value [V]
    repeated [rle] times and an insert list on its slot with one node:
    record 100, updated to [U]. *)
Definition var_page (rle : Z) : COL_VAR :=
  mkColVar 100 [Some (mkCell (mkUnpack WT_CELL_VALUE rle "V"))]
    (Some [Some (mkHead [Some 0%nat; None; None])])
    [ mkIns 100 (live "U") [None] ].

(** The same cell without an insert list. *)
Definition var_page_plain (rle : Z) : COL_VAR :=
  mkColVar 100 [Some (mkCell (mkUnpack WT_CELL_VALUE rle "V"))] None [].

(** Two cells: a value and, after it, a run of five deleted records. *)
Definition var_page_deleted : COL_VAR :=
  mkColVar 100
    [ Some (mkCell (mkUnpack WT_CELL_VALUE 1 "V"));
      Some (mkCell (mkUnpack WT_CELL_DEL 5 EmptyString)) ]
    None [].

(** The record a call left in the cursor: return code, record number,
    value. *)
Definition returned (r : outcome (ret_code * WT_CURSOR_BTREE))
    : outcome (ret_code * Z * string) :=
  '(ret, cbt) <- r ;;
  Done (ret, cur_recno (iface cbt), buf_data (cur_value (iface cbt))).

(** [last ()] and then [n] times [prev ()], each on the cursor the call
    before it left; the results of all calls, in order. *)
Fixpoint prev_times `{BtreeEnv} (n : nat) (cbt : WT_CURSOR_BTREE)
    : list (outcome (ret_code * Z * string)) :=
  match n with
  | O => []
  | S n' =>
      let r := __wt_btcur_prev 20 cbt unpack_garbage in
      returned r ::
      match r with
      | Done (_, cbt') => prev_times n' cbt'
      | _ => []
      end
  end.

(** The same with the key the cursor shows, for the row store. *)
Fixpoint prev_keys `{BtreeEnv} (n : nat) (cbt : WT_CURSOR_BTREE)
    : list (ret_code * string * string) :=
  match n with
  | O => []
  | S n' =>
      match __wt_btcur_prev 20 cbt unpack_garbage with
      | Done (ret, cbt') =>
          (ret, buf_data (cur_key (iface cbt')), buf_data (cur_value (iface cbt')))
          :: prev_keys n' cbt'
      | _ => []
      end
  end.

Definition last_then_prev `{BtreeEnv} (n : nat) (cbt : WT_CURSOR_BTREE)
    : list (outcome (ret_code * Z * string)) :=
  let r := __wt_btcur_last 20 cbt unpack_garbage in
  returned r ::
  match r with
  | Done (_, cbt') => prev_times n cbt'
  | _ => []
  end.

(** The demo tree on a store that fails to read pages. *)
Definition io_error_env : BtreeEnv := {|
  WT_SKIP_MAXDEPTH := 3;
  btree_compare := lex_compare;
  __wt_row_key := fun cell => (RET_OK, unpack_data (cell_unpacked cell));
  __wt_page_in := fun _ => WT_ERROR 5;
  __wt_cell_unpack_copy := fun u => (RET_OK, mkBuf (unpack_data u) (Z.of_nat (String.length (unpack_data u))));
  __wt_cell_copy := fun cell =>
    (RET_OK, mkBuf (unpack_data (cell_unpacked cell))
                   (Z.of_nat (String.length (unpack_data (cell_unpacked cell)))));
  __wt_buf_set := fun s n => (RET_OK, mkBuf s n);
  __wt_xxx_np := fun _ => (WT_ERROR 5, None);
  __wt_btcur_search_setup := fun cbt => (RET_OK, cbt);
  __wt_cursor_clear := fun cbt => cbt;
  WT_ILLEGAL_FORMAT := 22
|}.

(** An insert list with towers: [c], [e], [g] on level 0 and [c], [g] on
    level 1. *)
Definition tower_store : list (WT_INSERT WT_ITEM) :=
  [ mkIns "c" (live "C") [Some 1%nat; Some 2%nat];
    mkIns "e" (live "E") [Some 2%nat];
    mkIns "g" (live "G") [None; None] ].
Definition tower_head : WT_INSERT_HEAD := mkHead [Some 0%nat; Some 0%nat; None].

(** The leaf in front of the demo leaf: the one slot [a]. *)
Definition first_leaf : ROW_LEAF :=
  mkRowLeaf [mkRow (KeyOffPage "a") None] None None [] 1.

(** A tree whose walk from the end is the root, the demo leaf and the
    leaf of [a]. *)
Definition walk_env : BtreeEnv := {|
  WT_SKIP_MAXDEPTH := 3;
  btree_compare := lex_compare;
  __wt_row_key := fun cell => (RET_OK, unpack_data (cell_unpacked cell));
  __wt_page_in := fun _ => RET_OK;
  __wt_cell_unpack_copy := fun u => (RET_OK, mkBuf (unpack_data u) (Z.of_nat (String.length (unpack_data u))));
  __wt_cell_copy := fun cell =>
    (RET_OK, mkBuf (unpack_data (cell_unpacked cell))
                   (Z.of_nat (String.length (unpack_data (cell_unpacked cell)))));
  __wt_buf_set := fun s n => (RET_OK, mkBuf s n);
  __wt_xxx_np := fun cur =>
    match cur with
    | None => (RET_OK, Some demo_root)
    | Some (WT_PAGE_ROW_INT _) => (RET_OK, Some (WT_PAGE_ROW_LEAF demo_leaf))
    | Some (WT_PAGE_ROW_LEAF l) =>
        if (len (row_leaf_d l) =? 3)%Z then (RET_OK, Some (WT_PAGE_ROW_LEAF first_leaf))
        else (RET_OK, None)
    | Some _ => (RET_OK, None)
    end;
  __wt_btcur_search_setup := fun cbt => (RET_OK, cbt);
  __wt_cursor_clear := fun cbt => cbt;
  WT_ILLEGAL_FORMAT := 22
|}.

(** Three cells: [V], a run of five deleted records, [W].  By the data
    model the page holds the records 100 ([V]), 101 to 105 (deleted) and
    106 ([W]). *)
Definition var_page_gap : COL_VAR :=
  mkColVar 100
    [ Some (mkCell (mkUnpack WT_CELL_VALUE 1 "V"));
      Some (mkCell (mkUnpack WT_CELL_DEL 5 EmptyString));
      Some (mkCell (mkUnpack WT_CELL_VALUE 1 "W")) ]
    None [].

(** A row leaf without slots, insert lists and updates: the one page of
    an empty tree. *)
Definition empty_leaf : ROW_LEAF := mkRowLeaf [] None None [] 0.

Local Close Scope string_scope.

(** * Properties *)

(** ** Arrays *)

Lemma array_get_Some {A : Type} (l : list A) (i : Z) (x : A) :
  array_get l i = Some x <-> 0 <= i /\ nth_error l (Z.to_nat i) = Some x.
Proof.
  unfold array_get. destruct (Z.ltb_spec i 0); split.
  - discriminate.
  - intros [Hi _]. lia.
  - auto.
  - tauto.
Qed.

Lemma array_get_in_range {A : Type} (l : list A) (i : Z) :
  0 <= i < len l -> exists x, array_get l i = Some x.
Proof.
  intros Hi. unfold array_get, len in *.
  destruct (Z.ltb_spec i 0); [lia|].
  destruct (nth_error l (Z.to_nat i)) eqn:E; [eauto|].
  apply nth_error_None in E. lia.
Qed.

Lemma array_get_lt {A : Type} (l : list A) (i : Z) (x : A) :
  array_get l i = Some x -> 0 <= i < len l.
Proof.
  intros E. apply array_get_Some in E. destruct E as [Hi E].
  assert (Hn : nth_error l (Z.to_nat i) <> None) by congruence.
  apply nth_error_Some in Hn. unfold len. lia.
Qed.

(** ** The skip-list search *)

Section SkipListProps.
Context `{BtreeEnv}.

Lemma links_ok_nth {K : Type} (store : list (WT_INSERT K)) lo l :
  forall i0 j q,
    links_ok store lo i0 l = true ->
    nth_error l j = Some (Some q) ->
    (lo <= q)%nat /\
    exists n, nth_error store q = Some n /\ (i0 + j < length (ins_next n))%nat.
Proof.
  induction l as [|t l IH]; intros i0 j q Hok Hj.
  - destruct j; discriminate.
  - simpl in Hok. apply andb_true_iff in Hok. destruct Hok as [Ht Hl].
    destruct j as [|j]; simpl in Hj.
    + injection Hj as ->. unfold link_ok in Ht.
      apply andb_true_iff in Ht. destruct Ht as [Hlo Hn].
      apply Nat.leb_le in Hlo. split; [exact Hlo|].
      destruct (nth_error store q) as [n|]; [|discriminate].
      exists n. split; [reflexivity|]. apply Nat.ltb_lt in Hn. lia.
    + destruct (IH (S i0) j q Hl Hj) as [Hlo [n [Hn Hlen]]].
      split; [exact Hlo|]. exists n. split; [exact Hn|]. lia.
Qed.

Lemma nodes_ok_nth {K : Type} (store : list (WT_INSERT K)) ns :
  forall p0 j n,
    nodes_ok store p0 ns = true ->
    nth_error ns j = Some n ->
    links_ok store (S (p0 + j)) 0 (ins_next n) = true.
Proof.
  induction ns as [|m ns IH]; intros p0 j n Hok Hj.
  - destruct j; discriminate.
  - simpl in Hok. apply andb_true_iff in Hok. destruct Hok as [Hm Hns].
    destruct j as [|j]; simpl in Hj.
    + injection Hj as ->. rewrite Nat.add_0_r. exact Hm.
    + specialize (IH (S p0) j n Hns Hj).
      replace (S (p0 + S j)) with (S (S p0 + j)) by lia. exact IH.
Qed.

Lemma slot_ok_dec store h s i :
  slot_ok store h s i -> slot_ok store h (ins_slot_dec s) (i - 1).
Proof.
  destruct s as [j|p j]; simpl.
  - intros [-> Hi]. split; [reflexivity|lia].
  - intros [-> [n [Hn Hi]]]. split; [reflexivity|]. exists n. split; [exact Hn|lia].
Qed.

Lemma slot_rank_dec store s : slot_rank store (ins_slot_dec s) = slot_rank store s.
Proof. destruct s; reflexivity. Qed.

Lemma slot_ok_deref store h s i :
  0 <= i -> slot_ok store h s i ->
  exists tgt, ins_slot_deref store h s = Some tgt /\
              match s with
              | HeadSlot _ => nth_error (head h) (Z.to_nat i) = Some tgt
              | NextSlot p _ =>
                  exists n, nth_error store p = Some n /\
                            nth_error (ins_next n) (Z.to_nat i) = Some tgt
              end.
Proof.
  intros Hi. destruct s as [j|p j]; simpl.
  - intros [-> Hlt]. destruct (array_get_in_range (head h) i) as [x Hx]; [lia|].
    exists x. split; [exact Hx|]. apply array_get_Some in Hx. tauto.
  - intros [-> [n [Hn Hlt]]]. rewrite Hn.
    destruct (array_get_in_range (ins_next n) i) as [x Hx]; [lia|].
    exists x. split; [exact Hx|]. exists n. split; [reflexivity|].
    apply array_get_Some in Hx. tauto.
Qed.

(** On a well-formed list the loop ends, in a result, within
    [slot_rank + i + 1] turns. *)
Lemma search_insert_loop_total store h key :
  skiplist_wf store h = true ->
  forall fuel i s stack,
    (i < 0 \/
     (slot_ok store h s i /\ (slot_rank store s + Z.to_nat (i + 1) <= fuel)%nat)) ->
    exists r stack', search_insert_loop fuel store h key i s stack = Done (r, stack').
Proof.
  intros Hwf. unfold skiplist_wf in Hwf.
  apply andb_true_iff in Hwf. destruct Hwf as [Hwf Hnodes].
  apply andb_true_iff in Hwf. destruct Hwf as [_ Hhead].
  induction fuel as [|fuel IH]; intros i s stack Hs.
  - simpl. destruct (Z.ltb_spec i 0) as [Hi|Hi]; [eauto|].
    exfalso. destruct Hs as [Hs|[Hs Hfuel]]; [lia|].
    assert (1 <= Z.to_nat (i + 1))%nat by lia. lia.
  - simpl. destruct (Z.ltb_spec i 0) as [Hi|Hi]; [eauto|].
    destruct Hs as [Hs|[Hs Hfuel]]; [lia|].
    destruct (slot_ok_deref store h s i Hi Hs) as [tgt [Hd Htgt]].
    rewrite Hd.
    assert (Hdrop : exists r stack',
               search_insert_loop fuel store h key (i - 1) (ins_slot_dec s)
                 (array_set stack i (Some s)) = Done (r, stack')).
    { apply IH. right. split.
      - apply slot_ok_dec. exact Hs.
      - rewrite slot_rank_dec. replace (i - 1 + 1) with i by lia.
        replace (Z.to_nat (i + 1)) with (S (Z.to_nat i)) in Hfuel by lia. lia. }
    destruct tgt as [q|]; [|exact Hdrop].
    assert (Hq : (slot_rank store (NextSlot q i) < slot_rank store s)%nat /\
                 exists n, nth_error store q = Some n /\ i < len (ins_next n)).
    { destruct s as [j|p j]; simpl in Htgt |- *.
      - destruct (links_ok_nth store 0 (head h) 0 (Z.to_nat i) q Hhead Htgt)
          as [_ [n [Hn Hlen]]].
        split.
        + assert (Hne : nth_error store q <> None) by congruence.
          apply nth_error_Some in Hne. lia.
        + exists n. split; [exact Hn|]. unfold len. lia.
      - destruct Htgt as [m [Hm Hnext]].
        pose proof (nodes_ok_nth store store 0 p m Hnodes Hm) as Hlinks.
        destruct (links_ok_nth store (S (0 + p)) (ins_next m) 0 (Z.to_nat i) q Hlinks Hnext)
          as [Hlo [n [Hn Hlen]]].
        split.
        + assert (Hne : nth_error store q <> None) by congruence.
          apply nth_error_Some in Hne. lia.
        + exists n. split; [exact Hn|]. unfold len. lia. }
    destruct Hq as [Hrank [n [Hn Hlen]]]. rewrite Hn.
    destruct (btree_compare key (ins_key n) =? 0); [eauto|].
    destruct (btree_compare key (ins_key n) >? 0); [|exact Hdrop].
    apply IH. right. split.
    + simpl. split; [reflexivity|]. exists n. split; [exact Hn|exact Hlen].
    + lia.
Qed.

(** A node the loop returns has a key that compares equal to [key]. *)
Lemma search_insert_loop_sound store h key :
  forall fuel i s stack p stack',
    search_insert_loop fuel store h key i s stack = Done (Some p, stack') ->
    exists n, nth_error store p = Some n /\ btree_compare key (ins_key n) = 0.
Proof.
  induction fuel as [|fuel IH]; intros i s stack p stack'; simpl.
  - destruct (i <? 0); discriminate.
  - destruct (i <? 0); [discriminate|].
    destruct (ins_slot_deref store h s) as [[q|]|]; [|apply IH|discriminate].
    destruct (nth_error store q) as [n|] eqn:Hn; [|discriminate].
    destruct (Z.eqb_spec (btree_compare key (ins_key n)) 0) as [Hc|Hc].
    + intros E. injection E as -> _. eauto.
    + destruct (btree_compare key (ins_key n) >? 0); apply IH.
Qed.

End SkipListProps.

(** ** The descent through internal pages *)

Ltac zdiv := Z.div_mod_to_equations; lia.

Lemma shiftr_1 (x : Z) : Z.shiftr x 1 = x / 2.
Proof. rewrite Z.shiftr_div_pow2 by lia. reflexivity. Qed.

Lemma u32_small (x : Z) : 0 <= x <= UINT32_MAX -> u32 x = x.
Proof. unfold u32, UINT32_MAX. intros. apply Z.mod_small. lia. Qed.

Lemma cmp_monotone_head (cs : list Z) :
  forall a, cmp_monotone (a :: cs) = true -> a <= 0 ->
  forall j b, nth_error cs j = Some b -> b < 0.
Proof.
  induction cs as [|c cs IH]; intros a Hm Ha j b Hj.
  - destruct j; discriminate.
  - simpl in Hm. apply andb_true_iff in Hm. destruct Hm as [Hc Hm].
    destruct (Z.leb_spec a 0); [|lia]. apply Z.ltb_lt in Hc.
    destruct j as [|j]; simpl in Hj.
    + injection Hj as <-. exact Hc.
    + apply (IH c Hm ltac:(lia) j b Hj).
Qed.

Lemma cmp_monotone_nth (cs : list Z) :
  cmp_monotone cs = true ->
  forall i j a b, (i < j)%nat ->
    nth_error cs i = Some a -> nth_error cs j = Some b -> a <= 0 -> b < 0.
Proof.
  induction cs as [|c cs IH]; intros Hm i j a b Hij Hi Hj Ha.
  - destruct i; discriminate.
  - destruct j as [|j]; [lia|]. simpl in Hj.
    destruct i as [|i]; simpl in Hi.
    + injection Hi as <-. apply (cmp_monotone_head cs c Hm Ha j b Hj).
    + assert (Hm' : cmp_monotone cs = true).
      { destruct cs as [|d cs]; [reflexivity|].
        simpl in Hm. apply andb_true_iff in Hm. tauto. }
      apply (IH Hm' i j a b ltac:(lia) Hi Hj Ha).
Qed.

Section RowIntProps.
Context `{BtreeEnv}.
Variable t : list WT_ROW_REF.
Variable key : WT_ITEM.

Lemma int_page_sorted_for_spec : int_page_sorted_for key t = true -> sorted_for t key.
Proof.
  unfold int_page_sorted_for, sorted_for. intros Hm i j ri rj Hij Hi Hj Hc.
  apply array_get_Some in Hi. apply array_get_Some in Hj.
  destruct Hi as [_ Hi]. destruct Hj as [_ Hj].
  destruct t as [|r0 t']; [destruct (Z.to_nat i); discriminate|].
  simpl in Hm.
  replace (Z.to_nat i) with (S (Z.to_nat (i - 1))) in Hi by lia.
  replace (Z.to_nat j) with (S (Z.to_nat (j - 1))) in Hj by lia.
  simpl in Hi, Hj.
  apply (cmp_monotone_nth _ Hm (Z.to_nat (i - 1)) (Z.to_nat (j - 1))
           (btree_compare key (rref_key ri)) (btree_compare key (rref_key rj))).
  - lia.
  - rewrite nth_error_map, Hi. reflexivity.
  - rewrite nth_error_map, Hj. reflexivity.
  - exact Hc.
Qed.

(** The binary search of an internal page ends; the entry it leaves for
    the step down is on the page and, on a sorted page, no entry up to it
    compares greater than [key] and every entry after it does. *)
Lemma row_int_bsearch_correct :
  len t <= UINT32_MAX ->
  forall fuel base limit cmp rref,
    0 <= base -> 0 <= limit -> base + limit <= len t ->
    (Z.to_nat limit <= fuel)%nat ->
    (1 <= limit \/
     (1 <= base /\ exists i, rref = Some i /\ 0 <= i < len t /\ (cmp = 0 -> i = base - 1))) ->
    (sorted_for t key -> below_ok t key base /\ above_ok t key (base + limit)) ->
    exists cmp' base' i,
      row_int_bsearch fuel t key base limit cmp rref = Done (cmp', base', Some i) /\
      (cmp' <> 0 -> 1 <= base' <= len t) /\
      let c := if cmp' =? 0 then i else base' - 1 in
      0 <= c < len t /\
      (sorted_for t key -> below_ok t key (c + 1) /\ above_ok t key (c + 1)).
Proof.
  intros Hn. induction fuel as [|fuel IH];
    intros base limit cmp rref Hb Hl Hbl Hfuel HJ Hinv.
  - assert (limit = 0) by lia. subst limit. simpl.
    destruct HJ as [HJ|[Hb1 [i [-> [Hi Hstale]]]]]; [lia|].
    exists cmp, base, i. split; [reflexivity|]. split; [lia|].
    assert (Hc : (if cmp =? 0 then i else base - 1) = base - 1).
    { destruct (Z.eqb_spec cmp 0); [auto|reflexivity]. }
    cbv zeta. rewrite Hc. split; [lia|].
    intros Hs. replace (base - 1 + 1) with base by lia.
    replace (base + 0) with base in Hinv by lia. auto.
  - cbn [row_int_bsearch]. destruct (Z.eqb_spec limit 0) as [Hl0|Hl0].
    + subst limit.
      destruct HJ as [HJ|[Hb1 [i [-> [Hi Hstale]]]]]; [lia|].
      exists cmp, base, i. split; [reflexivity|]. split; [lia|].
      assert (Hc : (if cmp =? 0 then i else base - 1) = base - 1).
      { destruct (Z.eqb_spec cmp 0); [auto|reflexivity]. }
      cbv zeta. rewrite Hc. split; [lia|].
      intros Hs. replace (base - 1 + 1) with base by lia.
      replace (base + 0) with base in Hinv by lia. auto.
    + rewrite !shiftr_1.
      assert (Hix : u32 (base + limit / 2) = base + limit / 2).
      { apply u32_small. zdiv. }
      rewrite Hix. set (indx := base + limit / 2) in *.
      assert (Hindx : base <= indx < base + limit) by (unfold indx; zdiv).
      assert (Hix1 : u32 (indx + 1) = indx + 1) by (apply u32_small; lia).
      assert (Hl1 : u32 (limit - 1) = limit - 1) by (apply u32_small; lia).
      rewrite Hix1, Hl1.
      assert (Hhi : indx + 1 + (limit - 1) / 2 = base + limit) by (unfold indx; zdiv).
      destruct (Z.eqb_spec indx 0) as [Hz|Hnz]; cbn [negb].
      * (* the 0th entry: no comparison *)
        apply IH; [lia | zdiv | lia | zdiv | | ].
        -- right. split; [lia|]. exists indx. repeat split; lia.
        -- intros Hs. rewrite Hhi. destruct (Hinv Hs) as [_ Ha]. split; [|exact Ha].
           intros j r Hj. lia.
      * destruct (array_get_in_range t indx) as [r Hr]; [lia|]. rewrite Hr.
        destruct (Z.eqb_spec (btree_compare key (rref_key r)) 0) as [Hc|Hc].
        -- (* exact match: break *)
           exists (btree_compare key (rref_key r)), base, indx.
           split; [reflexivity|]. split; [lia|]. cbv zeta. rewrite Hc. cbn [Z.eqb].
           split; [lia|]. intros Hs. destruct (Hinv Hs) as [Hlo Hup]. split.
           ++ intros j r' Hj Hr'. destruct (Z.eq_dec j indx) as [->|Hne].
              ** rewrite Hr in Hr'. injection Hr' as <-. lia.
              ** destruct (Z.lt_ge_cases (btree_compare key (rref_key r')) 0) as [Hlt|Hge];
                   [|lia].
                 pose proof (Hs j indx r' r ltac:(lia) Hr' Hr ltac:(lia)). lia.
           ++ intros j r' Hj Hr'. apply (Hs indx j r r' ltac:(lia) Hr Hr'). lia.
        -- destruct (Z.ltb_spec (btree_compare key (rref_key r)) 0) as [Hlt|Hge].
           ++ (* the entry is greater: go on in the lower half *)
              apply IH; [lia | zdiv | fold indx; lia | zdiv | | ].
              ** destruct (Z.eq_dec (limit / 2) 0) as [Hz|Hz]; [|left; zdiv].
                 right. split; [unfold indx in Hnz; lia|].
                 exists indx. repeat split; lia.
              ** intros Hs. destruct (Hinv Hs) as [Hlo Hup]. split; [exact Hlo|].
                 fold indx. intros j r' Hj Hr'.
                 destruct (Z.eq_dec j indx) as [->|Hne].
                 --- rewrite Hr in Hr'. injection Hr' as <-. exact Hlt.
                 --- apply (Hs indx j r r' ltac:(lia) Hr Hr'). lia.
           ++ (* the entry is smaller: go on in the upper half *)
              apply IH; [lia | zdiv | lia | zdiv | | ].
              ** destruct (Z.eq_dec ((limit - 1) / 2) 0) as [Hz|Hz]; [|left; zdiv].
                 right. split; [lia|]. exists indx. repeat split; lia.
              ** intros Hs. rewrite Hhi. destruct (Hinv Hs) as [Hlo Hup].
                 split; [|exact Hup]. intros j r' Hj Hr'.
                 destruct (Z.eq_dec j indx) as [->|Hne].
                 --- rewrite Hr in Hr'. injection Hr' as <-. lia.
                 --- destruct (Z.lt_ge_cases (btree_compare key (rref_key r')) 0)
                       as [Hlt'|Hge']; [|lia].
                     pose proof (Hs j indx r' r ltac:(lia) Hr' Hr ltac:(lia)). lia.
Qed.

End RowIntProps.

(** ** Sorted pages *)

(** With a comparator of a total order, the routing keys of a sorted
    page are in order as every search key sees them. *)
Lemma sorted_page_sorted_for `{BtreeEnv} (t : list WT_ROW_REF) (key : WT_ITEM) :
  (forall k a b, btree_compare k a <= 0 -> btree_compare a b < 0 -> btree_compare k b < 0) ->
  keys_sorted (map rref_key (tl t)) ->
  int_page_sorted_for key t = true.
Proof.
  intros Htrans. unfold int_page_sorted_for.
  generalize (tl t) as rs. induction rs as [|r rs IH]; [reflexivity|].
  destruct rs as [|r' rs]; [reflexivity|].
  intros [Hlt Hrest]. cbn [map cmp_monotone]. apply andb_true_iff. split.
  - destruct (Z.leb_spec (btree_compare key (rref_key r)) 0) as [Hle|_]; [|reflexivity].
    apply Z.ltb_lt. apply (Htrans key (rref_key r) (rref_key r') Hle Hlt).
  - apply IH. exact Hrest.
Qed.

(** ** One internal page *)

Section RowIntStep.
Context `{BtreeEnv}.

Lemma pick_nth {X : Type} (f : WT_ROW_REF -> outcome X) :
  forall l n,
    (fix pick (l : list WT_ROW_REF) (n : nat) {struct l} : outcome X :=
       match l with
       | [] => Abort InvalidAccess
       | r :: l' => match n with O => f r | S n' => pick l' n' end
       end) l n
    = match nth_error l n with
      | Some r => f r
      | None => Abort InvalidAccess
      end.
Proof.
  induction l as [|r l IH]; intros n; destruct n; try reflexivity. apply IH.
Qed.

Lemma row_descend_int t key cmp :
  row_descend (WT_PAGE_ROW_INT t) key cmp =
  ('(cmp', chosen) <- row_int_step t key cmp ;;
   match nth_error t (Z.to_nat chosen) with
   | Some r => step_down t key cmp' r
   | None => Abort InvalidAccess
   end).
Proof.
  cbn [row_descend]. destruct (row_int_step t key cmp) as [[cmp' chosen]| |];
    try reflexivity.
  cbn [bind]. unfold step_down.
  exact (pick_nth (fun r => match __wt_page_in r with
                            | RET_OK => row_descend (WT_ROW_REF_PAGE r) key cmp'
                            | ret => Done (ret, WT_PAGE_ROW_INT t, cmp')
                            end) t (Z.to_nat chosen)).
Qed.

Lemma row_int_step_empty t key cmp :
  len t = 0 -> row_int_step t key cmp = Abort AssertFailed.
Proof.
  destruct t; [reflexivity|]. unfold len. simpl length. lia.
Qed.

Lemma row_int_step_ok t key cmp :
  len t <= UINT32_MAX -> 1 <= len t ->
  exists cmp' c r,
    row_int_step t key cmp = Done (cmp', c) /\
    array_get t c = Some r /\
    0 <= c < len t /\
    (sorted_for t key -> below_ok t key (c + 1) /\ above_ok t key (c + 1)).
Proof.
  intros Hmax Hne.
  destruct (row_int_bsearch_correct t key Hmax (Z.to_nat (len t)) 0 (len t) cmp None)
    as [cmp' [base' [i [E [Hbase [Hc Hs]]]]]]; try lia.
  - intros _. split.
    + intros j r Hj. lia.
    + intros j r Hj Hr. apply array_get_lt in Hr. lia.
  - unfold row_int_step. rewrite E. cbn [bind].
    destruct (Z.eqb_spec cmp' 0) as [Hz|Hnz]; cbn [negb].
    + destruct (array_get_in_range t i Hc) as [r Hr].
      exists cmp', i, r. repeat split; try lia; try assumption; apply Hs; assumption.
    + rewrite u32_small by (specialize (Hbase Hnz); lia).
      destruct (array_get_in_range t (base' - 1) Hc) as [r Hr].
      exists cmp', (base' - 1), r.
      repeat split; try lia; try assumption; apply Hs; assumption.
Qed.

End RowIntStep.

(** ** The leaf page *)

Section RowLeafProps.
Context `{BtreeEnv}.

(** The binary search of the leaf ends; if it ends with [cmp == 0], the
    slot [rip] points to holds a key equal to the search key. *)
Lemma row_leaf_bsearch_ok (d : list WT_ROW) (key : WT_ITEM) :
  len d <= UINT32_MAX ->
  forall fuel base limit cmp rip,
    0 <= base -> 0 <= limit -> base + limit <= len d ->
    (Z.to_nat limit <= fuel)%nat ->
    (1 <= limit \/ cmp <> 0 \/ exists i, rip = Some i /\ slot_matches d key i) ->
    exists ret cmp' base' rip',
      row_leaf_bsearch fuel d key base limit cmp rip = Done (ret, (cmp', base', rip')) /\
      base <= base' <= base + limit /\
      (ret = RET_OK -> cmp' = 0 -> exists i, rip' = Some i /\ slot_matches d key i).
Proof.
  intros Hmax. induction fuel as [|fuel IH];
    intros base limit cmp rip Hb Hl Hbl Hfuel HJ.
  - assert (limit = 0) by lia. subst limit. simpl.
    exists RET_OK, cmp, base, rip. split; [reflexivity|]. split; [lia|].
    intros _ Hz. destruct HJ as [HJ|[HJ|HJ]]; [lia|contradiction|exact HJ].
  - cbn [row_leaf_bsearch]. destruct (Z.eqb_spec limit 0) as [Hl0|Hl0].
    + subst limit. exists RET_OK, cmp, base, rip. split; [reflexivity|]. split; [lia|].
      intros _ Hz. destruct HJ as [HJ|[HJ|HJ]]; [lia|contradiction|exact HJ].
    + rewrite !shiftr_1.
      assert (Hix : u32 (base + limit / 2) = base + limit / 2).
      { apply u32_small. zdiv. }
      rewrite Hix. set (indx := base + limit / 2) in *.
      assert (Hindx : base <= indx < base + limit) by (unfold indx; zdiv).
      assert (Hix1 : u32 (indx + 1) = indx + 1) by (apply u32_small; lia).
      assert (Hl1 : u32 (limit - 1) = limit - 1) by (apply u32_small; lia).
      rewrite Hix1, Hl1.
      assert (Hhi : indx + 1 + (limit - 1) / 2 = base + limit) by (unfold indx; zdiv).
      destruct (array_get_in_range d indx) as [row Hrow]; [lia|]. rewrite Hrow.
      destruct (row_slot_key row) as [ret item] eqn:Hk.
      destruct ret as [| |code].
      * destruct (Z.eqb_spec (btree_compare key item) 0) as [Hc|Hc].
        -- exists RET_OK, (btree_compare key item), base, (Some indx).
           split; [reflexivity|]. split; [lia|]. intros _ _.
           exists indx. split; [reflexivity|]. exists row, item. auto.
        -- destruct (Z.ltb_spec (btree_compare key item) 0) as [Hlt|Hge].
           ++ destruct (IH base (limit / 2) (btree_compare key item) (Some indx))
                as [ret [cmp' [base' [rip' [E [Hr Hm]]]]]];
                [lia | zdiv | fold indx; lia | zdiv | right; left; exact Hc |].
              exists ret, cmp', base', rip'. split; [exact E|]. split; [zdiv|exact Hm].
           ++ destruct (IH (indx + 1) ((limit - 1) / 2) (btree_compare key item) (Some indx))
                as [ret [cmp' [base' [rip' [E [Hr Hm]]]]]];
                [lia | zdiv | lia | zdiv | right; left; exact Hc |].
              exists ret, cmp', base', rip'. split; [exact E|]. split; [lia|exact Hm].
      * exists WT_NOTFOUND, cmp, base, (Some indx). split; [reflexivity|].
        split; [lia|]. discriminate.
      * exists (WT_ERROR code), cmp, base, (Some indx). split; [reflexivity|].
        split; [lia|]. discriminate.
Qed.

Lemma wt_row_search_leaf root cbt is_modify l cmp0 :
  row_descend root (buf_data (cur_key (iface cbt))) (-1)
  = Done (RET_OK, WT_PAGE_ROW_LEAF l, cmp0) ->
  __wt_row_search root cbt is_modify
  = row_search_leaf (__search_reset cbt) (WT_PAGE_ROW_LEAF l)
      (buf_data (cur_key (iface cbt))) cmp0 is_modify.
Proof.
  intros E. unfold __wt_row_search. rewrite E. reflexivity.
Qed.

(** The search after an exact match in the slot array. *)
Lemma row_search_leaf_exact cbt l key cmp0 is_modify base indx :
  row_leaf_bsearch (Z.to_nat (len (row_leaf_d l))) (row_leaf_d l) key
    0 (len (row_leaf_d l)) cmp0 None = Done (RET_OK, (0, base, Some indx)) ->
  row_search_leaf (__search_reset cbt) (WT_PAGE_ROW_LEAF l) key cmp0 is_modify
  = Done (RET_OK,
          set_match (set_slot (set_rip (leaf_cursor cbt l is_modify) (Some indx)) indx) true).
Proof.
  intros E. unfold row_search_leaf. rewrite E. reflexivity.
Qed.

(** The search after the slot array gave no match. *)
Lemma row_search_leaf_miss cbt l key cmp0 is_modify cmp base rip :
  row_leaf_bsearch (Z.to_nat (len (row_leaf_d l))) (row_leaf_d l) key
    0 (len (row_leaf_d l)) cmp0 None = Done (RET_OK, (cmp, base, rip)) ->
  cmp <> 0 ->
  0 <= base <= len (row_leaf_d l) -> len (row_leaf_d l) <= UINT32_MAX ->
  row_search_leaf (__search_reset cbt) (WT_PAGE_ROW_LEAF l) key cmp0 is_modify
  = (h <- (if base =? 0 then WT_ROW_INSERT_SMALLEST l
           else WT_ROW_INSERT_SLOT l (base - 1)) ;;
     '(found, c2) <-
        __search_insert
          (set_slot
             (set_ins_head
                (set_rip (leaf_cursor cbt l is_modify) (Some (if base =? 0 then 0 else base - 1)))
                h)
             (if base =? 0 then len (row_leaf_d l) else base - 1))
          (row_leaf_store l) h key ;;
     Done (RET_OK, set_match (set_ins c2 found) (is_some found))).
Proof.
  intros E Hc Hb Hmax. unfold row_search_leaf. rewrite E. cbn [bind ret_is_ok negb].
  destruct (Z.eqb_spec cmp 0) as [Hz|_]; [contradiction|].
  unfold row_search_insert_list, leaf_cursor.
  destruct (Z.eqb_spec base 0) as [Hb0|Hb0]; cbn [negb].
  - destruct (WT_ROW_INSERT_SMALLEST l) as [h| |]; reflexivity.
  - rewrite u32_small by lia.
    destruct (WT_ROW_INSERT_SLOT l (base - 1)) as [h| |]; reflexivity.
Qed.

End RowLeafProps.

(** ** The choice of the child on an internal page *)

(** C6: an internal page without routing entries ends the search in the
    assertion; on a page with at least one entry the assertion holds and
    an entry of the page is chosen for the step down. *)
Theorem row_int_entries_assert `{BtreeEnv} :
  forall (t : list WT_ROW_REF) (key : WT_ITEM) (cmp : Z),
    len t <= UINT32_MAX ->
    (len t = 0 ->
     row_int_step t key cmp = Abort AssertFailed /\
     row_descend (WT_PAGE_ROW_INT t) key cmp = Abort AssertFailed) /\
    (1 <= len t ->
     exists cmp' c r,
       row_int_step t key cmp = Done (cmp', c) /\
       array_get t c = Some r /\
       row_descend (WT_PAGE_ROW_INT t) key cmp = step_down t key cmp' r).
Proof.
  intros t key cmp Hmax. split.
  - intros Hz. rewrite row_descend_int, (row_int_step_empty t key cmp Hz).
    split; reflexivity.
  - intros Hne.
    destruct (row_int_step_ok t key cmp Hmax Hne) as [cmp' [c [r [E [Hr [Hc _]]]]]].
    exists cmp', c, r. split; [exact E|]. split; [exact Hr|].
    rewrite row_descend_int, E. cbn [bind].
    apply array_get_Some in Hr. destruct Hr as [_ Hr]. rewrite Hr. reflexivity.
Qed.

(** The root of the demo tree has two entries: one of them is chosen. *)
Lemma row_int_entries_assert_witness :
  exists cmp' c r,
    row_int_step demo_routes "c"%string (-1) = Done (cmp', c) /\
    array_get demo_routes c = Some r /\
    row_descend demo_root "c"%string (-1) = step_down demo_routes "c"%string cmp' r.
Proof.
  destruct (row_int_entries_assert demo_routes "c"%string (-1)) as [_ Hsome].
  - vm_compute. discriminate.
  - apply Hsome. vm_compute. discriminate.
Defined.

(** C5: on an internal page with sorted routing keys the entry chosen for
    the step down is the one just before the smallest entry that compares
    greater than the search key, or the last entry if none does; the 0th
    entry never counts as greater, so a key below all routing keys goes
    down through entry 0. *)
Theorem row_int_child_choice `{BtreeEnv} :
  forall (t : list WT_ROW_REF) (key : WT_ITEM) (cmp : Z),
    len t <= UINT32_MAX ->
    1 <= len t ->
    int_page_sorted_for key t = true ->
    exists cmp' c r,
      row_int_step t key cmp = Done (cmp', c) /\
      array_get t c = Some r /\
      row_descend (WT_PAGE_ROW_INT t) key cmp = step_down t key cmp' r /\
      (forall j, 0 <= j <= c -> ~ entry_greater t key j) /\
      (c = len t - 1 \/ entry_greater t key (c + 1)) /\
      ((forall j, 1 <= j < len t -> entry_greater t key j) -> c = 0).
Proof.
  intros t key cmp Hmax Hne Hsorted.
  destruct (row_int_step_ok t key cmp Hmax Hne) as [cmp' [c [r [E [Hr [Hc Hs]]]]]].
  destruct (Hs (int_page_sorted_for_spec t key Hsorted)) as [Hlo Hup].
  assert (Hnot : forall j, 0 <= j <= c -> ~ entry_greater t key j).
  { intros j Hj [Hj0 [r' [Hr' Hlt]]].
    pose proof (Hlo j r' ltac:(lia) Hr'). lia. }
  exists cmp', c, r. split; [exact E|]. split; [exact Hr|]. split; [|split; [|split]].
  - rewrite row_descend_int, E. cbn [bind].
    pose proof Hr as Hr'. apply array_get_Some in Hr'. destruct Hr' as [_ Hr'].
    rewrite Hr'. reflexivity.
  - exact Hnot.
  - destruct (Z.eq_dec c (len t - 1)) as [Heq|Hneq]; [left; exact Heq|right].
    destruct (array_get_in_range t (c + 1)) as [r' Hr']; [lia|].
    split; [lia|]. exists r'. split; [exact Hr'|]. apply (Hup (c + 1) r'); [lia|exact Hr'].
  - intros Hall. destruct (Z.eq_dec c 0) as [Hz|Hnz]; [exact Hz|].
    exfalso. apply (Hnot c); [lia|]. apply Hall. lia.
Qed.

(** The key [a] is below the routing key [b]: the descent takes entry 0. *)
Lemma row_int_child_choice_witness :
  exists cmp' c r,
    row_int_step demo_routes "a"%string (-1) = Done (cmp', c) /\
    array_get demo_routes c = Some r /\
    row_descend demo_root "a"%string (-1) = step_down demo_routes "a"%string cmp' r /\
    (forall j, 0 <= j <= c -> ~ entry_greater demo_routes "a"%string j) /\
    (c = len demo_routes - 1 \/ entry_greater demo_routes "a"%string (c + 1)) /\
    ((forall j, 1 <= j < len demo_routes -> entry_greater demo_routes "a"%string j) -> c = 0).
Proof.
  apply (row_int_child_choice demo_routes "a"%string (-1)).
  - vm_compute. discriminate.
  - vm_compute. discriminate.
  - vm_compute. reflexivity.
Defined.

(** ** The leaf page of a row search *)



(** C10: when the binary search of the leaf ends on a slot whose key
    compares equal, the search returns a match with the insert head and
    the insert node of the cursor still [NULL] and the insertion stack
    untouched; the write generation is the page's if the search is for a
    modification and 0 if not.  A search that returns with an insert head
    or an insert node did not match in the slot array. *)
Theorem row_search_exact_frame `{BtreeEnv} :
  forall (root : WT_PAGE) (cbt : WT_CURSOR_BTREE) (is_modify : bool)
         (l : ROW_LEAF) (cmp0 cmp base : Z) (rip : option Z),
    let key := buf_data (cur_key (iface cbt)) in
    let d := row_leaf_d l in
    row_descend root key (-1) = Done (RET_OK, WT_PAGE_ROW_LEAF l, cmp0) ->
    row_leaf_bsearch (Z.to_nat (len d)) d key 0 (len d) cmp0 None
    = Done (RET_OK, (cmp, base, rip)) ->
    (forall indx,
        cmp = 0 -> rip = Some indx ->
        exists c',
          __wt_row_search root cbt is_modify = Done (RET_OK, c') /\
          cbt_match c' = true /\
          slot c' = indx /\
          ins_head c' = None /\
          ins c' = None /\
          ins_stack c' = ins_stack cbt /\
          write_gen c' = (if is_modify then row_leaf_write_gen l else 0)) /\
    (forall c',
        __wt_row_search root cbt is_modify = Done (RET_OK, c') ->
        ins_head c' <> None \/ ins c' <> None ->
        cmp <> 0).
Proof.
  intros root cbt is_modify l cmp0 cmp base rip key d Hdesc E.
  assert (Hexact : forall indx, cmp = 0 -> rip = Some indx ->
            __wt_row_search root cbt is_modify
            = Done (RET_OK,
                    set_match
                      (set_slot (set_rip (leaf_cursor cbt l is_modify) (Some indx)) indx)
                      true)).
  { intros indx -> ->.
    rewrite (wt_row_search_leaf root cbt is_modify l cmp0 Hdesc).
    apply (row_search_leaf_exact cbt l key cmp0 is_modify base indx E). }
  split.
  - intros indx Hc Hr. eexists. split; [apply (Hexact indx Hc Hr)|].
    destruct is_modify; repeat split; reflexivity.
  - intros c' Hres Hanchor Hc. subst cmp.
    destruct rip as [indx|].
    + rewrite (Hexact indx eq_refl eq_refl) in Hres. injection Hres as <-.
      destruct is_modify; simpl in Hanchor; destruct Hanchor as [Ha|Ha]; apply Ha; reflexivity.
    + rewrite (wt_row_search_leaf root cbt is_modify l cmp0 Hdesc) in Hres.
      unfold row_search_leaf in Hres. fold d in Hres. fold key in Hres.
      rewrite E in Hres. discriminate Hres.
Qed.

(** The search for [d] in the demo tree matches slot 1 of the leaf. *)
Lemma row_search_exact_frame_witness :
  exists c',
    __wt_row_search demo_root (cbt_for "d"%string) true = Done (RET_OK, c') /\
    cbt_match c' = true /\
    slot c' = 1 /\
    ins_head c' = None /\
    ins c' = None /\
    ins_stack c' = ins_stack (cbt_for "d"%string) /\
    write_gen c' = (if true then row_leaf_write_gen demo_leaf else 0).
Proof.
  destruct (row_search_exact_frame demo_root (cbt_for "d"%string) true demo_leaf 1 0 0 (Some 1))
    as [Hexact _].
  - vm_compute. reflexivity.
  - vm_compute. reflexivity.
  - apply (Hexact 1); reflexivity.
Defined.

(** ** The row iterator and the update of a slot *)

(** When the row iterator comes to a slot that has an update, it goes on
    to the next record if the update is a deletion and returns the value
    of the update if not. *)
Lemma prev_row_slot_update `{BtreeEnv} (l : ROW_LEAF) (cbt cbt' : WT_CURSOR_BTREE)
    (r : option ret_code) (u : WT_UPDATE) :
  prev_row_slot l cbt = Done (r, cbt') ->
  r <> Some WT_NOTFOUND ->
  WT_ROW_UPDATE l (slot cbt') = Done (Some u) ->
  if upd_deleted u then r = None
  else r = Some RET_OK ->
       cur_value (iface cbt') = mkBuf (WT_UPDATE_DATA u) (upd_size u).
Proof.
  unfold prev_row_slot. intros E Hnf Hu.
  destruct (negb (WT_CBT_RET_SLOT cbt) && (slot cbt =? 0)).
  { injection E as <- _. contradiction. }
  set (c1 := if WT_CBT_RET_SLOT cbt then set_RET_SLOT cbt false
             else set_slot cbt (u32 (slot cbt - 1))) in *.
  destruct (if slot c1 =? 0 then WT_ROW_INSERT_SMALLEST l
            else WT_ROW_INSERT_SLOT l (u32 (slot c1 - 1))) as [h| |];
    cbn [bind] in E; try discriminate.
  destruct (count_inserts (row_leaf_store l) (ins_head (set_ins_head c1 h))) as [cnt| |];
    cbn [bind] in E; try discriminate.
  set (c2 := set_RET_INSERT (set_ins_entry_cnt (set_ins_head c1 h) cnt) true) in *.
  assert (Hslot : forall x, slot (set_keyp c2 x) = slot c2) by reflexivity.
  destruct (WT_ROW_UPDATE l (slot c2)) as [upd| |] eqn:Hupd; cbn [bind] in E;
    try discriminate.
  assert (Hsame : slot cbt' = slot c2).
  { destruct (match upd with Some u0 => WT_UPDATE_DELETED_ISSET u0 | None => false end).
    - injection E as _ <-. reflexivity.
    - destruct (array_get (row_leaf_d l) (slot c2)) as [row|]; [|discriminate].
      destruct (row_slot_key row) as [[| |code] k]; try (injection E as _ <-; reflexivity).
      destruct upd as [u0|]; [injection E as _ <-; reflexivity|].
      destruct (row_value row) as [cell|]; [|injection E as _ <-; reflexivity].
      destruct (__wt_cell_copy cell) as [[| |code] buf]; injection E as _ <-; reflexivity. }
  rewrite Hsame, Hupd in Hu. injection Hu as ->.
  unfold WT_UPDATE_DELETED_ISSET in E. destruct (upd_deleted u).
  - injection E as <- _. reflexivity.
  - intros Hr. destruct (array_get (row_leaf_d l) (slot c2)) as [row|]; [|discriminate].
    destruct (row_slot_key row) as [[| |code] k].
    + injection E as _ <-. reflexivity.
    + injection E as <- _. discriminate.
    + injection E as <- _. discriminate.
Qed.

(** ** The last record *)

(** C8: [__wt_btcur_last] is the reset of the cursor followed by
    [__wt_btcur_prev]: the same return code and the same cursor. *)
Theorem btcur_last_is_clear_then_prev `{BtreeEnv} :
  forall (fuel : nat) (cbt : WT_CURSOR_BTREE) (unpack0 : WT_CELL_UNPACK),
    __wt_btcur_last fuel cbt unpack0 = spec_last fuel cbt unpack0.
Proof.
  intros fuel cbt unpack0. unfold __wt_btcur_last, spec_last. reflexivity.
Qed.

(** ** The start of the tree and the start of a fixed-length page *)

Lemma skip_fold_inv {K St : Type} (P : St -> Prop) (store : list (WT_INSERT K))
    (body : ptr -> WT_INSERT K -> St -> outcome (St * bool)) :
  (forall p n s s' b, P s -> body p n s = Done (s', b) -> P s') ->
  forall fuel cur s s', P s -> skip_fold fuel store body cur s = Done s' -> P s'.
Proof.
  intros Hbody. induction fuel as [|fuel IH]; intros cur s s' Hs E.
  - destruct cur; cbn [skip_fold] in E; [discriminate|]. injection E as <-. exact Hs.
  - destruct cur as [p|]; cbn [skip_fold] in E; [|injection E as <-; exact Hs].
    destruct (nth_error store p) as [n|]; [|discriminate].
    destruct (body p n s) as [[s1 brk]| |] eqn:Eb; cbn [bind] in E; try discriminate.
    pose proof (Hbody p n s s1 brk Hs Eb) as Hs1.
    destruct brk.
    + injection E as <-. exact Hs1.
    + destruct (WT_SKIP_NEXT store (Some p)) as [nx| |]; cbn [bind] in E; try discriminate.
      apply (IH nx s1 s' Hs1 E).
Qed.

Section PrevFixProps.
Context `{BtreeEnv}.
Variable c : COL_FIX.
Hypothesis Hbase : 0 <= fix_recno c.
Hypothesis Htop : fix_recno c + len (fix_bitf c) <= 2 ^ 64.
Hypothesis Hmax : len (fix_bitf c) <= UINT32_MAX.

Lemma same_position_refl a state : same_position a (state, a).
Proof. unfold same_position. simpl. auto. Qed.

Lemma prev_fix_body_position a p n s s' b :
  same_position a s -> prev_fix_body c p n s = Done (s', b) -> same_position a s'.
Proof.
  destruct s as [state cbt]. unfold prev_fix_body, same_position. simpl.
  intros Hs E. destruct (negb (recno cbt =? ins_key n)).
  - injection E as <- _. exact Hs.
  - destruct (cbt_ins_node (fix_store c) cbt) as [m| |]; simpl in E; try discriminate.
    destruct (WT_UPDATE_DELETED_ISSET (ins_upd m)); injection E as <- _; exact Hs.
Qed.

Lemma fix_inv_read cbt :
  fix_inv c cbt -> nslots cbt <> 0 ->
  fix_recno c <= recno cbt < fix_recno c + len (fix_bitf c) /\
  (exists v, __bit_getv_recno c (recno cbt) = Done v) /\
  fix_inv c (prev_fix_next cbt).
Proof.
  intros [Hn Hr] Hnz. specialize (Hr Hnz).
  assert (Hrange : fix_recno c <= recno cbt < fix_recno c + len (fix_bitf c)) by lia.
  split; [exact Hrange|]. split.
  - unfold __bit_getv_recno.
    destruct (array_get_in_range (fix_bitf c) (recno cbt - fix_recno c)) as [v Hv]; [lia|].
    rewrite Hv. eauto.
  - unfold fix_inv, prev_fix_next. cbn.
    rewrite (u32_small (nslots cbt - 1)) by lia. split; [lia|].
    intros Hnz'. unfold u64. rewrite Z.mod_small by lia. lia.
Qed.

(** A record the loop returns is a record of the page. *)
Lemma prev_fix_loop_found :
  forall fuel cbt cbt',
    fix_inv c cbt ->
    prev_fix_loop fuel c cbt = Done (RET_OK, cbt') ->
    fix_recno c <= cur_recno (iface cbt') < fix_recno c + len (fix_bitf c) /\
    fix_inv c cbt'.
Proof.
  induction fuel as [|fuel IH]; intros cbt cbt' Hinv E; cbn [prev_fix_loop] in E.
  - destruct (nslots cbt =? 0); discriminate.
  - destruct (Z.eqb_spec (nslots cbt) 0) as [Hz|Hnz]; [discriminate|].
    destruct (fix_inv_read cbt Hinv Hnz) as [Hrange [_ Hnext]].
    set (a := set_recnop cbt (recno cbt)) in *.
    assert (Hpos : forall s,
               (match ins_head a with
                | None => Done (NOTFOUND, a)
                | Some _ =>
                    WT_SKIP_FOREACH (fix_store c) (ins_head a) (prev_fix_body c) (NOTFOUND, a)
                end) = Done s -> same_position a s).
    { intros s Es. destruct (ins_head a).
      - unfold WT_SKIP_FOREACH in Es.
        destruct (WT_SKIP_FIRST (Some w)) as [first| |]; cbn [bind] in Es; try discriminate.
        apply (skip_fold_inv (same_position a) (fix_store c) (prev_fix_body c)
                 (prev_fix_body_position a) _ _ _ _ (same_position_refl a NOTFOUND) Es).
      - injection Es as <-. apply same_position_refl. }
    destruct (match ins_head a with
              | None => Done (NOTFOUND, a)
              | Some _ =>
                  WT_SKIP_FOREACH (fix_store c) (ins_head a) (prev_fix_body c) (NOTFOUND, a)
              end) as [[state cbt1]| |]; cbn [bind] in E; try discriminate.
    destruct (Hpos (state, cbt1) eq_refl) as [Hr1 [Hn1 Hc1]]. simpl in Hr1, Hn1, Hc1.
    assert (Hinv1 : fix_inv c (prev_fix_next cbt1)).
    { unfold fix_inv, prev_fix_next in *. cbn in *. rewrite Hr1, Hn1. exact Hnext. }
    destruct state.
    + apply (IH _ _ Hinv1 E).
    + injection E as <-. split; [|exact Hinv1].
      unfold prev_fix_next. cbn. rewrite Hc1. exact Hrange.
    + destruct (__bit_getv_recno c (recno cbt1)) as [v| |]; cbn [bind] in E; try discriminate.
      destruct (__wt_buf_set (byte_string v) 1) as [[| |code] buf]; try discriminate.
      injection E as <-. split.
      * unfold prev_fix_next. cbn. rewrite Hc1. exact Hrange.
      * unfold fix_inv, prev_fix_next in *. cbn in *. exact Hinv1.
Qed.

(** The set-up for a new page puts the cursor on the last record. *)
Lemma prev_fix_newpage cbt h :
  WT_COL_INSERT_SINGLE c = Done h ->
  let cbt0 :=
    set_recno (set_nslots (set_ins_head cbt h) (len (fix_bitf c)))
      (u64 (fix_recno c + u32 (len (fix_bitf c) - 1))) in
  fix_inv c cbt0 /\ nslots cbt0 = len (fix_bitf c) /\
  __prev_fix cbt c true = __prev_fix cbt0 c false.
Proof.
  intros Hh cbt0. split; [|split].
  - unfold fix_inv, cbt0. cbn. split; [unfold len; lia|].
    intros Hnz. rewrite u32_small by (unfold len in *; lia).
    unfold u64. rewrite Z.mod_small by (unfold len in *; lia). lia.
  - reflexivity.
  - unfold __prev_fix. rewrite Hh. reflexivity.
Qed.

Lemma prev_fix_end cbt :
  nslots cbt = 0 -> __prev_fix cbt c false = Done (WT_NOTFOUND, cbt).
Proof.
  intros Hz. unfold __prev_fix. cbn [bind]. rewrite Hz. simpl. rewrite Hz. reflexivity.
Qed.

(** On a page without insert list the iterator always returns. *)
Lemma prev_fix_plain_returns cbt :
  fix_ins c = None ->
  exists ret cbt', __prev_fix cbt c true = Done (ret, cbt').
Proof.
  intros Hins.
  assert (Hh : WT_COL_INSERT_SINGLE c = Done None).
  { unfold WT_COL_INSERT_SINGLE, insert_array_get. rewrite Hins. reflexivity. }
  destruct (prev_fix_newpage cbt None Hh) as [Hinv [Hn ->]].
  set (cbt0 := set_recno _ _) in *.
  unfold __prev_fix. cbn [bind].
  destruct (Z.eq_dec (nslots cbt0) 0) as [Hz|Hnz].
  - rewrite Hz. cbn [Z.to_nat prev_fix_loop]. rewrite Hz. cbn [Z.eqb]. eauto.
  - assert (Hfuel : exists f, Z.to_nat (nslots cbt0) = S f).
    { destruct Hinv as [Hr _]. exists (Z.to_nat (nslots cbt0) - 1)%nat. lia. }
    destruct Hfuel as [f ->]. cbn [prev_fix_loop].
    destruct (Z.eqb_spec (nslots cbt0) 0) as [Hz|_]; [contradiction|].
    assert (Hhead : ins_head (set_recnop cbt0 (recno cbt0)) = None) by reflexivity.
    rewrite Hhead. cbn [bind].
    destruct (fix_inv_read cbt0 Hinv Hnz) as [_ [[v Hv] _]].
    change (recno (set_recnop cbt0 (recno cbt0))) with (recno cbt0).
    rewrite Hv. cbn [bind].
    destruct (__wt_buf_set (byte_string v) 1) as [[| |code] buf]; eauto.
Qed.

End PrevFixProps.

Lemma btcur_prev_unfold `{BtreeEnv} fuel cbt u :
  __wt_btcur_prev fuel cbt u =
  match prev_setup cbt with
  | (RET_OK, cbt1) =>
      '(ret, cbt2) <- btcur_prev_loop fuel cbt1 false u ;;
      if ret_is_ok ret
      then Done (RET_OK, set_iface cbt2 (set_cur_flags (iface cbt2) true true))
      else Done (ret, cbt2)
  | (ret, cbt1) => Done (ret, cbt1)
  end.
Proof. reflexivity. Qed.

(** ** The merge of slots and insert lists, run on pages *)

(** The row page of the spec's scenario, read backward from its end:
    [f], [e] from the insert list, [d], [b], then not found. *)
Example row_scenario_prev :
  @prev_keys (one_leaf_env (WT_PAGE_ROW_LEAF demo_leaf)) 5 cbt0
  = [ (RET_OK, "f", EmptyString); (RET_OK, "e", "E"); (RET_OK, "d", "D"); (RET_OK, "b", "B");
      (WT_NOTFOUND, "b", "B") ]%string.
Proof. vm_compute. reflexivity. Qed.

(** C1, as the code runs: a fixed-length page, base record 100, four
    records, record 102 updated to [U] on the insert list.  The last
    record comes from the page; at record 102 the iterator finds the
    node, reads the update through [cbt->ins], which is [NULL], and the
    run ends in an invalid access: [U] is not returned.  A
    variable-length page whose record 100 has [V] on the page and [U] on
    the insert list: with [cbt->ins] [NULL] the first call ends the same
    way, and with [cbt->ins] at the node of record 100 the call returns
    record 100 with [V]. *)
Theorem merge_update_as_run :
  @last_then_prev (one_leaf_env (WT_PAGE_COL_FIX (fix_page (live "U")))) 1 cbt0
  = [ Done (RET_OK, 103, "D"%string); Abort InvalidAccess ] /\
  @last_then_prev (one_leaf_env (WT_PAGE_COL_VAR (var_page 1))) 0 cbt0
  = [ Abort InvalidAccess ] /\
  @prev_times (one_leaf_env (WT_PAGE_COL_VAR (var_page 1))) 1 (set_ins cbt0 (Some 0%nat))
  = [ Done (RET_OK, 100, "V"%string) ].
Proof. vm_compute. repeat split; reflexivity. Qed.

(** C2, as the code runs: a variable-length page, base record 100, with
    one cell of three records (100, 101, 102) and no insert list.  Read
    backward from the end, the record numbers are 100, 99 and 98, then
    not found.  The fixed-length page of the spec's scenario, record 102
    deleted on the insert list: 103, then an invalid access. *)
Theorem prev_sequence_as_run :
  @last_then_prev (one_leaf_env (WT_PAGE_COL_VAR (var_page_plain 3))) 3 cbt0
  = [ Done (RET_OK, 100, "V"%string); Done (RET_OK, 99, "V"%string);
      Done (RET_OK, 98, "V"%string); Done (WT_NOTFOUND, 98, "V"%string) ] /\
  @last_then_prev (one_leaf_env (WT_PAGE_COL_FIX (fix_page tombstone))) 2 cbt0
  = [ Done (RET_OK, 103, "D"%string); Abort InvalidAccess ].
Proof. vm_compute. repeat split; reflexivity. Qed.

(** * Further properties of the code *)

(** ** The insertion stack *)

Lemma list_set_length {A : Type} (l : list A) :
  forall n x, length (list_set l n x) = length l.
Proof.
  induction l as [|y l IH]; intros n x; destruct n; simpl; auto.
Qed.

Lemma list_set_nth_eq {A : Type} (l : list A) :
  forall n x, (n < length l)%nat -> nth_error (list_set l n x) n = Some x.
Proof.
  induction l as [|y l IH]; intros n x Hn; simpl in Hn; [lia|].
  destruct n; simpl; [reflexivity|]. apply IH. lia.
Qed.

Lemma list_set_nth_neq {A : Type} (l : list A) :
  forall n m x, n <> m -> nth_error (list_set l n x) m = nth_error l m.
Proof.
  induction l as [|y l IH]; intros n m x Hnm; destruct n; destruct m; simpl;
    try reflexivity; try congruence.
  apply IH. congruence.
Qed.

Lemma array_set_len {A : Type} (l : list A) (i : Z) (x : A) :
  len (array_set l i x) = len l.
Proof.
  unfold array_set, len. destruct (i <? 0); [reflexivity|].
  rewrite list_set_length. reflexivity.
Qed.

Lemma array_get_set_eq {A : Type} (l : list A) (i : Z) (x : A) :
  0 <= i < len l -> array_get (array_set l i x) i = Some x.
Proof.
  intros Hi. unfold array_get, array_set, len in *.
  destruct (Z.ltb_spec i 0); [lia|]. apply list_set_nth_eq. lia.
Qed.

Lemma array_get_set_neq {A : Type} (l : list A) (i j : Z) (x : A) :
  i <> j -> array_get (array_set l i x) j = array_get l j.
Proof.
  intros Hij. unfold array_get, array_set.
  destruct (Z.ltb_spec j 0); [reflexivity|].
  destruct (Z.ltb_spec i 0); [reflexivity|].
  apply list_set_nth_neq. lia.
Qed.

Section InsertStack.
Context `{BtreeEnv}.
Variable store : list (WT_INSERT WT_ITEM).
Variable h : WT_INSERT_HEAD.
Variable key : WT_ITEM.

Lemma slot_level_dec s : slot_level (ins_slot_dec s) = slot_level s - 1.
Proof. destruct s; reflexivity. Qed.

Lemma owner_below_dec s : owner_below store key s -> owner_below store key (ins_slot_dec s).
Proof. destruct s; simpl; auto. Qed.

(** A search that ends without a node has filled the stack from its
    level down, and has left the levels above as they were. *)
Lemma search_insert_loop_stack :
  forall fuel i s stack stack',
    search_insert_loop fuel store h key i s stack = Done (None, stack') ->
    slot_level s = i -> owner_below store key s ->
    len stack' = len stack /\
    (forall j, 0 <= j <= i -> j < len stack -> stack_entry_ok store h key stack' j) /\
    (forall j, i < j -> array_get stack' j = array_get stack j).
Proof.
  induction fuel as [|fuel IH]; intros i s stack stack' E Hlev Hown;
    cbn [search_insert_loop] in E.
  - destruct (Z.ltb_spec i 0); [|discriminate]. injection E as <-.
    split; [reflexivity|]. split; [intros j Hj; lia|reflexivity].
  - destruct (Z.ltb_spec i 0) as [Hi|Hi].
    { injection E as <-. split; [reflexivity|]. split; [intros j Hj; lia|reflexivity]. }
    assert (Hdrop : next_above store h key s ->
              search_insert_loop fuel store h key (i - 1) (ins_slot_dec s)
                (array_set stack i (Some s)) = Done (None, stack') ->
              len stack' = len stack /\
              (forall j, 0 <= j <= i -> j < len stack -> stack_entry_ok store h key stack' j) /\
              (forall j, i < j -> array_get stack' j = array_get stack j)).
    { intros Hnext E'.
      destruct (IH _ _ _ _ E') as [Hlen [Hlow Hup]].
      - rewrite slot_level_dec. lia.
      - apply owner_below_dec. exact Hown.
      - rewrite array_set_len in Hlen. split; [exact Hlen|]. split.
        + intros j Hj Hjl. destruct (Z.eq_dec j i) as [->|Hne].
          * exists s. rewrite (Hup i) by lia.
            rewrite array_get_set_eq by lia. auto.
          * apply Hlow; [lia|]. rewrite array_set_len. exact Hjl.
        + intros j Hj. rewrite (Hup j) by lia. apply array_get_set_neq. lia. }
    destruct (ins_slot_deref store h s) as [[p|]|] eqn:Hd; [| |discriminate].
    + destruct (nth_error store p) as [n|] eqn:Hn; [|discriminate].
      destruct (Z.eqb_spec (btree_compare key (ins_key n)) 0) as [Hz|Hnz]; [discriminate|].
      destruct (Z.gtb_spec (btree_compare key (ins_key n)) 0) as [Hgt|Hle].
      * destruct (IH _ _ _ _ E) as [Hlen [Hlow Hup]].
        -- reflexivity.
        -- simpl. exists n. split; [exact Hn|lia].
        -- auto.
      * apply Hdrop; [|exact E]. right. exists p, n. repeat split; auto. lia.
    + apply Hdrop; [|exact E]. left. exact Hd.
Qed.

Lemma search_insert_frame cbt inshead r cbt' :
  __search_insert cbt store inshead key = Done (r, cbt') ->
  cbt' = set_ins_stack cbt (ins_stack cbt').
Proof.
  unfold __search_insert. destruct inshead as [h'|].
  - destruct (search_insert_loop _ _ _ _ _ _ _) as [[r' st]| |]; cbn [bind];
      try discriminate.
    intros E. injection E as _ <-. reflexivity.
  - intros E. injection E as _ <-. destruct cbt; reflexivity.
Qed.

Lemma search_insert_sound cbt p cbt' inshead :
  __search_insert cbt store inshead key = Done (Some p, cbt') ->
  exists n, nth_error store p = Some n /\ btree_compare key (ins_key n) = 0.
Proof.
  unfold __search_insert. destruct inshead as [h'|]; [|discriminate].
  destruct (search_insert_loop _ _ _ _ _ _ _) as [[r st]| |] eqn:El; cbn [bind];
    try discriminate.
  intros E. injection E as -> _.
  apply (search_insert_loop_sound store h' key _ _ _ _ _ _ El).
Qed.

End InsertStack.

(** X1: a search of an insert list that finds no node leaves, for every
    level of the list, a position of that level in the insertion stack of
    the cursor: it is in the head or in a node whose key is below the
    search key, and its link is [NULL] or goes to a node whose key is
    above the search key.  Nothing else of the cursor changes. *)
Theorem search_insert_records_stack `{BtreeEnv} :
  forall (cbt cbt' : WT_CURSOR_BTREE) (store : list (WT_INSERT WT_ITEM))
         (h : WT_INSERT_HEAD) (key : WT_ITEM),
    WT_SKIP_MAXDEPTH <= len (ins_stack cbt) ->
    __search_insert cbt store (Some h) key = Done (None, cbt') ->
    cbt' = set_ins_stack cbt (ins_stack cbt') /\
    len (ins_stack cbt') = len (ins_stack cbt) /\
    forall j, 0 <= j < WT_SKIP_MAXDEPTH ->
      stack_entry_ok store h key (ins_stack cbt') j.
Proof.
  intros cbt cbt' store h key Hdepth E.
  split; [apply (search_insert_frame store key cbt (Some h) None cbt' E)|].
  unfold __search_insert in E.
  destruct (search_insert_loop (search_insert_fuel store) store h key
              (WT_SKIP_MAXDEPTH - 1) (HeadSlot (WT_SKIP_MAXDEPTH - 1)) (ins_stack cbt))
    as [[r stack]| |] eqn:El; cbn [bind] in E; try discriminate.
  injection E as -> <-. cbn [ins_stack set_ins_stack].
  destruct (search_insert_loop_stack store h key _ _ _ _ _ El eq_refl I)
    as [Hlen [Hlow _]].
  split; [exact Hlen|]. intros j Hj. apply Hlow; lia.
Qed.

(** The search for [c] on the list that holds [e]: the stack has the head
    at every level. *)
Lemma search_insert_records_stack_witness :
  stack_entry_ok demo_store demo_head "c"%string
    [Some (HeadSlot 0); Some (HeadSlot 1); Some (HeadSlot 2)] 0 /\
  stack_entry_ok demo_store demo_head "c"%string
    [Some (HeadSlot 0); Some (HeadSlot 1); Some (HeadSlot 2)] 2.
Proof.
  destruct (search_insert_records_stack cbt0
              (set_ins_stack cbt0 [Some (HeadSlot 0); Some (HeadSlot 1); Some (HeadSlot 2)])
              demo_store demo_head "c"%string) as (_ & _ & Hstack).
  - vm_compute. discriminate.
  - vm_compute. reflexivity.
  - split; apply Hstack; vm_compute; split; congruence.
Defined.

(** ** The skip-list search, as a whole *)

(** C3: the search of an insert list.  An empty list ([NULL]) is not found
    at once and leaves the cursor as it is.  Otherwise the walk starts at
    the highest level of the head; in a turn at level [i] it drops a level
    and records the position in the stack when the next node is absent or
    its key is above the search key, returns the next node at once when
    its key compares equal, and moves forward on the same level when its
    key is below the search key; below level 0 it reports not-found.  A
    node is returned only if its key compares equal to the search key, and
    on a well-formed list the search always ends in a result.  What a turn
    records can be read back: the entry of level [i] of the stack is the
    position of the turn and no other entry changes; and after a search
    that found no node the stack of the cursor holds, at every level of
    the list, the position the walk dropped from, which is in the head or
    in a node whose key is below the search key and whose link is [NULL]
    or goes to a node whose key is above it. *)
Theorem search_insert_walk `{BtreeEnv} :
  forall (cbt : WT_CURSOR_BTREE) (store : list (WT_INSERT WT_ITEM))
         (h : WT_INSERT_HEAD) (key : WT_ITEM),
    __search_insert cbt store None key = Done (None, cbt) /\
    __search_insert cbt store (Some h) key =
      ('(r, stack) <- search_insert_loop (search_insert_fuel store) store h key
                        (WT_SKIP_MAXDEPTH - 1) (HeadSlot (WT_SKIP_MAXDEPTH - 1))
                        (ins_stack cbt) ;;
       Done (r, set_ins_stack cbt stack)) /\
    (forall fuel i s stack tgt,
        0 <= i ->
        ins_slot_deref store h s = Some tgt ->
        match tgt with
        | None =>
            search_insert_loop (S fuel) store h key i s stack =
            search_insert_loop fuel store h key (i - 1) (ins_slot_dec s)
              (array_set stack i (Some s))
        | Some p =>
            forall n, nth_error store p = Some n ->
              (btree_compare key (ins_key n) = 0 ->
               search_insert_loop (S fuel) store h key i s stack = Done (Some p, stack)) /\
              (btree_compare key (ins_key n) > 0 ->
               search_insert_loop (S fuel) store h key i s stack =
               search_insert_loop fuel store h key i (NextSlot p i) stack) /\
              (btree_compare key (ins_key n) < 0 ->
               search_insert_loop (S fuel) store h key i s stack =
               search_insert_loop fuel store h key (i - 1) (ins_slot_dec s)
                 (array_set stack i (Some s)))
        end) /\
    (forall fuel i s stack,
        i < 0 -> search_insert_loop fuel store h key i s stack = Done (None, stack)) /\
    (forall p cbt',
        __search_insert cbt store (Some h) key = Done (Some p, cbt') ->
        exists n, nth_error store p = Some n /\ btree_compare key (ins_key n) = 0) /\
    (skiplist_wf store h = true ->
     exists r stack',
       __search_insert cbt store (Some h) key = Done (r, set_ins_stack cbt stack')) /\
    (forall (stack : list (option ins_slot)) (i : Z) (s : ins_slot),
        0 <= i < len stack ->
        array_get (array_set stack i (Some s)) i = Some (Some s) /\
        len (array_set stack i (Some s)) = len stack /\
        (forall j, j <> i ->
           array_get (array_set stack i (Some s)) j = array_get stack j)) /\
    (forall cbt',
        WT_SKIP_MAXDEPTH <= len (ins_stack cbt) ->
        __search_insert cbt store (Some h) key = Done (None, cbt') ->
        len (ins_stack cbt') = len (ins_stack cbt) /\
        forall j, 0 <= j < WT_SKIP_MAXDEPTH ->
          stack_entry_ok store h key (ins_stack cbt') j).
Proof.
  intros cbt store h key.
  split; [reflexivity|]. split; [reflexivity|].
  split; [|split; [|split; [|split; [|split]]]].
  - intros fuel i s stack tgt Hi Hd. cbn [search_insert_loop].
    destruct (Z.ltb_spec i 0) as [Hneg|_]; [lia|]. rewrite Hd.
    destruct tgt as [p|]; [|reflexivity].
    intros n Hn. rewrite Hn. repeat split; intros Hc.
    + rewrite Hc. reflexivity.
    + destruct (Z.eqb_spec (btree_compare key (ins_key n)) 0); [lia|].
      destruct (Z.gtb_spec (btree_compare key (ins_key n)) 0); [reflexivity|lia].
    + destruct (Z.eqb_spec (btree_compare key (ins_key n)) 0); [lia|].
      destruct (Z.gtb_spec (btree_compare key (ins_key n)) 0); [lia|reflexivity].
  - intros fuel i s stack Hi.
    destruct fuel; cbn [search_insert_loop];
      destruct (Z.ltb_spec i 0); (reflexivity || lia).
  - intros p cbt' E. unfold __search_insert in E.
    destruct (search_insert_loop (search_insert_fuel store) store h key
                (WT_SKIP_MAXDEPTH - 1) (HeadSlot (WT_SKIP_MAXDEPTH - 1)) (ins_stack cbt))
      as [[r stack]| |] eqn:El; simpl in E; try discriminate.
    injection E as -> _.
    apply (search_insert_loop_sound store h key _ _ _ _ _ _ El).
  - intros Hwf. unfold __search_insert.
    destruct (search_insert_loop_total store h key Hwf (search_insert_fuel store)
                (WT_SKIP_MAXDEPTH - 1) (HeadSlot (WT_SKIP_MAXDEPTH - 1)) (ins_stack cbt))
      as [r [stack' E]].
    + destruct (Z.lt_ge_cases (WT_SKIP_MAXDEPTH - 1) 0) as [Hneg|Hpos]; [left; exact Hneg|].
      right. split.
      * simpl. split; [reflexivity|].
        unfold skiplist_wf in Hwf. apply andb_true_iff in Hwf. destruct Hwf as [Hwf _].
        apply andb_true_iff in Hwf. destruct Hwf as [Hlen _].
        apply Z.eqb_eq in Hlen. lia.
      * unfold search_insert_fuel, slot_rank.
        replace (WT_SKIP_MAXDEPTH - 1 + 1) with WT_SKIP_MAXDEPTH by lia.
        assert (1 <= Z.to_nat WT_SKIP_MAXDEPTH)%nat by lia. nia.
    + rewrite E. simpl. eauto.
  - intros stack i s Hi. split; [apply array_get_set_eq; exact Hi|].
    split; [apply array_set_len|].
    intros j Hj. apply array_get_set_neq. congruence.
  - intros cbt' Hdepth E. unfold __search_insert in E.
    destruct (search_insert_loop (search_insert_fuel store) store h key
                (WT_SKIP_MAXDEPTH - 1) (HeadSlot (WT_SKIP_MAXDEPTH - 1)) (ins_stack cbt))
      as [[r stack]| |] eqn:El; cbn [bind] in E; try discriminate.
    injection E as -> <-. cbn [ins_stack set_ins_stack].
    destruct (search_insert_loop_stack store h key _ _ _ _ _ El eq_refl I)
      as [Hlen [Hlow _]].
    split; [exact Hlen|]. intros j Hj. apply Hlow; lia.
Qed.

(** The search for [e] on the list of the slot of [d] finds the node of
    [e]; the search for [c] finds no node and leaves the head at level 0
    of the stack. *)
Lemma search_insert_walk_witness :
  (exists n, nth_error demo_store 0 = Some n /\ btree_compare "e"%string (ins_key n) = 0) /\
  (exists r stack',
      __search_insert cbt0 demo_store (Some demo_head) "e"%string
      = Done (r, set_ins_stack cbt0 stack')) /\
  stack_entry_ok demo_store demo_head "c"%string
    [Some (HeadSlot 0); Some (HeadSlot 1); Some (HeadSlot 2)] 0.
Proof.
  destruct (search_insert_walk cbt0 demo_store demo_head "e"%string)
    as (_ & _ & _ & _ & Hsound & Htotal & _).
  destruct (search_insert_walk cbt0 demo_store demo_head "c"%string)
    as (_ & _ & _ & _ & _ & _ & _ & Hstack).
  split; [|split].
  - apply (Hsound 0%nat (set_ins_stack cbt0 [None; None; Some (HeadSlot 2)])).
    vm_compute. reflexivity.
  - apply Htotal. vm_compute. reflexivity.
  - apply (Hstack (set_ins_stack cbt0
                     [Some (HeadSlot 0); Some (HeadSlot 1); Some (HeadSlot 2)])).
    + vm_compute. discriminate.
    + vm_compute. reflexivity.
    + vm_compute. split; congruence.
Defined.

(** ** What a row search returns *)

Section RowSearchResult.
Context `{BtreeEnv}.

Lemma slot_cmp_matches d key j :
  leaf_keys_ok d = true ->
  (slot_cmp d key j = Some 0 <-> slot_matches d key j).
Proof.
  intros Hok. unfold slot_cmp, slot_matches. split.
  - destruct (array_get d j) as [row|] eqn:Hrow; [|discriminate].
    intros E. injection E as E.
    assert (Hin : In row d).
    { apply array_get_Some in Hrow. destruct Hrow as [_ Hrow].
      apply (nth_error_In _ _ Hrow). }
    unfold leaf_keys_ok in Hok. rewrite forallb_forall in Hok.
    specialize (Hok row Hin).
    destruct (row_slot_key row) as [ret k] eqn:Hk. simpl in *.
    destruct ret; try discriminate. exists row, k. auto.
  - intros [row [k [Hrow [Hk Hc]]]]. rewrite Hrow, Hk. simpl. rewrite Hc. reflexivity.
Qed.

(** The cursor a search returns after the slot array gave no match. *)
Lemma row_search_miss_result cbt l key cmp0 is_modify cmp base rp c' :
  row_leaf_bsearch (Z.to_nat (len (row_leaf_d l))) (row_leaf_d l) key
    0 (len (row_leaf_d l)) cmp0 None = Done (RET_OK, (cmp, base, rp)) ->
  cmp <> 0 ->
  0 <= base <= len (row_leaf_d l) -> len (row_leaf_d l) <= UINT32_MAX ->
  row_search_leaf (__search_reset cbt) (WT_PAGE_ROW_LEAF l) key cmp0 is_modify
  = Done (RET_OK, c') ->
  anchor_list l base = Done (ins_head c') /\
  slot c' = anchor_slot l base /\
  rip c' = Some (anchor_rip base) /\
  cbt_match c' = is_some (ins c') /\
  (forall p, ins c' = Some p ->
     exists n, nth_error (row_leaf_store l) p = Some n /\
               btree_compare key (ins_key n) = 0) /\
  page c' = Some (WT_PAGE_ROW_LEAF l) /\
  write_gen c' = (if is_modify then row_leaf_write_gen l else 0) /\
  iface c' = iface cbt.
Proof.
  intros E Hc Hb Hmax Hres.
  rewrite (row_search_leaf_miss cbt l key cmp0 is_modify cmp base rp E Hc Hb Hmax) in Hres.
  unfold anchor_list, anchor_slot, anchor_rip.
  destruct (if base =? 0 then WT_ROW_INSERT_SMALLEST l
            else WT_ROW_INSERT_SLOT l (base - 1)) as [h0| |]; cbn [bind] in Hres;
    try discriminate.
  match type of Hres with
  | context [__search_insert ?c ?st ?hh ?k] =>
      destruct (__search_insert c st hh k) as [[found c2]| |] eqn:Es
  end; cbn [bind] in Hres; try discriminate.
  injection Hres as <-.
  pose proof (search_insert_frame _ _ _ _ _ _ Es) as Hframe.
  rewrite Hframe. cbn.
  repeat split; try reflexivity.
  - intros p ->. apply (search_insert_sound _ _ _ _ _ _ Es).
  - destruct is_modify; reflexivity.
  - destruct is_modify; reflexivity.
Qed.

End RowSearchResult.

(** X2: a row search that reports a match has found a key that compares
    equal to the search key: either the cursor has no insert node and
    its slot holds such a key, or its insert node does.  When it reports
    no match the cursor has no insert node. *)
Theorem row_search_match_sound `{BtreeEnv} :
  forall (root : WT_PAGE) (cbt c' : WT_CURSOR_BTREE) (is_modify : bool)
         (l : ROW_LEAF) (cmp0 : Z),
    let key := buf_data (cur_key (iface cbt)) in
    let d := row_leaf_d l in
    row_descend root key (-1) = Done (RET_OK, WT_PAGE_ROW_LEAF l, cmp0) ->
    len d <= UINT32_MAX ->
    (1 <= len d \/ cmp0 <> 0) ->
    __wt_row_search root cbt is_modify = Done (RET_OK, c') ->
    (cbt_match c' = true ->
     (ins c' = None /\ slot_matches d key (slot c')) \/
     (exists p n, ins c' = Some p /\ nth_error (row_leaf_store l) p = Some n /\
                  btree_compare key (ins_key n) = 0)) /\
    (cbt_match c' = false -> ins c' = None).
Proof.
  intros root cbt c' is_modify l cmp0 key d Hdesc Hmax Hwf Hres.
  rewrite (wt_row_search_leaf root cbt is_modify l cmp0 Hdesc) in Hres. fold key in Hres.
  destruct (row_leaf_bsearch_ok d key Hmax (Z.to_nat (len d)) 0 (len d) cmp0 None)
    as [ret [cmp [base [rip [E [Hb Hm]]]]]]; try lia.
  all: try (unfold len; lia).
  destruct ret as [| |code];
    try (unfold row_search_leaf in Hres; fold d in Hres; rewrite E in Hres;
         cbn in Hres; discriminate Hres).
  destruct (Z.eq_dec cmp 0) as [->|Hc].
  - destruct (Hm eq_refl eq_refl) as [indx [-> Hslot]].
    rewrite (row_search_leaf_exact cbt l key cmp0 is_modify base indx E) in Hres.
    injection Hres as <-. cbn. split; [|discriminate].
    intros _. left. split; [destruct is_modify; reflexivity|exact Hslot].
  - destruct (row_search_miss_result cbt l key cmp0 is_modify cmp base rip c' E Hc)
      as (_ & _ & _ & Hmatch & Hsound & _); [unfold d in *; lia|exact Hmax|exact Hres|].
    rewrite Hmatch. destruct (ins c') as [p|]; cbn [is_some].
    + split; [|discriminate]. intros _. right.
      destruct (Hsound p eq_refl) as [n [Hn Hk]]. exists p, n. auto.
    + split; [discriminate|reflexivity].
Qed.

(** The search for [e] in the demo tree matches on the insert list. *)
Lemma row_search_match_sound_witness :
  (ins (set_match (set_ins (set_ins_stack (set_slot (set_ins_head (set_rip
          (leaf_cursor (cbt_for "e"%string) demo_leaf false) (Some 1)) (Some demo_head)) 1)
          [None; None; Some (HeadSlot 2)]) (Some 0%nat)) true) = None /\
   slot_matches (row_leaf_d demo_leaf) "e"%string 1) \/
  (exists p n, Some 0%nat = Some p /\ nth_error demo_store p = Some n /\
               btree_compare "e"%string (ins_key n) = 0).
Proof.
  destruct (row_search_match_sound demo_root (cbt_for "e"%string)
              (set_match (set_ins (set_ins_stack (set_slot (set_ins_head (set_rip
                 (leaf_cursor (cbt_for "e"%string) demo_leaf false) (Some 1))
                 (Some demo_head)) 1) [None; None; Some (HeadSlot 2)]) (Some 0%nat)) true)
              false demo_leaf 1) as [Hm _].
  - vm_compute. reflexivity.
  - vm_compute. discriminate.
  - left. vm_compute. discriminate.
  - vm_compute. reflexivity.
  - apply Hm. reflexivity.
Defined.

(** ** The binary search of a sorted leaf *)

Section LeafSorted.
Context `{BtreeEnv}.
Variable d : list WT_ROW.
Variable key : WT_ITEM.

Lemma leaf_sorted_for_spec : leaf_sorted_for key d = true -> leaf_sorted_prop d key.
Proof.
  unfold leaf_sorted_for, leaf_sorted_prop, slot_cmp.
  intros Hm i j ci cj Hij Hi Hj Hc.
  destruct (array_get d i) as [ri|] eqn:Hri; [|discriminate].
  destruct (array_get d j) as [rj|] eqn:Hrj; [|discriminate].
  injection Hi as <-. injection Hj as <-.
  apply array_get_Some in Hri. apply array_get_Some in Hrj.
  apply (cmp_monotone_nth _ Hm (Z.to_nat i) (Z.to_nat j)
           (btree_compare key (snd (row_slot_key ri)))
           (btree_compare key (snd (row_slot_key rj)))).
  - lia.
  - rewrite nth_error_map. destruct Hri as [_ ->]. reflexivity.
  - rewrite nth_error_map. destruct Hrj as [_ ->]. reflexivity.
  - exact Hc.
Qed.

Lemma slot_key_ok row j :
  leaf_keys_ok d = true -> array_get d j = Some row ->
  row_slot_key row = (RET_OK, snd (row_slot_key row)).
Proof.
  intros Hok Hrow.
  assert (Hin : In row d).
  { apply array_get_Some in Hrow. destruct Hrow as [_ Hrow].
    apply (nth_error_In _ _ Hrow). }
  unfold leaf_keys_ok in Hok. rewrite forallb_forall in Hok.
  specialize (Hok row Hin). destruct (row_slot_key row) as [ret k]. simpl in *.
  destruct ret; try discriminate. reflexivity.
Qed.

(** On a sorted leaf the binary search ends either on a slot whose key
    compares equal, or with [base] at the boundary: the keys before it
    are below [key], the keys from it on are above. *)
Lemma row_leaf_bsearch_sorted :
  len d <= UINT32_MAX ->
  leaf_keys_ok d = true ->
  leaf_sorted_prop d key ->
  forall fuel base limit cmp rp,
    0 <= base -> 0 <= limit -> base + limit <= len d ->
    (Z.to_nat limit <= fuel)%nat ->
    (1 <= limit \/ cmp <> 0) ->
    slots_below d key base -> slots_above d key (base + limit) ->
    exists cmp' base' rp',
      row_leaf_bsearch fuel d key base limit cmp rp = Done (RET_OK, (cmp', base', rp')) /\
      ((cmp' = 0 /\ exists i, rp' = Some i /\ slot_cmp d key i = Some 0) \/
       (cmp' <> 0 /\ base <= base' <= base + limit /\
        slots_below d key base' /\ slots_above d key base')).
Proof.
  intros Hmax Hok Hs. induction fuel as [|fuel IH];
    intros base limit cmp rp Hb Hl Hbl Hfuel HJ Hlo Hup.
  - assert (limit = 0) by lia. subst limit. simpl.
    exists cmp, base, rp. split; [reflexivity|]. right.
    replace (base + 0) with base in * by lia.
    split; [lia|]. split; [lia|]. split; assumption.
  - cbn [row_leaf_bsearch]. destruct (Z.eqb_spec limit 0) as [Hl0|Hl0].
    + subst limit. exists cmp, base, rp. split; [reflexivity|]. right.
      replace (base + 0) with base in * by lia.
      split; [lia|]. split; [lia|]. split; assumption.
    + rewrite !shiftr_1.
      assert (Hix : u32 (base + limit / 2) = base + limit / 2).
      { apply u32_small. zdiv. }
      rewrite Hix. set (indx := base + limit / 2) in *.
      assert (Hindx : base <= indx < base + limit) by (unfold indx; zdiv).
      assert (Hix1 : u32 (indx + 1) = indx + 1) by (apply u32_small; lia).
      assert (Hl1 : u32 (limit - 1) = limit - 1) by (apply u32_small; lia).
      rewrite Hix1, Hl1.
      assert (Hhi : indx + 1 + (limit - 1) / 2 = base + limit) by (unfold indx; zdiv).
      destruct (array_get_in_range d indx) as [row Hrow]; [lia|]. rewrite Hrow.
      rewrite (slot_key_ok row indx Hok Hrow).
      set (c := btree_compare key (snd (row_slot_key row))) in *.
      assert (Hci : slot_cmp d key indx = Some c).
      { unfold slot_cmp. rewrite Hrow. reflexivity. }
      destruct (Z.eqb_spec c 0) as [Hc|Hc].
      * exists c, base, (Some indx). split; [reflexivity|]. left.
        split; [exact Hc|]. exists indx. split; [reflexivity|]. rewrite Hci, Hc. reflexivity.
      * destruct (Z.ltb_spec c 0) as [Hlt|Hge].
        -- destruct (IH base (limit / 2) c (Some indx))
             as [cmp' [base' [rp' [E Hres]]]];
             [lia | zdiv | fold indx; lia | zdiv | right; exact Hc | exact Hlo | |].
           { fold indx. intros j cj Hj Hcj. destruct (Z.eq_dec j indx) as [->|Hne].
             - rewrite Hci in Hcj. injection Hcj as <-. exact Hlt.
             - apply (Hs indx j c cj ltac:(lia) Hci Hcj). lia. }
           exists cmp', base', rp'. split; [exact E|].
           destruct Hres as [Hres|[Hne [Hr Hres]]]; [left; exact Hres|right].
           split; [exact Hne|]. split; [zdiv|exact Hres].
        -- destruct (IH (indx + 1) ((limit - 1) / 2) c (Some indx))
             as [cmp' [base' [rp' [E Hres]]]];
             [lia | zdiv | lia | zdiv | right; exact Hc | | |].
           { intros j cj Hj Hcj. destruct (Z.eq_dec j indx) as [->|Hne].
             - rewrite Hci in Hcj. injection Hcj as <-. lia.
             - destruct (Z.lt_ge_cases 0 cj) as [Hpos|Hnpos]; [lia|].
               pose proof (Hs j indx cj c ltac:(lia) Hcj Hci ltac:(lia)). lia. }
           { rewrite Hhi. exact Hup. }
           exists cmp', base', rp'. split; [exact E|].
           destruct Hres as [Hres|[Hne [Hr Hres]]]; [left; exact Hres|right].
           split; [exact Hne|]. split; [lia|exact Hres].
Qed.

(** The search of the whole slot array of a sorted leaf. *)
Lemma row_leaf_bsearch_sorted_all cmp0 :
  len d <= UINT32_MAX ->
  leaf_keys_ok d = true ->
  leaf_sorted_for key d = true ->
  (1 <= len d \/ cmp0 <> 0) ->
  exists cmp base rp,
    row_leaf_bsearch (Z.to_nat (len d)) d key 0 (len d) cmp0 None
    = Done (RET_OK, (cmp, base, rp)) /\
    ((cmp = 0 /\ exists i, rp = Some i /\ slot_cmp d key i = Some 0) \/
     (cmp <> 0 /\ 0 <= base <= len d /\ slots_below d key base /\ slots_above d key base)).
Proof.
  intros Hmax Hok Hsorted Hwf.
  destruct (row_leaf_bsearch_sorted Hmax Hok (leaf_sorted_for_spec Hsorted)
              (Z.to_nat (len d)) 0 (len d) cmp0 None)
    as [cmp [base [rp [E Hres]]]]; try lia.
  - unfold len. lia.
  - intros j c Hj. lia.
  - intros j c Hj Hc. unfold slot_cmp in Hc.
    destruct (array_get d j) as [row|] eqn:Hrow; [|discriminate].
    apply array_get_lt in Hrow. lia.
  - exists cmp, base, rp. split; [exact E|].
    destruct Hres as [Hres|[Hne [Hr Hres]]]; [left; exact Hres|right].
    split; [exact Hne|]. split; [lia|exact Hres].
Qed.

(** On a sorted leaf at most one slot holds a key equal to [key]. *)
Lemma leaf_sorted_unique i j :
  leaf_sorted_prop d key -> 0 <= i -> 0 <= j ->
  slot_cmp d key i = Some 0 -> slot_cmp d key j = Some 0 -> i = j.
Proof.
  intros Hs Hi Hj Ei Ej.
  destruct (Z.lt_trichotomy i j) as [Hlt|[Heq|Hgt]]; [|exact Heq|].
  - pose proof (Hs i j 0 0 ltac:(lia) Ei Ej ltac:(lia)). lia.
  - pose proof (Hs j i 0 0 ltac:(lia) Ej Ei ltac:(lia)). lia.
Qed.

End LeafSorted.

Section LeafHasKey.
Context `{BtreeEnv}.

Lemma leaf_has_key_true key d :
  leaf_has_key key d = true -> exists j, 0 <= j /\ slot_cmp d key j = Some 0.
Proof.
  unfold leaf_has_key. intros E. apply existsb_exists in E.
  destruct E as [row [Hin Hc]]. apply Z.eqb_eq in Hc.
  apply In_nth_error in Hin. destruct Hin as [n Hn].
  exists (Z.of_nat n). split; [lia|]. unfold slot_cmp, array_get.
  destruct (Z.ltb_spec (Z.of_nat n) 0); [lia|].
  rewrite Nat2Z.id, Hn, Hc. reflexivity.
Qed.

Lemma leaf_has_key_false key d :
  leaf_has_key key d = false -> forall j, slot_cmp d key j <> Some 0.
Proof.
  unfold leaf_has_key, slot_cmp. intros E j Hj.
  destruct (array_get d j) as [row|] eqn:Hrow; [|discriminate].
  injection Hj as Hc.
  assert (Hin : In row d).
  { apply array_get_Some in Hrow. destruct Hrow as [_ Hrow].
    apply (nth_error_In _ _ Hrow). }
  assert (Ht : existsb (fun row => btree_compare key (snd (row_slot_key row)) =? 0) d = true).
  { apply existsb_exists. exists row. split; [exact Hin|]. apply Z.eqb_eq. exact Hc. }
  congruence.
Qed.

End LeafHasKey.



(** On a well-formed list, or without a list, the search of the insert
    list ends in a result. *)
Lemma search_insert_total `{BtreeEnv} (cbt : WT_CURSOR_BTREE)
    (store : list (WT_INSERT WT_ITEM)) (inshead : option WT_INSERT_HEAD) (key : WT_ITEM) :
  match inshead with
  | Some h => skiplist_wf store h = true
  | None => True
  end ->
  exists r cbt', __search_insert cbt store inshead key = Done (r, cbt').
Proof.
  destruct inshead as [h|]; [|intros _; cbn [__search_insert]; eauto].
  intros Hwf. unfold __search_insert.
  destruct (search_insert_loop_total store h key Hwf (search_insert_fuel store)
              (WT_SKIP_MAXDEPTH - 1) (HeadSlot (WT_SKIP_MAXDEPTH - 1)) (ins_stack cbt))
    as [r [stack' E]].
  - destruct (Z.lt_ge_cases (WT_SKIP_MAXDEPTH - 1) 0) as [Hneg|Hpos]; [left; exact Hneg|].
    right. split.
    + cbn [slot_ok]. split; [reflexivity|].
      unfold skiplist_wf in Hwf. apply andb_true_iff in Hwf. destruct Hwf as [Hwf _].
      apply andb_true_iff in Hwf. destruct Hwf as [Hlen _].
      apply Z.eqb_eq in Hlen. lia.
    + unfold search_insert_fuel, slot_rank.
      replace (WT_SKIP_MAXDEPTH - 1 + 1) with WT_SKIP_MAXDEPTH by lia.
      assert (1 <= Z.to_nat WT_SKIP_MAXDEPTH)%nat by lia. nia.
  - rewrite E. cbn [bind]. eauto.
Qed.

(** The insert list of every place of a leaf whose lists are well
    formed. *)
Lemma leaf_lists_wf_spec `{BtreeEnv} (l : ROW_LEAF) (i : Z) :
  leaf_lists_wf l = true -> 0 <= i <= len (row_leaf_d l) ->
  exists h, insert_array_get (row_leaf_ins l) i = Done h /\
            match h with
            | Some hd => skiplist_wf (row_leaf_store l) hd = true
            | None => True
            end.
Proof.
  intros Hwf Hi. unfold leaf_lists_wf in Hwf. rewrite forallb_forall in Hwf.
  assert (Hin : In (Z.to_nat i) (seq 0 (S (length (row_leaf_d l)))))
    by (apply in_seq; unfold len in Hi; lia).
  pose proof (Hwf _ Hin) as Hl. rewrite Z2Nat.id in Hl by lia.
  destruct (insert_array_get (row_leaf_ins l) i) as [[hd|]| |]; try discriminate.
  - exists (Some hd). split; [reflexivity | exact Hl].
  - exists None. split; [reflexivity | exact I].
Qed.



(** ** The descent through a whole tree *)

Lemma page_forall_ind (P : WT_PAGE -> Prop) :
  (forall t, Forall (fun r => P (WT_ROW_REF_PAGE r)) t -> P (WT_PAGE_ROW_INT t)) ->
  (forall p, is_row_int p = false -> P p) ->
  forall p, P p.
Proof.
  intros Hint Hleaf. fix IH 1. intros [t| | | | |]; try (apply Hleaf; reflexivity).
  apply Hint. revert t. fix IHt 1. intros [|r t].
  - constructor.
  - constructor.
    + destruct r as [k c]. apply IH.
    + apply IHt.
Qed.

Section Descent.
Context `{BtreeEnv}.
Variable key : WT_ITEM.

Lemma row_descend_leaf p cmp :
  is_row_int p = false -> row_descend p key cmp = Done (RET_OK, p, cmp).
Proof. destruct p; try reflexivity. discriminate. Qed.

Lemma row_descend_reaches_leaf :
  forall p, tree_ok p = true ->
  forall cmp, exists pg cmp',
    row_descend p key cmp = Done (RET_OK, pg, cmp') /\ is_row_int pg = false.
Proof.
  apply (page_forall_ind
           (fun p => tree_ok p = true -> forall cmp, exists pg cmp',
                row_descend p key cmp = Done (RET_OK, pg, cmp') /\ is_row_int pg = false)).
  - intros t IH Hok cmp. cbn [tree_ok] in Hok.
    apply andb_true_iff in Hok. destruct Hok as [Hok Hall].
    apply andb_true_iff in Hok. destruct Hok as [Hne Hmax].
    apply Z.leb_le in Hne. apply Z.leb_le in Hmax.
    destruct (row_int_step_ok t key cmp Hmax Hne) as [cmp' [c [r [E [Hr _]]]]].
    rewrite row_descend_int, E. cbn [bind].
    apply array_get_Some in Hr. destruct Hr as [_ Hr]. rewrite Hr.
    pose proof (nth_error_In _ _ Hr) as Hin.
    rewrite forallb_forall in Hall. specialize (Hall r Hin).
    apply andb_true_iff in Hall. destruct Hall as [Hin_ok Hchild].
    rewrite Forall_forall in IH. specialize (IH r Hin Hchild cmp').
    unfold step_down. destruct (__wt_page_in r); try discriminate. exact IH.
  - intros p Hp _ cmp. exists p, cmp. split; [apply row_descend_leaf; exact Hp|exact Hp].
Qed.

Lemma row_descend_error :
  forall p cmp ret pg cmp',
    row_descend p key cmp = Done (ret, pg, cmp') -> ret <> RET_OK ->
    exists r, __wt_page_in r = ret.
Proof.
  apply (page_forall_ind
           (fun p => forall cmp ret pg cmp',
                row_descend p key cmp = Done (ret, pg, cmp') -> ret <> RET_OK ->
                exists r, __wt_page_in r = ret)).
  - intros t IH cmp ret pg cmp' E Hret. rewrite row_descend_int in E.
    destruct (row_int_step t key cmp) as [[cmp1 c]| |]; cbn [bind] in E; try discriminate.
    destruct (nth_error t (Z.to_nat c)) as [r|] eqn:Hr; [|discriminate].
    pose proof (nth_error_In _ _ Hr) as Hin.
    rewrite Forall_forall in IH. specialize (IH r Hin).
    unfold step_down in E. destruct (__wt_page_in r) eqn:Hin_r.
    + apply (IH _ _ _ _ E Hret).
    + injection E as <- _ _. exists r. exact Hin_r.
    + injection E as <- _ _. exists r. exact Hin_r.
  - intros p Hp cmp ret pg cmp' E Hret.
    rewrite (row_descend_leaf p cmp Hp) in E. injection E as <- _ _. contradiction.
Qed.

End Descent.

(** X5: in a tree whose internal pages all have between one and
    [UINT32_MAX] routing entries and whose children can all be brought
    in, the descent of a row search ends, without a failed assertion or
    an error, at a page that is not a row-store internal page. *)
Theorem row_descend_total `{BtreeEnv} :
  forall (root : WT_PAGE) (key : WT_ITEM) (cmp : Z),
    tree_ok root = true ->
    exists pg cmp',
      row_descend root key cmp = Done (RET_OK, pg, cmp') /\ is_row_int pg = false.
Proof.
  intros root key cmp Hok. apply (row_descend_reaches_leaf key root Hok cmp).
Qed.

(** The descent through the demo tree ends at a leaf. *)
Lemma row_descend_total_witness :
  exists pg cmp',
    row_descend demo_root "c"%string (-1) = Done (RET_OK, pg, cmp') /\
    is_row_int pg = false.
Proof.
  apply (row_descend_total demo_root "c"%string (-1)). vm_compute. reflexivity.
Defined.

(** X6: an error code the descent of a row search ends with is the code
    a [__wt_page_in] returned, and the search returns it with the cursor
    as [__search_reset] left it: no page, no slot, no match. *)
Theorem row_search_page_in_error `{BtreeEnv} :
  forall (root : WT_PAGE) (cbt : WT_CURSOR_BTREE) (is_modify : bool)
         (ret : ret_code) (pg : WT_PAGE) (cmp : Z),
    row_descend root (buf_data (cur_key (iface cbt))) (-1) = Done (ret, pg, cmp) ->
    ret <> RET_OK ->
    (exists r, __wt_page_in r = ret) /\
    __wt_row_search root cbt is_modify = Done (ret, __search_reset cbt) /\
    page (__search_reset cbt) = None /\
    cbt_match (__search_reset cbt) = false /\
    slot (__search_reset cbt) = UINT32_MAX.
Proof.
  intros root cbt is_modify ret pg cmp E Hret. split.
  - apply (row_descend_error _ root (-1) ret pg cmp E Hret).
  - split; [|repeat split].
    unfold __wt_row_search. rewrite E. cbn [bind].
    destruct ret; [contradiction| |]; reflexivity.
Qed.

(** The search in the demo tree when no page can be read. *)
Lemma row_search_page_in_error_witness :
  @__wt_row_search io_error_env demo_root (cbt_for "c"%string) false
  = Done (WT_ERROR 5, @__search_reset (cbt_for "c"%string)).
Proof.
  destruct (@row_search_page_in_error io_error_env demo_root (cbt_for "c"%string) false
              (WT_ERROR 5) demo_root 1) as (_ & Hres & _).
  - vm_compute. reflexivity.
  - discriminate.
  - exact Hres.
Defined.

(** ** The walk over the pages *)

Section PrevWalk.
Context `{BtreeEnv}.

Lemma iter_frame_refl a : iter_frame a a.
Proof. unfold iter_frame. auto. Qed.

Lemma iter_frame_trans a b c : iter_frame a b -> iter_frame b c -> iter_frame a c.
Proof.
  unfold iter_frame. intros (Hp & Hk & Hv) (Hp' & Hk' & Hv').
  rewrite Hp', Hk', Hv'. auto.
Qed.

(** The body of the fixed-length walk over an insert list. *)
Lemma prev_fix_body_frame c a p n s s' b :
  iter_frame a (snd s) -> prev_fix_body c p n s = Done (s', b) -> iter_frame a (snd s').
Proof.
  destruct s as [state cbt]. unfold prev_fix_body. simpl. intros Hs E.
  destruct (negb (recno cbt =? ins_key n)).
  - injection E as <- _. exact Hs.
  - destruct (cbt_ins_node (fix_store c) cbt) as [m| |]; cbn [bind] in E; try discriminate.
    destruct (WT_UPDATE_DELETED_ISSET (ins_upd m)); injection E as <- _; exact Hs.
Qed.

Lemma prev_fix_loop_frame c :
  forall fuel cbt ret cbt',
    prev_fix_loop fuel c cbt = Done (ret, cbt') -> iter_frame cbt cbt'.
Proof.
  induction fuel as [|fuel IH]; intros cbt ret cbt' E; cbn [prev_fix_loop] in E.
  - destruct (nslots cbt =? 0); [|discriminate]. injection E as _ <-. apply iter_frame_refl.
  - destruct (nslots cbt =? 0); [injection E as _ <-; apply iter_frame_refl|].
    set (a := set_recnop cbt (recno cbt)) in *.
    assert (Ha : iter_frame cbt a) by (unfold iter_frame; auto).
    assert (Hwalk : forall s,
               (match ins_head a with
                | None => Done (NOTFOUND, a)
                | Some _ =>
                    WT_SKIP_FOREACH (fix_store c) (ins_head a) (prev_fix_body c) (NOTFOUND, a)
                end) = Done s -> iter_frame cbt (snd s)).
    { intros s Es. destruct (ins_head a).
      - unfold WT_SKIP_FOREACH in Es.
        destruct (WT_SKIP_FIRST (Some w)) as [first| |]; cbn [bind] in Es; try discriminate.
        apply (skip_fold_inv (fun s => iter_frame cbt (snd s)) (fix_store c) (prev_fix_body c)
                 (prev_fix_body_frame c cbt) _ _ (NOTFOUND, a) _ Ha Es).
      - injection Es as <-. exact Ha. }
    destruct (match ins_head a with
              | None => Done (NOTFOUND, a)
              | Some _ =>
                  WT_SKIP_FOREACH (fix_store c) (ins_head a) (prev_fix_body c) (NOTFOUND, a)
              end) as [[state cbt1]| |]; cbn [bind] in E; try discriminate.
    pose proof (Hwalk (state, cbt1) eq_refl) as H1. simpl in H1.
    assert (Hnext : iter_frame cbt (prev_fix_next cbt1)).
    { apply (iter_frame_trans _ _ _ H1). unfold iter_frame. auto. }
    destruct state.
    + apply (iter_frame_trans _ _ _ Hnext). apply (IH _ _ _ E).
    + injection E as _ <-. exact Hnext.
    + destruct (__bit_getv_recno c (recno cbt1)) as [v| |]; cbn [bind] in E; try discriminate.
      destruct (__wt_buf_set (byte_string v) 1) as [[| |code] buf];
        injection E as _ <-; exact H1.
Qed.

Lemma prev_fix_frame c cbt newpage ret cbt' :
  __prev_fix cbt c newpage = Done (ret, cbt') -> iter_frame cbt cbt'.
Proof.
  unfold __prev_fix. destruct newpage.
  - destruct (WT_COL_INSERT_SINGLE c) as [h0| |]; cbn [bind]; try discriminate.
    intros E. apply prev_fix_loop_frame in E.
    apply (iter_frame_trans _ _ _ ltac:(unfold iter_frame; cbn; auto) E).
  - cbn [bind]. apply prev_fix_loop_frame.
Qed.

Lemma prev_var_body_frame c a p n s s' b :
  iter_frame a (snd s) -> prev_var_body c p n s = Done (s', b) -> iter_frame a (snd s').
Proof.
  destruct s as [state cbt]. unfold prev_var_body. simpl. intros Hs E.
  destruct (cbt_ins_node (var_store c) cbt) as [m| |]; cbn [bind] in E; try discriminate.
  destruct (negb (recno cbt =? ins_key m)).
  - injection E as <- _. exact Hs.
  - destruct (WT_UPDATE_DELETED_ISSET (ins_upd m)); injection E as <- _; exact Hs.
Qed.

Lemma prev_var_run_frame c :
  forall fuel cbt state r cbt',
    prev_var_run fuel c cbt state = Done (r, cbt') -> iter_frame cbt cbt'.
Proof.
  induction fuel as [|fuel IH]; intros cbt state r cbt' E; cbn [prev_var_run] in E.
  - destruct (rle_return_cnt cbt >? 0); [discriminate|].
    injection E as _ <-. apply iter_frame_refl.
  - destruct (rle_return_cnt cbt >? 0); [|injection E as _ <-; apply iter_frame_refl].
    set (a := set_recno (set_recnop (set_rle_return_cnt cbt (rle_return_cnt cbt - 1)) _) _) in *.
    assert (Ha : iter_frame cbt a) by (unfold iter_frame; auto).
    assert (Hwalk : forall s,
               (match ins_head a with
                | None => Done (state, a)
                | Some _ =>
                    WT_SKIP_FOREACH (var_store c) (ins_head a) (prev_var_body c) (state, a)
                end) = Done s -> iter_frame cbt (snd s)).
    { intros s Es. destruct (ins_head a).
      - unfold WT_SKIP_FOREACH in Es.
        destruct (WT_SKIP_FIRST (Some w)) as [first| |]; cbn [bind] in Es; try discriminate.
        apply (skip_fold_inv (fun s => iter_frame cbt (snd s)) (var_store c) (prev_var_body c)
                 (prev_var_body_frame c cbt) _ _ (state, a) _ Ha Es).
      - injection Es as <-. exact Ha. }
    destruct (match ins_head a with
              | None => Done (state, a)
              | Some _ =>
                  WT_SKIP_FOREACH (var_store c) (ins_head a) (prev_var_body c) (state, a)
              end) as [[state1 cbt1]| |]; cbn [bind] in E; try discriminate.
    pose proof (Hwalk (state1, cbt1) eq_refl) as H1. simpl in H1.
    destruct state1.
    + apply (iter_frame_trans _ _ _ H1). apply (IH _ _ _ _ E).
    + injection E as _ <-. exact H1.
    + injection E as _ <-. apply (iter_frame_trans _ _ _ H1). unfold iter_frame. auto.
Qed.

Lemma prev_var_newcell_frame c cbt unpack r :
  prev_var_newcell c cbt unpack = Done r ->
  match r with
  | CellSkipped cbt' _ => iter_frame cbt cbt'
  | CellReady cbt' _ _ => iter_frame cbt cbt'
  | CellError _ cbt' => iter_frame cbt cbt'
  end.
Proof.
  unfold prev_var_newcell.
  destruct (WT_COL_PTR c (cip cbt)) as [cell| |]; cbn [bind]; try discriminate.
  destruct cell as [ce|].
  - destruct (WT_COL_INSERT c _) as [h0| |]; cbn [bind]; try discriminate.
    destruct (_ && _).
    + intros E. injection E as <-. unfold iter_frame. auto.
    + destruct (__wt_cell_unpack_copy (__wt_cell_unpack ce)) as [[| |code] buf];
        intros E; injection E as <-; unfold iter_frame; auto.
  - destruct (WT_COL_INSERT c _) as [h0| |]; cbn [bind]; try discriminate.
    destruct (_ && _); intros E; injection E as <-; unfold iter_frame; auto.
Qed.

Lemma prev_var_loop_frame c :
  forall fuel cbt unpack newcell ret cbt',
    prev_var_loop fuel c cbt unpack newcell = Done (ret, cbt') -> iter_frame cbt cbt'.
Proof.
  induction fuel as [|fuel IH]; intros cbt unpack newcell ret cbt' E;
    cbn [prev_var_loop] in E.
  - destruct (_ || _); [discriminate|]. injection E as _ <-. apply iter_frame_refl.
  - destruct (_ || _); [|injection E as _ <-; apply iter_frame_refl].
    assert (Hnext : forall x, iter_frame x (prev_var_next x)) by (intro; unfold iter_frame; auto).
    destruct newcell.
    + destruct (prev_var_newcell c cbt unpack) as [r| |] eqn:En; cbn [bind] in E;
        try discriminate.
      pose proof (prev_var_newcell_frame c cbt unpack r En) as Hr.
      destruct r as [cbt1 u1|cbt1 u1 ce|ret1 cbt1].
      * apply (iter_frame_trans _ _ _ Hr). apply (iter_frame_trans _ _ _ (Hnext cbt1)).
        apply (IH _ _ _ _ _ E).
      * destruct (prev_var_run _ c cbt1 NOTFOUND) as [[returned cbt2]| |] eqn:Er;
          cbn [bind] in E; try discriminate.
        apply prev_var_run_frame in Er. apply (iter_frame_trans _ _ _ Hr).
        apply (iter_frame_trans _ _ _ Er). destruct returned.
        -- injection E as _ <-. apply iter_frame_refl.
        -- apply (iter_frame_trans _ _ _ (Hnext cbt2)). apply (IH _ _ _ _ _ E).
      * injection E as _ <-. exact Hr.
    + cbn [bind] in E.
      destruct (prev_var_run _ c cbt NOTFOUND) as [[returned cbt2]| |] eqn:Er;
        cbn [bind] in E; try discriminate.
      apply prev_var_run_frame in Er. apply (iter_frame_trans _ _ _ Er). destruct returned.
      * injection E as _ <-. apply iter_frame_refl.
      * apply (iter_frame_trans _ _ _ (Hnext cbt2)). apply (IH _ _ _ _ _ E).
Qed.

Lemma prev_var_frame c fuel cbt newpage u ret cbt' :
  __prev_var fuel cbt c newpage u = Done (ret, cbt') -> iter_frame cbt cbt'.
Proof.
  unfold __prev_var. intros E. apply prev_var_loop_frame in E.
  destruct newpage; [|exact E].
  apply (iter_frame_trans _ _ _ ltac:(unfold iter_frame; cbn; auto) E).
Qed.

Lemma prev_row_slot_frame l cbt r cbt' :
  prev_row_slot l cbt = Done (r, cbt') -> iter_frame cbt cbt'.
Proof.
  unfold prev_row_slot.
  destruct (negb (WT_CBT_RET_SLOT cbt) && (slot cbt =? 0)).
  { intros E. injection E as _ <-. apply iter_frame_refl. }
  set (c1 := if WT_CBT_RET_SLOT cbt then set_RET_SLOT cbt false
             else set_slot cbt (u32 (slot cbt - 1))).
  assert (H1 : iter_frame cbt c1).
  { unfold c1. destruct (WT_CBT_RET_SLOT cbt); unfold iter_frame; auto. }
  destruct (if slot c1 =? 0 then WT_ROW_INSERT_SMALLEST l
            else WT_ROW_INSERT_SLOT l (u32 (slot c1 - 1))) as [h0| |];
    cbn [bind]; try discriminate.
  destruct (count_inserts (row_leaf_store l) (ins_head (set_ins_head c1 h0))) as [cnt| |];
    cbn [bind]; try discriminate.
  set (c2 := set_RET_INSERT (set_ins_entry_cnt (set_ins_head c1 h0) cnt) true).
  assert (H2 : iter_frame cbt c2).
  { apply (iter_frame_trans _ _ _ H1). unfold iter_frame. auto. }
  destruct (WT_ROW_UPDATE l (slot c2)) as [upd| |]; cbn [bind]; try discriminate.
  destruct (match upd with Some u0 => WT_UPDATE_DELETED_ISSET u0 | None => false end).
  { intros E. injection E as _ <-. exact H2. }
  destruct (array_get (row_leaf_d l) (slot c2)) as [row|]; [|discriminate].
  assert (H3 : forall x y, iter_frame cbt (set_valuep (set_keyp c2 x) y)).
  { intros x y. apply (iter_frame_trans _ _ _ H2). unfold iter_frame. auto. }
  assert (H4 : forall x, iter_frame cbt (set_keyp c2 x)).
  { intros x. apply (iter_frame_trans _ _ _ H2). unfold iter_frame. auto. }
  destruct (row_slot_key row) as [[| |code] k]; try (intros E; injection E as _ <-; exact H2).
  destruct upd as [u0|]; [intros E; injection E as _ <-; apply H3|].
  destruct (row_value row) as [cell|]; [|intros E; injection E as _ <-; apply H3].
  destruct (__wt_cell_copy cell) as [[| |code] buf]; intros E; injection E as _ <-;
    (apply H3 || apply H4).
Qed.

Lemma prev_row_loop_frame l :
  forall fuel cbt ret cbt',
    prev_row_loop fuel l cbt = Done (ret, cbt') -> iter_frame cbt cbt'.
Proof.
  induction fuel as [|fuel IH]; intros cbt ret cbt' E; cbn [prev_row_loop] in E;
    [discriminate|].
  destruct (_ && _).
  - destruct (WT_CBT_RET_INSERT cbt).
    + set (c1 := set_RET_INSERT cbt false) in *.
      assert (H1 : iter_frame cbt c1) by (unfold iter_frame; auto).
      cbv iota beta in E.
      destruct (nth_insert (row_leaf_store l) (ins_head c1) (ins_entry_cnt c1)) as [node| |];
        cbn [bind] in E; try discriminate.
      destruct (WT_UPDATE_DELETED_ISSET (ins_upd node)).
      * apply (iter_frame_trans _ _ _ H1). apply (IH _ _ _ E).
      * injection E as _ <-. apply (iter_frame_trans _ _ _ H1). unfold iter_frame. auto.
    + set (c1 := set_ins_entry_cnt cbt (u32 (ins_entry_cnt cbt - 1))) in *.
      assert (H1 : iter_frame cbt c1) by (unfold iter_frame; auto).
      cbv iota beta zeta in E. fold c1 in E.
      destruct (ins_entry_cnt c1 =? 0).
      * apply (iter_frame_trans _ _ _ H1). apply (IH _ _ _ E).
      * destruct (nth_insert (row_leaf_store l) (ins_head c1) (ins_entry_cnt c1))
          as [node| |]; cbn [bind] in E; try discriminate.
        destruct (WT_UPDATE_DELETED_ISSET (ins_upd node)).
        -- apply (iter_frame_trans _ _ _ H1). apply (IH _ _ _ E).
        -- injection E as _ <-. apply (iter_frame_trans _ _ _ H1). unfold iter_frame. auto.
  - destruct (prev_row_slot l cbt) as [[r c1]| |] eqn:Es; cbn [bind] in E; try discriminate.
    apply prev_row_slot_frame in Es. destruct r as [ret1|].
    + injection E as _ <-. exact Es.
    + apply (iter_frame_trans _ _ _ Es). apply (IH _ _ _ E).
Qed.

Lemma prev_row_frame l fuel cbt newpage ret cbt' :
  __prev_row fuel cbt l newpage = Done (ret, cbt') -> iter_frame cbt cbt'.
Proof.
  unfold __prev_row. destruct newpage.
  - destruct (WT_ROW_INSERT_SLOT l _) as [h0| |]; cbn [bind]; try discriminate.
    destruct (WT_SKIP_FIRST _) as [first| |]; cbn [bind]; try discriminate.
    destruct (count_inserts _ _) as [cnt| |]; cbn [bind]; try discriminate.
    intros E. apply prev_row_loop_frame in E.
    apply (iter_frame_trans _ _ _ ltac:(unfold iter_frame; cbn; auto) E).
  - cbn [bind]. apply prev_row_loop_frame.
Qed.

Lemma prev_on_page_frame fuel cbt pg newpage u ret cbt' :
  prev_on_page fuel cbt pg newpage u = Done (ret, cbt') -> iter_frame cbt cbt'.
Proof.
  destruct pg; cbn [prev_on_page]; intros E;
    try (injection E as _ <-; apply iter_frame_refl).
  - apply (prev_row_frame _ _ _ _ _ _ E).
  - apply (prev_fix_frame _ _ _ _ _ E).
  - apply (prev_var_frame _ _ _ _ _ _ _ E).
Qed.

End PrevWalk.

Section PrevLoop.
Context `{BtreeEnv}.

Lemma prev_page_result :
  forall fuel cbt ret cbt',
    prev_page fuel cbt = Done (ret, cbt') ->
    cbt' = set_page cbt (page cbt') /\
    (ret = RET_OK -> exists pg, page cbt' = Some pg /\ is_internal pg = false) /\
    (ret <> RET_OK ->
     (ret = WT_NOTFOUND /\ page cbt' = None) \/
     exists p q, __wt_xxx_np p = (ret, q)).
Proof.
  induction fuel as [|fuel IH]; intros cbt ret cbt' E; cbn [prev_page] in E;
    [discriminate|].
  destruct (__wt_xxx_np (page cbt)) as [r q] eqn:Enp.
  destruct r as [| |code].
  - destruct q as [pg|].
    + destruct (is_internal pg) eqn:Hint.
      * destruct (IH _ _ _ E) as [Hc [Hok Herr]].
        split; [|split; assumption].
        rewrite Hc. destruct cbt; reflexivity.
      * injection E as <- <-. split; [reflexivity|]. split.
        -- intros _. exists pg. split; [reflexivity|exact Hint].
        -- intros Hne. contradiction.
    + injection E as <- <-. split; [reflexivity|]. split; [discriminate|].
      intros _. left. split; reflexivity.
  - injection E as <- <-. split; [reflexivity|]. split; [discriminate|].
    intros _. right. exists (page cbt), q. exact Enp.
  - injection E as <- <-. split; [reflexivity|]. split; [discriminate|].
    intros _. right. exists (page cbt), q. exact Enp.
Qed.

Lemma prev_on_page_ok fuel cbt pg newpage u cbt' :
  prev_on_page fuel cbt pg newpage u = Done (RET_OK, cbt') -> is_leaf pg = true.
Proof. destruct pg; cbn [prev_on_page]; try discriminate; reflexivity. Qed.

Lemma btcur_prev_loop_result :
  forall fuel cbt newpage u ret cbt',
    btcur_prev_loop fuel cbt newpage u = Done (ret, cbt') ->
    WT_CURSTD_KEY_SET (iface cbt') = WT_CURSTD_KEY_SET (iface cbt) /\
    WT_CURSTD_VALUE_SET (iface cbt') = WT_CURSTD_VALUE_SET (iface cbt) /\
    (ret = RET_OK -> exists pg, page cbt' = Some pg /\ is_leaf pg = true).
Proof.
  induction fuel as [|fuel IH]; intros cbt newpage u ret cbt' E;
    cbn [btcur_prev_loop] in E; [discriminate|].
  destruct (page cbt) as [pg|] eqn:Hpg.
  - destruct (prev_on_page fuel cbt pg newpage u) as [[ret1 c1]| |] eqn:Eit;
      cbn [bind] in E; try discriminate.
    pose proof (prev_on_page_frame _ _ _ _ _ _ _ Eit) as (Hp1 & Hk1 & Hv1).
    destruct (ret_is_notfound ret1) eqn:Hnf; cbn [negb] in E.
    + destruct (prev_page fuel c1) as [[ret2 c2]| |] eqn:Ep; cbn [bind] in E;
        try discriminate.
      destruct (prev_page_result _ _ _ _ Ep) as [Hc2 _].
      assert (Hf2 : iface c2 = iface c1) by (rewrite Hc2; reflexivity).
      destruct (ret_is_ok ret2) eqn:Hok2.
      * destruct (IH _ _ _ _ _ E) as (Hk & Hv & Hres).
        rewrite Hk, Hv, Hf2. auto.
      * injection E as <- <-. rewrite Hf2. split; [exact Hk1|]. split; [exact Hv1|].
        intros ->. discriminate.
    + injection E as <- <-. split; [exact Hk1|]. split; [exact Hv1|].
      intros ->. exists pg. split; [rewrite Hp1; exact Hpg|].
      apply (prev_on_page_ok _ _ _ _ _ _ Eit).
  - cbn [bind ret_is_notfound negb] in E.
    destruct (prev_page fuel cbt) as [[ret2 c2]| |] eqn:Ep; cbn [bind] in E;
      try discriminate.
    destruct (prev_page_result _ _ _ _ Ep) as [Hc2 _].
    assert (Hf2 : iface c2 = iface cbt) by (rewrite Hc2; reflexivity).
    destruct (ret_is_ok ret2) eqn:Hok2.
    + destruct (IH _ _ _ _ _ E) as (Hk & Hv & Hres). rewrite Hk, Hv, Hf2. auto.
    + injection E as <- <-. rewrite Hf2. split; [reflexivity|]. split; [reflexivity|].
      intros ->. discriminate.
Qed.

End PrevLoop.

(** X7: the step to the page before, in [__wt_btcur_prev], changes the
    page of the cursor and nothing else.  When it returns 0 the cursor
    holds a page that is not an internal page; when not, there is no
    page before and the code is [WT_NOTFOUND], or the code is one that
    [__wt_xxx_np] returned. *)
Theorem prev_page_skips_internal `{BtreeEnv} :
  forall (fuel : nat) (cbt cbt' : WT_CURSOR_BTREE) (ret : ret_code),
    prev_page fuel cbt = Done (ret, cbt') ->
    cbt' = set_page cbt (page cbt') /\
    (ret = RET_OK -> exists pg, page cbt' = Some pg /\ is_internal pg = false) /\
    (ret <> RET_OK ->
     (ret = WT_NOTFOUND /\ page cbt' = None) \/
     exists p q, __wt_xxx_np p = (ret, q)).
Proof.
  intros fuel cbt cbt' ret E. apply (prev_page_result fuel cbt ret cbt' E).
Qed.

(** In the tree of one fixed-length leaf the page before no page is the leaf. *)
Lemma prev_page_skips_internal_witness :
  exists pg,
    page (set_page cbt0 (Some (WT_PAGE_COL_FIX (fix_page tombstone)))) = Some pg /\
    is_internal pg = false.
Proof.
  destruct (@prev_page_skips_internal (one_leaf_env (WT_PAGE_COL_FIX (fix_page tombstone)))
              1%nat cbt0 (set_page cbt0 (Some (WT_PAGE_COL_FIX (fix_page tombstone)))) RET_OK)
    as (_ & Hok & _).
  - reflexivity.
  - apply Hok. reflexivity.
Defined.

(** X8: when [__wt_btcur_prev] returns 0, the key-set and value-set
    flags of the cursor are set and the cursor holds a leaf page of one
    of the three layouts.  When it returns another code, from a cursor
    that does not come from a search, both flags are clear. *)
Theorem btcur_prev_flags `{BtreeEnv} :
  forall (fuel : nat) (cbt cbt' : WT_CURSOR_BTREE) (u : WT_CELL_UNPACK) (ret : ret_code),
    __wt_btcur_prev fuel cbt u = Done (ret, cbt') ->
    (ret = RET_OK ->
     WT_CURSTD_KEY_SET (iface cbt') = true /\
     WT_CURSTD_VALUE_SET (iface cbt') = true /\
     exists pg, page cbt' = Some pg /\ is_leaf pg = true) /\
    (ret <> RET_OK -> WT_CBT_SEARCH_SET cbt = false ->
     WT_CURSTD_KEY_SET (iface cbt') = false /\
     WT_CURSTD_VALUE_SET (iface cbt') = false).
Proof.
  intros fuel cbt cbt' u ret E. rewrite btcur_prev_unfold in E.
  destruct (prev_setup cbt) as [r0 cbt1] eqn:Hsetup.
  destruct r0 as [| |code].
  - destruct (btcur_prev_loop fuel cbt1 false u) as [[ret1 c1]| |] eqn:El;
      cbn [bind] in E; try discriminate.
    destruct (btcur_prev_loop_result _ _ _ _ _ _ El) as (Hk & Hv & Hpage).
    destruct ret1 as [| |code]; cbn [ret_is_ok] in E; injection E as <- <-.
    + split; [|intros Hne; contradiction]. intros _.
      split; [reflexivity|]. split; [reflexivity|]. apply Hpage. reflexivity.
    + split; [discriminate|]. intros _ Hss.
      unfold prev_setup in Hsetup. cbn in Hsetup. rewrite Hss in Hsetup.
      injection Hsetup as <-. rewrite Hk, Hv. split; reflexivity.
    + split; [discriminate|]. intros _ Hss.
      unfold prev_setup in Hsetup. cbn in Hsetup. rewrite Hss in Hsetup.
      injection Hsetup as <-. rewrite Hk, Hv. split; reflexivity.
  - injection E as <- <-. split; [discriminate|]. intros _ Hss.
    unfold prev_setup in Hsetup. cbn in Hsetup. rewrite Hss in Hsetup. discriminate.
  - injection E as <- <-. split; [discriminate|]. intros _ Hss.
    unfold prev_setup in Hsetup. cbn in Hsetup. rewrite Hss in Hsetup. discriminate.
Qed.

(** [prev ()] on the empty demo tree leaves both flags clear. *)
Lemma btcur_prev_flags_witness :
  WT_CURSTD_KEY_SET (iface (set_page (clear_std_flags cbt0) None)) = false /\
  WT_CURSTD_VALUE_SET (iface (set_page (clear_std_flags cbt0) None)) = false.
Proof.
  destruct (btcur_prev_flags 2 cbt0 (set_page (clear_std_flags cbt0) None)
              unpack_garbage WT_NOTFOUND) as [_ Hclear].
  - reflexivity.
  - apply Hclear; [discriminate|reflexivity].
Defined.

(** ** A fixed-length page read to its start *)

Section PrevFixSequence.
Context `{BtreeEnv}.
Variable c : COL_FIX.
Hypothesis Hbase : 0 <= fix_recno c.
Hypothesis Htop : fix_recno c + len (fix_bitf c) <= 2 ^ 64.
Hypothesis Hmax : len (fix_bitf c) <= UINT32_MAX.
Hypothesis Hbuf : forall s n, fst (__wt_buf_set s n) = RET_OK.

(** One call on a cursor that stands on a record and has no insert list. *)
Lemma prev_fix_plain_step cbt :
  fix_inv c cbt -> nslots cbt <> 0 -> ins_head cbt = None ->
  exists cbt' v,
    __prev_fix cbt c false = Done (RET_OK, cbt') /\
    array_get (fix_bitf c) (nslots cbt - 1) = Some v /\
    cur_recno (iface cbt') = fix_recno c + nslots cbt - 1 /\
    cur_value (iface cbt') = mkBuf (buf_data (snd (__wt_buf_set (byte_string v) 1))) 1 /\
    nslots cbt' = nslots cbt - 1 /\
    ins_head cbt' = None /\
    fix_inv c cbt'.
Proof.
  intros Hinv Hnz Hhead.
  destruct (fix_inv_read c Hbase Htop Hmax cbt Hinv Hnz) as [Hrange [[v Hv] Hnext]].
  pose proof Hinv as [Hn Hr]. specialize (Hr Hnz).
  unfold __prev_fix. cbn [bind].
  assert (Hfuel : exists f, Z.to_nat (nslots cbt) = S f).
  { exists (Z.to_nat (nslots cbt) - 1)%nat. lia. }
  destruct Hfuel as [f ->]. cbn [prev_fix_loop].
  destruct (Z.eqb_spec (nslots cbt) 0) as [Hz|_]; [contradiction|].
  assert (Hh : ins_head (set_recnop cbt (recno cbt)) = None) by exact Hhead.
  rewrite Hh. cbn [bind].
  change (recno (set_recnop cbt (recno cbt))) with (recno cbt). rewrite Hv. cbn [bind].
  pose proof (Hbuf (byte_string v) 1) as Hb.
  destruct (__wt_buf_set (byte_string v) 1) as [r buf] eqn:Eb. simpl in Hb. subst r.
  eexists. exists v. split; [reflexivity|].
  split.
  { unfold __bit_getv_recno in Hv. rewrite Hr in Hv.
    replace (fix_recno c + nslots cbt - 1 - fix_recno c) with (nslots cbt - 1) in Hv by lia.
    destruct (array_get (fix_bitf c) (nslots cbt - 1)); [|discriminate].
    injection Hv as ->. reflexivity. }
  split; [cbn; exact Hr|]. split; [cbn; rewrite Eb; reflexivity|].
  split; [cbn; apply u32_small; lia|]. split; [exact Hhead|].
  exact Hnext.
Qed.

(** The calls on a page without insert list, one after the other. *)
Lemma fix_call_plain cbt :
  fix_ins c = None ->
  forall k, Z.of_nat k < len (fix_bitf c) ->
  exists cbt' v,
    fix_call c k cbt = Done (RET_OK, cbt') /\
    array_get (fix_bitf c) (len (fix_bitf c) - 1 - Z.of_nat k) = Some v /\
    cur_recno (iface cbt') = fix_recno c + len (fix_bitf c) - 1 - Z.of_nat k /\
    cur_value (iface cbt') = mkBuf (buf_data (snd (__wt_buf_set (byte_string v) 1))) 1 /\
    nslots cbt' = len (fix_bitf c) - 1 - Z.of_nat k /\
    ins_head cbt' = None /\
    fix_inv c cbt'.
Proof.
  intros Hins.
  assert (Hh : WT_COL_INSERT_SINGLE c = Done None).
  { unfold WT_COL_INSERT_SINGLE, insert_array_get. rewrite Hins. reflexivity. }
  induction k as [|k IH]; intros Hk.
  - cbn [fix_call].
    destruct (prev_fix_newpage c Hbase Htop Hmax cbt None Hh) as [Hinv [Hn ->]].
    set (cbt0 := set_recno _ _) in *.
    destruct (prev_fix_plain_step cbt0 Hinv ltac:(lia) eq_refl)
      as [cbt' [v (E & Hv & Hr & Hval & Hns & Hhd & Hinv')]].
    exists cbt', v. rewrite Hn in *.
    replace (len (fix_bitf c) - 1 - Z.of_nat 0) with (len (fix_bitf c) - 1) by lia.
    replace (fix_recno c + len (fix_bitf c) - 1 - Z.of_nat 0)
      with (fix_recno c + len (fix_bitf c) - 1) by lia.
    auto 10.
  - destruct (IH ltac:(lia)) as [cbt1 [v1 (E1 & _ & _ & _ & Hns1 & Hhd1 & Hinv1)]].
    cbn [fix_call]. rewrite E1. cbn [bind].
    destruct (prev_fix_plain_step cbt1 Hinv1 ltac:(lia) Hhd1)
      as [cbt' [v (E & Hv & Hr & Hval & Hns & Hhd & Hinv')]].
    exists cbt', v. rewrite Hns1 in *.
    replace (len (fix_bitf c) - 1 - Z.of_nat (S k))
      with (len (fix_bitf c) - 1 - Z.of_nat k - 1) by lia.
    replace (fix_recno c + len (fix_bitf c) - 1 - Z.of_nat (S k))
      with (fix_recno c + (len (fix_bitf c) - 1 - Z.of_nat k) - 1) by lia.
    auto 10.
Qed.

End PrevFixSequence.

(** X9: on a fixed-length page without insert list (and with a scratch
    buffer that can always be set) the calls of the iterator, the first
    for a new page, return the records of the page from the last to the
    first: call [k] returns record number [recno + entries - 1 - k] with
    the value the page holds for it.  The call after the first record
    returns [WT_NOTFOUND]. *)
Theorem prev_fix_reads_page_backward `{BtreeEnv} :
  forall (c : COL_FIX) (cbt : WT_CURSOR_BTREE),
    0 <= fix_recno c ->
    fix_recno c + len (fix_bitf c) <= 2 ^ 64 ->
    len (fix_bitf c) <= UINT32_MAX ->
    (forall s n, fst (__wt_buf_set s n) = RET_OK) ->
    fix_ins c = None ->
    (forall k, Z.of_nat k < len (fix_bitf c) ->
       exists cbt' v,
         fix_call c k cbt = Done (RET_OK, cbt') /\
         array_get (fix_bitf c) (len (fix_bitf c) - 1 - Z.of_nat k) = Some v /\
         cur_recno (iface cbt') = fix_recno c + len (fix_bitf c) - 1 - Z.of_nat k /\
         cur_value (iface cbt')
         = mkBuf (buf_data (snd (__wt_buf_set (byte_string v) 1))) 1) /\
    (exists cbt', fix_call c (length (fix_bitf c)) cbt = Done (WT_NOTFOUND, cbt')).
Proof.
  intros c cbt Hbase Htop Hmax Hbuf Hins. split.
  - intros k Hk.
    destruct (fix_call_plain c Hbase Htop Hmax Hbuf cbt Hins k Hk)
      as [cbt' [v (E & Hv & Hr & Hval & _)]].
    exists cbt', v. auto.
  - destruct (length (fix_bitf c)) as [|n] eqn:Hlen.
    + cbn [fix_call]. unfold __prev_fix, WT_COL_INSERT_SINGLE, insert_array_get.
      rewrite Hins. cbn [bind]. unfold len. rewrite Hlen. cbn. eauto.
    + destruct (fix_call_plain c Hbase Htop Hmax Hbuf cbt Hins n)
        as [cbt1 [v (E & _ & _ & _ & Hns & _)]]; [unfold len; lia|].
      cbn [fix_call]. rewrite E. cbn [bind].
      exists cbt1. apply prev_fix_end. unfold len in Hns. lia.
Qed.

(** A fixed-length page of four records, read from its end. *)
Lemma prev_fix_reads_page_backward_witness :
  (exists cbt' v,
      fix_call (mkColFix 100 [65; 66; 67; 68] None []) 1 cbt0 = Done (RET_OK, cbt') /\
      array_get [65; 66; 67; 68] (4 - 1 - 1) = Some v /\
      cur_recno (iface cbt') = 100 + 4 - 1 - 1 /\
      cur_value (iface cbt') = mkBuf (buf_data (snd (__wt_buf_set (byte_string v) 1))) 1) /\
  (exists cbt', fix_call (mkColFix 100 [65; 66; 67; 68] None []) 4 cbt0
                = Done (WT_NOTFOUND, cbt')).
Proof.
  destruct (prev_fix_reads_page_backward (mkColFix 100 [65; 66; 67; 68] None []) cbt0)
    as [Hcalls Hend]; try reflexivity; try (vm_compute; discriminate).
  split; [|exact Hend]. apply (Hcalls 1%nat). vm_compute. reflexivity.
Defined.

(** ** A repeated cell of a variable-length page *)

Lemma u64_sub_idem (a b : Z) : u64 (u64 a - b) = u64 (a - b).
Proof. unfold u64. apply Zminus_mod_idemp_l. Qed.

Section PrevVarRun.
Context `{BtreeEnv}.
Variable c : COL_VAR.

(** One call inside a run: the cursor has records of the run left to
    return and the slot has no insert list. *)
Lemma prev_var_in_run fuel cbt u :
  0 < rle_return_cnt cbt -> ins_head cbt = None ->
  __prev_var (S fuel) cbt c false u
  = Done (RET_OK,
          set_valuep
            (set_recno
               (set_recnop (set_rle_return_cnt cbt (rle_return_cnt cbt - 1)) (recno cbt))
               (u64 (recno cbt - 1)))
            (value cbt)).
Proof.
  intros Hk Hhead. unfold __prev_var. cbn [prev_var_loop].
  destruct (Z.gtb_spec (rle_return_cnt cbt) 0) as [_|Hle]; [|lia]. cbn [orb bind].
  assert (Hfuel : exists f, Z.to_nat (rle_return_cnt cbt) = S f).
  { exists (Z.to_nat (rle_return_cnt cbt) - 1)%nat. lia. }
  destruct Hfuel as [f ->]. cbn [prev_var_run].
  destruct (Z.gtb_spec (rle_return_cnt cbt) 0) as [_|Hle]; [|lia].
  match goal with
  | |- context [match ins_head ?x with _ => _ end] =>
      assert (Hh : ins_head x = None) by exact Hhead; rewrite Hh
  end.
  reflexivity.
Qed.

(** The first call on a cell that holds a value: the cell is unpacked
    and copied, and the last record of the run is returned. *)
Lemma prev_var_enter_cell fuel cbt u i cell buf :
  nslots cbt > 0 ->
  cip cbt = Some i ->
  array_get (var_d c) i = Some (Some cell) ->
  unpack_type (__wt_cell_unpack cell) <> WT_CELL_DEL ->
  0 < unpack_rle (__wt_cell_unpack cell) ->
  WT_COL_INSERT c i = Done None ->
  __wt_cell_unpack_copy (__wt_cell_unpack cell) = (RET_OK, buf) ->
  prev_var_loop (S fuel) c cbt u true
  = Done (RET_OK,
          set_valuep
            (set_recno
               (set_recnop
                  (set_rle_return_cnt
                     (set_value (set_ins_head cbt None) buf)
                     (unpack_rle (__wt_cell_unpack cell) - 1))
                  (recno cbt))
               (u64 (recno cbt - 1)))
            buf).
Proof.
  intros Hn Hcip Hcell Htype Hrle Hins Hcopy. cbn [prev_var_loop].
  destruct (Z.gtb_spec (nslots cbt) 0) as [_|Hle]; [|lia]. rewrite orb_true_r.
  unfold prev_var_newcell, WT_COL_PTR. rewrite Hcip, Hcell. cbn [bind].
  unfold cip_slot. cbn [cip set_rle_return_cnt]. rewrite Hcip, Hins. cbn [bind].
  cbn [ins_head set_ins_head andb].
  destruct (unpack_type (__wt_cell_unpack cell)) eqn:Ht; [contradiction| |];
    cbn [cell_type_eqb]; rewrite Hcopy; cbn [bind];
    set (R := unpack_rle (__wt_cell_unpack cell)) in *;
    (assert (Hfuel : exists f, Z.to_nat R = S f)
       by (exists (Z.to_nat R - 1)%nat; lia));
    destruct Hfuel as [f Hf]; cbn [rle_return_cnt set_value set_ins_head set_rle_return_cnt];
    rewrite Hf; cbn [prev_var_run];
    cbn [rle_return_cnt set_value set_ins_head set_rle_return_cnt];
    (destruct (Z.gtb_spec R 0) as [_|Hle]; [|lia]); reflexivity.
Qed.

End PrevVarRun.

Section PrevVarSequence.
Context `{BtreeEnv}.
Variable c : COL_VAR.
Variable cell : WT_CELL.
Variable buf : WT_BUF.
Hypothesis Hne : 1 <= len (var_d c).
Hypothesis Hmax : len (var_d c) <= UINT32_MAX.
Hypothesis Hcell : array_get (var_d c) (len (var_d c) - 1) = Some (Some cell).
Hypothesis Htype : unpack_type (__wt_cell_unpack cell) <> WT_CELL_DEL.
Hypothesis Hrle : 0 < unpack_rle (__wt_cell_unpack cell).
Hypothesis Hins : WT_COL_INSERT c (len (var_d c) - 1) = Done None.
Hypothesis Hcopy : __wt_cell_unpack_copy (__wt_cell_unpack cell) = (RET_OK, buf).

Lemma var_call_last_cell fuel u cbt :
  forall k, Z.of_nat k < unpack_rle (__wt_cell_unpack cell) ->
  exists cbt',
    var_call c (S fuel) u k cbt = Done (RET_OK, cbt') /\
    cur_recno (iface cbt') = u64 (var_recno c + (len (var_d c) - 1) - Z.of_nat k) /\
    cur_value (iface cbt') = buf /\
    recno cbt' = u64 (var_recno c + (len (var_d c) - 1) - Z.of_nat k - 1) /\
    rle_return_cnt cbt' = unpack_rle (__wt_cell_unpack cell) - 1 - Z.of_nat k /\
    ins_head cbt' = None /\
    value cbt' = buf /\
    nslots cbt' = len (var_d c).
Proof.
  induction k as [|k IH]; intros Hk.
  - cbn [var_call]. unfold __prev_var.
    rewrite (u32_small (len (var_d c) - 1)) by lia.
    set (c0 := set_recno _ _).
    rewrite (prev_var_enter_cell c fuel c0 u (len (var_d c) - 1) cell buf);
      try assumption; try reflexivity; [|unfold c0; cbn; lia].
    eexists. split; [reflexivity|]. unfold c0. cbn.
    rewrite u64_sub_idem.
    replace (var_recno c + (len (var_d c) - 1) - 0) with (var_recno c + (len (var_d c) - 1))
      by lia.
    repeat split; try reflexivity. lia.
  - destruct (IH ltac:(lia)) as [c1 (E1 & _ & _ & Hr1 & Hrle1 & Hh1 & Hv1 & Hn1)].
    cbn [var_call]. rewrite E1. cbn [bind].
    rewrite (prev_var_in_run c fuel c1 u) by (try assumption; lia).
    eexists. split; [reflexivity|]. cbn.
    rewrite Hr1, Hrle1, Hh1, Hv1, Hn1. rewrite u64_sub_idem.
    repeat split; try reflexivity; try (f_equal; lia); lia.
Qed.

(** After the run of the only cell of a page: the start of the page. *)
Lemma var_call_page_end fuel u cbt :
  rle_return_cnt cbt = 0 -> nslots cbt = 1 ->
  exists cbt', __prev_var (S fuel) cbt c false u = Done (WT_NOTFOUND, cbt').
Proof.
  intros Hr Hn. unfold __prev_var. cbn [prev_var_loop].
  rewrite Hr, Hn. cbn [Z.gtb Z.compare orb bind].
  rewrite Hr. change (Z.to_nat 0) with 0%nat. cbn [prev_var_run].
  rewrite Hr. cbn [Z.gtb Z.compare bind].
  assert (Hcond : (rle_return_cnt (prev_var_next cbt) >? 0)
                  || (nslots (prev_var_next cbt) >? 0) = false).
  { unfold prev_var_next. cbn [rle_return_cnt nslots set_nslots set_cip].
    rewrite Hr, Hn. reflexivity. }
  destruct fuel; cbn [prev_var_loop]; rewrite Hcond; eauto.
Qed.

End PrevVarSequence.

(** X10: on a variable-length page whose last cell holds a value with
    repeat count [R] and has no insert list, the first [R] calls of the
    iterator, the first for a new page, all return the value of the cell,
    copied once, with record numbers that go down by one from
    [recno + entries - 1].  If the cell is the only one of the page the
    call after them returns [WT_NOTFOUND]. *)
Theorem prev_var_repeats_value `{BtreeEnv} :
  forall (c : COL_VAR) (cell : WT_CELL) (buf : WT_BUF) (fuel : nat)
         (u : WT_CELL_UNPACK) (cbt : WT_CURSOR_BTREE),
    1 <= len (var_d c) ->
    len (var_d c) <= UINT32_MAX ->
    array_get (var_d c) (len (var_d c) - 1) = Some (Some cell) ->
    unpack_type (__wt_cell_unpack cell) <> WT_CELL_DEL ->
    0 < unpack_rle (__wt_cell_unpack cell) ->
    WT_COL_INSERT c (len (var_d c) - 1) = Done None ->
    __wt_cell_unpack_copy (__wt_cell_unpack cell) = (RET_OK, buf) ->
    (forall k, Z.of_nat k < unpack_rle (__wt_cell_unpack cell) ->
       exists cbt',
         var_call c (S fuel) u k cbt = Done (RET_OK, cbt') /\
         cur_recno (iface cbt') = u64 (var_recno c + (len (var_d c) - 1) - Z.of_nat k) /\
         cur_value (iface cbt') = buf) /\
    (len (var_d c) = 1 ->
     exists cbt',
       var_call c (S fuel) u (Z.to_nat (unpack_rle (__wt_cell_unpack cell))) cbt
       = Done (WT_NOTFOUND, cbt')).
Proof.
  intros c cell buf fuel u cbt Hne Hmax Hcell Htype Hrle Hins Hcopy. split.
  - intros k Hk.
    destruct (var_call_last_cell c cell buf Hne Hmax Hcell Htype Hrle Hins Hcopy
                fuel u cbt k Hk) as [cbt' (E & Hr & Hv & _)].
    exists cbt'. auto.
  - intros Hone.
    destruct (Z.to_nat (unpack_rle (__wt_cell_unpack cell))) as [|k] eqn:Hk; [lia|].
    destruct (var_call_last_cell c cell buf Hne Hmax Hcell Htype Hrle Hins Hcopy
                fuel u cbt k ltac:(lia)) as [c1 (E & _ & _ & _ & Hrle1 & _ & _ & Hn1)].
    cbn [var_call]. rewrite E. cbn [bind].
    apply (var_call_page_end c fuel u c1); lia.
Qed.

(** A page with one cell, [V] three times: three calls return [V]. *)
Lemma prev_var_repeats_value_witness :
  (exists cbt',
      var_call (var_page_plain 3) 1 unpack_garbage 2 cbt0 = Done (RET_OK, cbt') /\
      cur_recno (iface cbt') = u64 (100 + (1 - 1) - 2) /\
      cur_value (iface cbt') = mkBuf "V" 1) /\
  (exists cbt',
      var_call (var_page_plain 3) 1 unpack_garbage 3 cbt0 = Done (WT_NOTFOUND, cbt')).
Proof.
  destruct (prev_var_repeats_value (var_page_plain 3)
              (mkCell (mkUnpack WT_CELL_VALUE 3 "V")) (mkBuf "V" 1) 0 unpack_garbage cbt0)
    as [Hcalls Hend]; try reflexivity; try (vm_compute; discriminate).
  split; [apply (Hcalls 2%nat); reflexivity|apply Hend; reflexivity].
Defined.

(** ** The variable-length iterator and deleted runs *)

(** A call that comes to a deleted run without insert list, with a value
    cell in front of it: the run is passed in one turn of the loop and the
    call returns the last record of the cell in front, under the number
    the cursor had minus the repeat count of the run. *)
Lemma prev_var_skip_then_return `{BtreeEnv} (c : COL_VAR) (fuel : nat)
    (cbt : WT_CURSOR_BTREE) (u : WT_CELL_UNPACK) (i : Z) (cell prev : WT_CELL)
    (buf : WT_BUF) :
  2 <= nslots cbt <= UINT32_MAX ->
  cip cbt = Some i ->
  array_get (var_d c) i = Some (Some cell) ->
  unpack_type (__wt_cell_unpack cell) = WT_CELL_DEL ->
  WT_COL_INSERT c i = Done None ->
  array_get (var_d c) (i - 1) = Some (Some prev) ->
  unpack_type (__wt_cell_unpack prev) <> WT_CELL_DEL ->
  0 < unpack_rle (__wt_cell_unpack prev) ->
  WT_COL_INSERT c (i - 1) = Done None ->
  __wt_cell_unpack_copy (__wt_cell_unpack prev) = (RET_OK, buf) ->
  exists c',
    prev_var_loop (S (S fuel)) c cbt u true = Done (RET_OK, c') /\
    cur_recno (iface c') = u64 (recno cbt - unpack_rle (__wt_cell_unpack cell)) /\
    cur_value (iface c') = buf /\
    recno c' = u64 (u64 (recno cbt - unpack_rle (__wt_cell_unpack cell)) - 1) /\
    cip c' = Some (i - 1) /\
    nslots c' = nslots cbt - 1 /\
    rle_return_cnt c' = unpack_rle (__wt_cell_unpack prev) - 1.
Proof.
  intros Hn Hcip Hcell Hdel Hins Hprev Htype Hrle Hpins Hcopy.
  set (rle := unpack_rle (__wt_cell_unpack cell)).
  assert (Hnew : prev_var_newcell c cbt u
                 = Done (CellSkipped
                           (set_rle_return_cnt
                              (set_recno (set_ins_head (set_rle_return_cnt cbt rle) None)
                                         (u64 (recno cbt - rle))) 0)
                           (__wt_cell_unpack cell))).
  { unfold prev_var_newcell, WT_COL_PTR. rewrite Hcip, Hcell. cbn [bind].
    unfold cip_slot. cbn [cip set_rle_return_cnt]. rewrite Hcip, Hins. cbn [bind].
    cbn [ins_head set_ins_head]. rewrite Hdel. reflexivity. }
  assert (Hturn : prev_var_loop (S (S fuel)) c cbt u true
                  = prev_var_loop (S fuel) c (skip_run cbt rle) (__wt_cell_unpack cell) true).
  { cbn [prev_var_loop].
    destruct (Z.gtb_spec (nslots cbt) 0) as [_|Hle]; [|lia]. rewrite orb_true_r.
    rewrite Hnew. reflexivity. }
  assert (Hns : nslots (skip_run cbt rle) = nslots cbt - 1).
  { unfold skip_run, prev_var_next. cbn [nslots set_nslots set_cip set_rle_return_cnt
                                           set_recno set_ins_head].
    apply u32_small. lia. }
  assert (Hci : cip (skip_run cbt rle) = Some (i - 1)).
  { unfold skip_run, prev_var_next. cbn [cip set_nslots set_cip set_rle_return_cnt
                                           set_recno set_ins_head].
    rewrite Hcip. reflexivity. }
  rewrite Hturn.
  rewrite (prev_var_enter_cell c fuel (skip_run cbt rle) (__wt_cell_unpack cell)
             (i - 1) prev buf); try assumption; [|lia].
  eexists. split; [reflexivity|].
  cbn [iface set_valuep set_recno set_recnop set_rle_return_cnt set_value set_ins_head
       set_iface set_cur_value set_cur_recno cur_recno cur_value recno cip nslots
       rle_return_cnt].
  repeat split; try assumption; reflexivity.
Qed.



(** ** The row-store iterator, over a whole page *)

Section RowChain.
Context `{BtreeEnv}.
Variable store : list (WT_INSERT WT_ITEM).

Lemma chain_from_length (fuel : nat) :
  forall cur ns, chain_from fuel store cur = Some ns -> (length ns <= fuel)%nat.
Proof.
  induction fuel as [|f IH]; intros cur ns Hc; destruct cur as [p|]; cbn [chain_from] in Hc.
  - discriminate.
  - injection Hc as <-. cbn. lia.
  - destruct (nth_error store p) as [n|]; [|discriminate].
    destruct (array_get (ins_next n) 0) as [nx|]; [|discriminate].
    destruct (chain_from f store nx) as [ns'|] eqn:E; [|discriminate].
    cbn in Hc. injection Hc as <-. cbn. apply IH in E. lia.
  - injection Hc as <-. cbn. lia.
Qed.

Lemma insert_chain_length (h : option WT_INSERT_HEAD) (ns : list (WT_INSERT WT_ITEM)) :
  insert_chain store h = Some ns -> len ns <= len store + 1.
Proof.
  unfold insert_chain, len. intros Hc. destruct h as [hd|].
  - destruct (array_get (head hd) 0) as [first|]; [|discriminate].
    apply chain_from_length in Hc. lia.
  - injection Hc as <-. cbn. lia.
Qed.

Lemma chain_from_count (fuel : nat) :
  forall cur ns acc,
    chain_from fuel store cur = Some ns ->
    0 <= acc -> acc + len ns <= UINT32_MAX ->
    skip_fold fuel store (fun _ _ n => Done (u32 (n + 1), false)) cur acc
    = Done (acc + len ns).
Proof.
  induction fuel as [|f IH]; intros cur ns acc Hc Ha Hb; destruct cur as [p|]; cbn [chain_from] in Hc.
  - discriminate.
  - injection Hc as <-. cbn. f_equal. unfold len. cbn. lia.
  - cbn [skip_fold].
    destruct (nth_error store p) as [n|] eqn:En; [|discriminate].
    destruct (array_get (ins_next n) 0) as [nx|] eqn:Ex; [|discriminate].
    destruct (chain_from f store nx) as [ns'|] eqn:E; [|discriminate].
    cbn in Hc. injection Hc as <-.
    cbn [bind]. unfold WT_SKIP_NEXT. rewrite En, Ex. cbn [bind].
    unfold len in *. cbn [length] in Hb.
    rewrite (IH nx ns' (u32 (acc + 1)) E).
    + rewrite u32_small by lia. f_equal. cbn [length]. lia.
    + rewrite u32_small by lia. lia.
    + rewrite u32_small by lia. lia.
  - injection Hc as <-. cbn. f_equal. unfold len. cbn. lia.
Qed.

Lemma count_inserts_chain (h : option WT_INSERT_HEAD) (ns : list (WT_INSERT WT_ITEM)) :
  insert_chain store h = Some ns -> len store < UINT32_MAX ->
  count_inserts store h = Done (len ns).
Proof.
  intros Hc Hs. pose proof (insert_chain_length h ns Hc) as Hl.
  unfold count_inserts, WT_SKIP_FOREACH, WT_SKIP_FIRST.
  unfold insert_chain in Hc. destruct h as [hd|].
  - destruct (array_get (head hd) 0) as [first|]; [|discriminate].
    cbn [bind]. rewrite (chain_from_count _ _ _ 0 Hc); [reflexivity| lia |].
    unfold len in *. lia.
  - injection Hc as <-. reflexivity.
Qed.

Lemma skip_advance_chain (n : nat) :
  forall fuel cur ns node,
    chain_from fuel store cur = Some ns -> nth_error ns n = Some node ->
    exists p, skip_advance n store cur = Done (Some p) /\ nth_error store p = Some node.
Proof.
  induction n as [|n IH]; intros fuel cur ns node Hc Hn.
  - destruct fuel as [|f]; destruct cur as [p|]; cbn [chain_from] in Hc;
      try discriminate; try (injection Hc as <-; discriminate).
    destruct (nth_error store p) as [m|] eqn:En; [|discriminate].
    destruct (array_get (ins_next m) 0) as [nx|]; [|discriminate].
    destruct (chain_from f store nx) as [ns'|]; [|discriminate].
    cbn in Hc. injection Hc as <-. cbn in Hn. injection Hn as <-.
    exists p. split; [reflexivity | exact En].
  - destruct fuel as [|f]; destruct cur as [p|]; cbn [chain_from] in Hc;
      try discriminate; try (injection Hc as <-; discriminate).
    destruct (nth_error store p) as [m|] eqn:En; [|discriminate].
    destruct (array_get (ins_next m) 0) as [nx|] eqn:Ex; [|discriminate].
    destruct (chain_from f store nx) as [ns'|] eqn:E; [|discriminate].
    cbn in Hc. injection Hc as <-. cbn in Hn.
    destruct (IH f nx ns' node E Hn) as [q [Hq Hs]].
    exists q. split; [|exact Hs].
    cbn [skip_advance]. unfold WT_SKIP_NEXT. rewrite En, Ex. cbn [bind]. exact Hq.
Qed.

Lemma nth_insert_chain (h : option WT_INSERT_HEAD) (ns : list (WT_INSERT WT_ITEM))
    (cnt : Z) (node : WT_INSERT WT_ITEM) :
  insert_chain store h = Some ns ->
  nth_error ns (Z.to_nat (cnt - 1)) = Some node ->
  nth_insert store h cnt = Done node.
Proof.
  intros Hc Hn. unfold nth_insert, WT_SKIP_FIRST. unfold insert_chain in Hc.
  destruct h as [hd|].
  - destruct (array_get (head hd) 0) as [first|]; [|discriminate].
    destruct (skip_advance_chain _ _ _ _ _ Hc Hn) as [p [Hp Hs]].
    cbn [bind]. rewrite Hp. cbn [bind]. rewrite Hs. reflexivity.
  - injection Hc as <-. destruct (Z.to_nat (cnt - 1)); discriminate.
Qed.

Lemma firstn_snoc (ns : list (WT_INSERT WT_ITEM)) :
  forall m node, nth_error ns m = Some node -> firstn (S m) ns = firstn m ns ++ [node].
Proof.
  induction ns as [|a ns IH]; intros m node Hn.
  - destruct m; discriminate.
  - destruct m as [|m].
    + cbn in Hn. injection Hn as <-. reflexivity.
    + cbn in Hn. change (firstn (S (S m)) (a :: ns)) with (a :: firstn (S m) ns).
      rewrite (IH m node Hn). reflexivity.
Qed.

Lemma pending_step (ns : list (WT_INSERT WT_ITEM)) (m : nat) (node : WT_INSERT WT_ITEM) :
  nth_error ns m = Some node ->
  rev (live_inserts (firstn (S m) ns))
  = (if WT_UPDATE_DELETED_ISSET (ins_upd node) then [] else [insert_record node])
    ++ rev (live_inserts (firstn m ns)).
Proof.
  intros Hn. rewrite (firstn_snoc ns m node Hn). unfold live_inserts.
  rewrite filter_app, map_app, rev_app_distr. cbn [filter].
  destruct (WT_UPDATE_DELETED_ISSET (ins_upd node)); reflexivity.
Qed.

End RowChain.

Section RowSequence.
Context `{BtreeEnv}.
Variable l : ROW_LEAF.
Hypothesis Hok : row_page_ok l = true.

Lemma row_page_ok_sizes :
  1 <= len (row_leaf_d l) <= UINT32_MAX /\ len (row_leaf_store l) < UINT32_MAX.
Proof.
  pose proof Hok as Hp. unfold row_page_ok in Hp.
  rewrite !andb_true_iff in Hp. destruct Hp as [[[[[[Hn1 Hn2] Hs] Hch] Hu] Hk] Hv].
  lia.
Qed.

Lemma page_chain_spec (i : Z) :
  0 <= i <= len (row_leaf_d l) ->
  exists h, insert_array_get (row_leaf_ins l) i = Done h /\
            insert_chain (row_leaf_store l) h = Some (page_chain l i).
Proof.
  intros Hi. pose proof Hok as Hp. unfold row_page_ok in Hp.
  rewrite !andb_true_iff in Hp. destruct Hp as [[[[[[Hn1 Hn2] Hs] Hch] Hu] Hk] Hv].
  rewrite forallb_forall in Hch.
  assert (Hc : page_chain_ok l (Z.of_nat (Z.to_nat i)) = true)
    by (apply Hch; apply in_seq; unfold len in Hi; lia).
  rewrite Z2Nat.id in Hc by lia.
  unfold page_chain_ok in Hc. unfold page_chain.
  destruct (insert_array_get (row_leaf_ins l) i) as [h| |]; try discriminate.
  exists h. split; [reflexivity|].
  destruct (insert_chain (row_leaf_store l) h); [reflexivity | discriminate].
Qed.

Lemma row_update_spec (i : Z) :
  0 <= i < len (row_leaf_d l) -> exists u, WT_ROW_UPDATE l i = Done u.
Proof.
  intros Hi. pose proof Hok as Hp. unfold row_page_ok in Hp.
  rewrite !andb_true_iff in Hp. destruct Hp as [[[[[[Hn1 Hn2] Hs] Hch] Hu] Hk] Hv].
  unfold WT_ROW_UPDATE. destruct (row_leaf_upd l) as [a|]; [|eexists; reflexivity].
  destruct (array_get a i) as [u|] eqn:Ea; [eexists; reflexivity|].
  unfold array_get in Ea. destruct (i <? 0) eqn:E0; [lia|].
  apply nth_error_None in Ea. unfold len in *. lia.
Qed.

Lemma row_slot_spec (i : Z) :
  0 <= i < len (row_leaf_d l) ->
  exists row k, array_get (row_leaf_d l) i = Some row /\
    row_slot_key row = (RET_OK, k) /\
    (forall cell, row_value row = Some cell ->
                  exists b, __wt_cell_copy cell = (RET_OK, b)).
Proof.
  intros Hi. pose proof Hok as Hp. unfold row_page_ok in Hp.
  rewrite !andb_true_iff in Hp. destruct Hp as [[[[[[Hn1 Hn2] Hs] Hch] Hu] Hk] Hv].
  destruct (array_get (row_leaf_d l) i) as [row|] eqn:Ea.
  2:{ unfold array_get in Ea. destruct (i <? 0) eqn:E0; [lia|].
      apply nth_error_None in Ea. unfold len in *. lia. }
  assert (Hin : In row (row_leaf_d l)).
  { unfold array_get in Ea. destruct (i <? 0); [discriminate|].
    eapply nth_error_In; exact Ea. }
  unfold leaf_keys_ok in Hk. rewrite forallb_forall in Hk.
  pose proof (Hk row Hin) as Hkey.
  rewrite forallb_forall in Hv. pose proof (Hv row Hin) as Hval.
  destruct (row_slot_key row) as [r k] eqn:Ek. cbn in Hkey.
  destruct r; try discriminate.
  exists row, k. split; [reflexivity|]. split; [exact Ek|].
  intros cell Hc. rewrite Hc in Hval.
  destruct (__wt_cell_copy cell) as [r b]. cbn in Hval.
  destruct r; try discriminate. exists b. reflexivity.
Qed.

Lemma records_from_unfold (s : Z) :
  0 <= s ->
  records_from l (Z.to_nat s)
  = slot_record l s
    ++ rev (live_inserts (page_chain l (if s =? 0 then len (row_leaf_d l) else s - 1)))
    ++ (if s =? 0 then [] else records_from l (Z.to_nat (s - 1))).
Proof.
  intros Hs. destruct (Z.eqb_spec s 0) as [->|Hne].
  - cbn [Z.to_nat records_from]. rewrite app_nil_r. reflexivity.
  - replace (Z.to_nat s) with (S (Z.to_nat (s - 1))) by lia.
    cbn [records_from].
    replace (Z.of_nat (S (Z.to_nat (s - 1)))) with s by lia.
    replace (Z.of_nat (Z.to_nat (s - 1))) with (s - 1) by lia.
    reflexivity.
Qed.

Lemma firstn_nil_chain (n : nat) : firstn n (@nil (WT_INSERT WT_ITEM)) = [].
Proof. destruct n; reflexivity. Qed.

Ltac row_fields :=
  unfold row_cursor_ok, row_remaining, row_pending_inserts, row_work;
  cbn [slot ins_head ins_entry_cnt WT_CBT_RET_INSERT WT_CBT_RET_SLOT iface
       set_RET_INSERT set_RET_SLOT set_ins_entry_cnt set_slot set_ins_head
       set_keyp set_valuep set_iface set_cur_key set_cur_value cur_key cur_value
       is_some andb negb].

Lemma row_insert_phase (cbt : WT_CURSOR_BTREE) (hd : WT_INSERT_HEAD) :
  row_cursor_ok l cbt -> ins_head cbt = Some hd -> ins_entry_cnt cbt <> 0 ->
  (exists c', (forall f, prev_row_loop (S f) l cbt = prev_row_loop f l c') /\
              row_cursor_ok l c' /\ row_remaining l c' = row_remaining l cbt /\
              row_work l c' < row_work l cbt)
  \/ (exists c', (forall f, prev_row_loop (S f) l cbt = Done (RET_OK, c')) /\
              row_cursor_ok l c' /\
              row_remaining l cbt
              = (cur_key (iface c'), cur_value (iface c')) :: row_remaining l c' /\
              row_work l c' < row_work l cbt).
Proof.
  intros [Hslot [ns [Hc Hcnt]]] Hh Hne.
  destruct row_page_ok_sizes as [Hn Hs].
  pose proof (insert_chain_length _ _ _ Hc) as Hlen.
  destruct cbt as [ifc pg ci ri sl ih i st mt wg nsl rn rle cnt val rs rins ss].
  cbn [slot ins_head ins_entry_cnt] in *. subst ih.
  assert (E0 : (cnt =? 0) = false) by (apply Z.eqb_neq; lia).
  destruct rins.
  - destruct (nth_error ns (Z.to_nat (cnt - 1))) as [node|] eqn:En.
    2:{ apply nth_error_None in En. unfold len in *. lia. }
    pose proof (nth_insert_chain _ _ _ _ _ Hc En) as Hnode.
    pose proof (pending_step ns _ node En) as Hp.
    replace (S (Z.to_nat (cnt - 1))) with (Z.to_nat cnt) in Hp by lia.
    destruct (WT_UPDATE_DELETED_ISSET (ins_upd node)) eqn:Ed.
    + left. eexists. split.
      { intros f. cbn [prev_row_loop ins_head ins_entry_cnt WT_CBT_RET_INSERT
                       set_RET_INSERT andb negb].
        rewrite E0. cbn [andb negb]. rewrite Hnode. cbn [bind]. rewrite Ed.
        reflexivity. }
      row_fields. rewrite Hc, E0. cbn [negb].
      split; [split; [lia | exists ns; split; [reflexivity | lia]]|].
      split; [rewrite Hp; reflexivity | lia].
    + right. eexists. split.
      { intros f. cbn [prev_row_loop ins_head ins_entry_cnt WT_CBT_RET_INSERT
                       set_RET_INSERT andb negb].
        rewrite E0. cbn [andb negb]. rewrite Hnode. cbn [bind]. rewrite Ed.
        reflexivity. }
      row_fields. rewrite Hc, E0. cbn [negb].
      split; [split; [lia | exists ns; split; [reflexivity | lia]]|].
      split; [rewrite Hp; reflexivity | lia].
  - assert (Eu : u32 (cnt - 1) = cnt - 1) by (apply u32_small; unfold len in *; lia).
    destruct (Z.eqb_spec (cnt - 1) 0) as [E1|E1].
    + left. eexists. split.
      { intros f. cbn [prev_row_loop ins_head ins_entry_cnt WT_CBT_RET_INSERT
                       set_ins_entry_cnt andb negb].
        rewrite E0. cbn [andb negb]. rewrite Eu.
        destruct (Z.eqb_spec (cnt - 1) 0) as [_|Hx]; [|contradiction].
        reflexivity. }
      row_fields. rewrite Hc, E0, E1. cbn [negb Z.eqb andb].
      split; [split; [lia | exists ns; split; [reflexivity | lia]]|].
      split; [reflexivity | lia].
    + destruct (nth_error ns (Z.to_nat (cnt - 1 - 1))) as [node|] eqn:En.
      2:{ apply nth_error_None in En. unfold len in *. lia. }
      pose proof (nth_insert_chain _ _ _ _ _ Hc En) as Hnode.
      pose proof (pending_step ns _ node En) as Hp.
      replace (S (Z.to_nat (cnt - 1 - 1))) with (Z.to_nat (cnt - 1)) in Hp by lia.
      assert (E2 : (cnt - 1 =? 0) = false) by (apply Z.eqb_neq; lia).
      destruct (WT_UPDATE_DELETED_ISSET (ins_upd node)) eqn:Ed.
      * left. eexists. split.
        { intros f. cbn [prev_row_loop ins_head ins_entry_cnt WT_CBT_RET_INSERT
                         set_ins_entry_cnt andb negb].
          rewrite E0. cbn [andb negb]. rewrite Eu, E2, Hnode. cbn [bind]. rewrite Ed.
          reflexivity. }
        row_fields. rewrite Hc, E0, E2. cbn [negb].
        split; [split; [lia | exists ns; split; [reflexivity | lia]]|].
        split; [rewrite Hp; reflexivity | lia].
      * right. eexists. split.
        { intros f. cbn [prev_row_loop ins_head ins_entry_cnt WT_CBT_RET_INSERT
                         set_ins_entry_cnt andb negb].
          rewrite E0. cbn [andb negb]. rewrite Eu, E2, Hnode. cbn [bind]. rewrite Ed.
          reflexivity. }
        row_fields. rewrite Hc, E0, E2. cbn [negb].
        split; [split; [lia | exists ns; split; [reflexivity | lia]]|].
        split; [rewrite Hp; reflexivity | lia].
Qed.

Lemma row_slot_phase (cbt : WT_CURSOR_BTREE) :
  row_cursor_ok l cbt ->
  is_some (ins_head cbt) && negb (ins_entry_cnt cbt =? 0) = false ->
  (exists c', (forall f, prev_row_loop (S f) l cbt = prev_row_loop f l c') /\
              row_cursor_ok l c' /\ row_remaining l c' = row_remaining l cbt /\
              row_work l c' < row_work l cbt)
  \/ (exists c', (forall f, prev_row_loop (S f) l cbt = Done (RET_OK, c')) /\
              row_cursor_ok l c' /\
              row_remaining l cbt
              = (cur_key (iface c'), cur_value (iface c')) :: row_remaining l c' /\
              row_work l c' < row_work l cbt)
  \/ (row_remaining l cbt = [] /\
      forall f, prev_row_loop (S f) l cbt = Done (WT_NOTFOUND, cbt)).
Proof.
  intros [Hslot [ns [Hc Hcnt]]] Hph.
  destruct row_page_ok_sizes as [Hn Hs].
  assert (Hpend : row_pending_inserts l cbt = []).
  { unfold row_pending_inserts. rewrite Hc.
    destruct (ins_head cbt) as [hd|].
    - cbn [is_some andb] in Hph. apply negb_false_iff in Hph. rewrite Hph.
      reflexivity.
    - cbn [insert_chain] in Hc. injection Hc as <-. rewrite firstn_nil_chain.
      reflexivity. }
  assert (Hloop : forall f, prev_row_loop (S f) l cbt
                  = '(r, c) <- prev_row_slot l cbt ;;
                    match r with
                    | Some ret => Done (ret, c)
                    | None => prev_row_loop f l c
                    end).
  { intros f. cbn [prev_row_loop]. unfold is_some in Hph. rewrite Hph. reflexivity. }
  destruct (negb (WT_CBT_RET_SLOT cbt) && (slot cbt =? 0)) eqn:Econd.
  - right. right. apply andb_prop in Econd. destruct Econd as [E1 E2].
    apply negb_true_iff in E1. split.
    + unfold row_remaining. rewrite Hpend, E1, E2. reflexivity.
    + intros f. rewrite Hloop. unfold prev_row_slot. rewrite E1, E2. reflexivity.
  - set (s' := if WT_CBT_RET_SLOT cbt then slot cbt else slot cbt - 1).
    assert (Hs' : 0 <= s' < len (row_leaf_d l)).
    { unfold s'. destruct (WT_CBT_RET_SLOT cbt); [lia|].
      cbn [negb andb] in Econd. apply Z.eqb_neq in Econd. lia. }
    assert (Htail : (if WT_CBT_RET_SLOT cbt then records_from l (Z.to_nat (slot cbt))
                     else if slot cbt =? 0 then []
                     else records_from l (Z.to_nat (slot cbt - 1)))
                    = records_from l (Z.to_nat s')).
    { unfold s'. destruct (WT_CBT_RET_SLOT cbt); [reflexivity|].
      cbn [negb andb] in Econd. rewrite Econd. reflexivity. }
    set (pos := if s' =? 0 then len (row_leaf_d l) else s' - 1).
    destruct (page_chain_spec pos) as [h [Hh Hch]].
    { unfold pos. destruct (Z.eqb_spec s' 0); lia. }
    pose proof (count_inserts_chain _ _ _ Hch Hs) as Hcount.
    pose proof (insert_chain_length _ _ _ Hch) as Hlen.
    destruct (row_update_spec s' Hs') as [u Hu].
    destruct (row_slot_spec s' Hs') as [row [k [Ha [Hk Hcell]]]].
    set (c1 := if WT_CBT_RET_SLOT cbt then set_RET_SLOT cbt false
               else set_slot cbt (u32 (slot cbt - 1))).
    assert (Hsl : slot c1 = s').
    { unfold c1, s'. destruct (WT_CBT_RET_SLOT cbt); [reflexivity|].
      cbn [slot set_slot]. apply u32_small. unfold s' in Hs'.
      cbn [negb andb] in Econd. apply Z.eqb_neq in Econd. lia. }
    assert (Hrs : WT_CBT_RET_SLOT c1 = false).
    { unfold c1. destruct (WT_CBT_RET_SLOT cbt) eqn:Er; [reflexivity | exact Er]. }
    assert (Hget : (if slot c1 =? 0 then WT_ROW_INSERT_SMALLEST l
                    else WT_ROW_INSERT_SLOT l (u32 (slot c1 - 1))) = Done h).
    { rewrite Hsl. rewrite <- Hh. unfold pos, WT_ROW_INSERT_SMALLEST, WT_ROW_INSERT_SLOT.
      destruct (Z.eqb_spec s' 0); [reflexivity|].
      rewrite u32_small by lia. reflexivity. }
    assert (Hrec : records_from l (Z.to_nat s')
                   = slot_record l s' ++ rev (live_inserts (page_chain l pos))
                     ++ (if s' =? 0 then [] else records_from l (Z.to_nat (s' - 1)))).
    { apply records_from_unfold. lia. }
    assert (Hnew : forall c2,
               slot c2 = s' -> WT_CBT_RET_SLOT c2 = false ->
               WT_CBT_RET_INSERT c2 = true -> ins_head c2 = h ->
               ins_entry_cnt c2 = len (page_chain l pos) ->
               row_cursor_ok l c2 /\
               row_remaining l c2
               = rev (live_inserts (page_chain l pos))
                 ++ (if s' =? 0 then [] else records_from l (Z.to_nat (s' - 1))) /\
               row_work l c2 < row_work l cbt).
    { intros c2 H1 H2 H3 H4 H5. split; [|split].
      - unfold row_cursor_ok. rewrite H1, H4, H5. split; [lia|].
        exists (page_chain l pos). split; [exact Hch | unfold len; lia].
      - unfold row_remaining, row_pending_inserts. rewrite H1, H2, H3, H4, H5, Hch.
        f_equal. destruct (Z.eqb_spec (len (page_chain l pos)) 0) as [E|E].
        + destruct (page_chain l pos); [reflexivity | discriminate].
        + unfold len. rewrite Nat2Z.id, firstn_all. reflexivity.
      - unfold row_work. rewrite H1, H2, H3, H5, Hph.
        assert (Hw : (if is_some (ins_head c2) && negb (len (page_chain l pos) =? 0)
                      then len (page_chain l pos) + 1 else 0)
                     <= len (row_leaf_store l) + 2).
        { destruct (is_some (ins_head c2) && negb (len (page_chain l pos) =? 0));
            unfold len in *; lia. }
        assert (Hsum : slot cbt + (if WT_CBT_RET_SLOT cbt then 1 else 0) = s' + 1).
        { unfold s'. destruct (WT_CBT_RET_SLOT cbt); lia. }
        rewrite Hsum. unfold len in *. nia. }
    assert (Hrem : row_remaining l cbt
                   = slot_record l s' ++ rev (live_inserts (page_chain l pos))
                     ++ (if s' =? 0 then [] else records_from l (Z.to_nat (s' - 1)))).
    { unfold row_remaining. rewrite Hpend, Htail, Hrec. reflexivity. }
    assert (Hps : forall f, prev_row_loop (S f) l cbt
              = let c2 := set_RET_INSERT
                            (set_ins_entry_cnt (set_ins_head c1 h)
                               (len (page_chain l pos))) true in
                '(r, c) <-
                  (if match u with
                      | Some u0 => WT_UPDATE_DELETED_ISSET u0
                      | None => false
                      end
                   then Done (None, c2)
                   else
                     let c3 := set_keyp c2 (item_buf k) in
                     match u with
                     | Some u0 =>
                         Done (Some RET_OK,
                               set_valuep c3 (mkBuf (WT_UPDATE_DATA u0) (upd_size u0)))
                     | None =>
                         match row_value row with
                         | None => Done (Some RET_OK, set_valuep c3 (mkBuf EmptyString 0))
                         | Some cell =>
                             match __wt_cell_copy cell with
                             | (RET_OK, buf) => Done (Some RET_OK, set_valuep c3 buf)
                             | (ret, _) => Done (Some ret, c3)
                             end
                         end
                     end) ;;
                match r with
                | Some ret => Done (ret, c)
                | None => prev_row_loop f l c
                end).
    { intros f. rewrite Hloop. unfold prev_row_slot. rewrite Econd. cbv zeta.
      fold c1. rewrite Hget. cbn [bind ins_head set_ins_head]. rewrite Hcount.
      cbn [bind slot set_RET_INSERT set_ins_entry_cnt set_ins_head].
      rewrite Hsl, Hu. cbn [bind]. rewrite Ha, Hk. reflexivity. }
    cbv zeta in Hps.
    destruct u as [u0|].
    + destruct (WT_UPDATE_DELETED_ISSET u0) eqn:Ed.
      * left. eexists. split; [intros f; rewrite Hps; reflexivity|].
        edestruct Hnew as [I1 [I2 I3]];
          [ | | | | | split; [exact I1 | split; [|exact I3]]];
          [exact Hsl | exact Hrs | reflexivity | reflexivity | reflexivity |].
        rewrite I2, Hrem. unfold slot_record. rewrite Ha, Hu, Ed. reflexivity.
      * right. left. eexists. split; [intros f; rewrite Hps; reflexivity|].
        edestruct Hnew as [I1 [I2 I3]];
          [ | | | | | split; [exact I1 | split; [|exact I3]]];
          [exact Hsl | exact Hrs | reflexivity | reflexivity | reflexivity |].
        rewrite I2, Hrem. unfold slot_record. rewrite Ha, Hu, Ed, Hk. reflexivity.
    + destruct (row_value row) as [cell|] eqn:Ev.
      * destruct (Hcell cell eq_refl) as [b Hb]. rewrite Hb in Hps.
        right. left. eexists. split; [intros f; rewrite Hps; reflexivity|].
        edestruct Hnew as [I1 [I2 I3]];
          [ | | | | | split; [exact I1 | split; [|exact I3]]];
          [exact Hsl | exact Hrs | reflexivity | reflexivity | reflexivity |].
        rewrite I2, Hrem. unfold slot_record. rewrite Ha, Hu, Ev, Hk, Hb. reflexivity.
      * right. left. eexists. split; [intros f; rewrite Hps; reflexivity|].
        edestruct Hnew as [I1 [I2 I3]];
          [ | | | | | split; [exact I1 | split; [|exact I3]]];
          [exact Hsl | exact Hrs | reflexivity | reflexivity | reflexivity |].
        rewrite I2, Hrem. unfold slot_record. rewrite Ha, Hu, Ev, Hk. reflexivity.
Qed.

Lemma row_work_nonneg (cbt : WT_CURSOR_BTREE) :
  row_cursor_ok l cbt -> 0 <= row_work l cbt.
Proof.
  intros [Hslot [ns [Hc Hcnt]]]. unfold row_work.
  assert (0 <= len (row_leaf_store l)) by (unfold len; lia).
  destruct (is_some (ins_head cbt) && negb (ins_entry_cnt cbt =? 0));
    destruct (WT_CBT_RET_INSERT cbt); destruct (WT_CBT_RET_SLOT cbt); nia.
Qed.

(** One call of the loop hands out the first of the pairs the cursor has
    not been at, or [WT_NOTFOUND] when there is none. *)
Lemma prev_row_loop_next (fuel : nat) :
  forall cbt,
    row_cursor_ok l cbt -> row_work l cbt < Z.of_nat fuel ->
    match row_remaining l cbt with
    | [] => exists c', prev_row_loop fuel l cbt = Done (WT_NOTFOUND, c')
    | rec :: rest =>
        exists c', prev_row_loop fuel l cbt = Done (RET_OK, c') /\
                   (cur_key (iface c'), cur_value (iface c')) = rec /\
                   row_cursor_ok l c' /\ row_remaining l c' = rest /\
                   row_work l c' < row_work l cbt
    end.
Proof.
  induction fuel as [|f IH]; intros cbt Hinv Hw.
  - pose proof (row_work_nonneg cbt Hinv). lia.
  - assert (Hstep :
      (exists c', (forall f, prev_row_loop (S f) l cbt = prev_row_loop f l c') /\
                  row_cursor_ok l c' /\ row_remaining l c' = row_remaining l cbt /\
                  row_work l c' < row_work l cbt)
      \/ (exists c', (forall f, prev_row_loop (S f) l cbt = Done (RET_OK, c')) /\
                  row_cursor_ok l c' /\
                  row_remaining l cbt
                  = (cur_key (iface c'), cur_value (iface c')) :: row_remaining l c' /\
                  row_work l c' < row_work l cbt)
      \/ (row_remaining l cbt = [] /\
          forall f, prev_row_loop (S f) l cbt = Done (WT_NOTFOUND, cbt))).
    { destruct (is_some (ins_head cbt) && negb (ins_entry_cnt cbt =? 0)) eqn:Eph.
      - apply andb_prop in Eph. destruct Eph as [E1 E2].
        destruct (ins_head cbt) as [hd|] eqn:Eh; [|discriminate].
        apply negb_true_iff, Z.eqb_neq in E2.
        destruct (row_insert_phase cbt hd Hinv Eh E2) as [Ha|Hb];
          [left; exact Ha | right; left; exact Hb].
      - apply row_slot_phase; assumption. }
    destruct Hstep as [[c' [Hl [Hi [Hr Hm]]]] | [[c' [Hl [Hi [Hr Hm]]]] | [Hr Hl]]].
    + rewrite Hl, <- Hr.
      assert (Hw' : row_work l c' < Z.of_nat f) by lia.
      pose proof (IH c' Hi Hw') as Hnext.
      destruct (row_remaining l c') as [|rec rest].
      * exact Hnext.
      * destruct Hnext as [c2 [H1 [H2 [H3 [H4 H5]]]]].
        exists c2. split; [exact H1|]. split; [exact H2|]. split; [exact H3|].
        split; [exact H4 | lia].
    + rewrite Hr. exists c'. split; [apply Hl|]. split; [reflexivity|].
      split; [exact Hi|]. split; [reflexivity | exact Hm].
    + rewrite Hr. exists cbt. apply Hl.
Qed.

(** The first call on a page starts the loop with every pair of the page
    still to come. *)
Lemma prev_row_newpage (fuel : nat) (cbt : WT_CURSOR_BTREE) :
  exists c0, __prev_row fuel cbt l true = prev_row_loop fuel l c0 /\
             row_cursor_ok l c0 /\ row_remaining l c0 = row_records l /\
             row_work l c0 < (len (row_leaf_d l) + 1) * (len (row_leaf_store l) + 3).
Proof.
  destruct row_page_ok_sizes as [Hn Hs].
  destruct (page_chain_spec (len (row_leaf_d l) - 1)) as [h [Hh Hch]]; [lia|].
  pose proof (count_inserts_chain _ _ _ Hch Hs) as Hcount.
  pose proof (insert_chain_length _ _ _ Hch) as Hlen.
  assert (Hfirst : exists first, WT_SKIP_FIRST h = Done first).
  { unfold WT_SKIP_FIRST. destruct h as [hd|]; [|eexists; reflexivity].
    cbn [insert_chain] in Hch.
    destruct (array_get (head hd) 0); [eexists; reflexivity | discriminate]. }
  destruct Hfirst as [first Hfirst].
  eexists. split.
  { unfold __prev_row. unfold WT_ROW_INSERT_SLOT. rewrite u32_small by lia.
    rewrite Hh. cbn [bind ins_head set_ins_head]. rewrite Hfirst.
    cbn [bind ins_head set_ins set_ins_head]. rewrite Hcount. cbn [bind].
    reflexivity. }
  split; [|split].
  - row_fields. cbn [set_ins set_ins_head set_slot set_ins_entry_cnt set_RET_SLOT set_RET_INSERT
                        slot ins_head ins_entry_cnt WT_CBT_RET_INSERT WT_CBT_RET_SLOT].
    split; [lia|]. exists (page_chain l (len (row_leaf_d l) - 1)).
    split; [exact Hch | unfold len; lia].
  - row_fields. cbn [set_ins set_ins_head set_slot set_ins_entry_cnt set_RET_SLOT set_RET_INSERT
                        slot ins_head ins_entry_cnt WT_CBT_RET_INSERT WT_CBT_RET_SLOT].
    rewrite Hch. unfold row_records. f_equal.
    destruct (Z.eqb_spec (len (page_chain l (len (row_leaf_d l) - 1))) 0) as [E|E].
    + destruct (page_chain l (len (row_leaf_d l) - 1)); [reflexivity | discriminate].
    + unfold len at 1. rewrite Nat2Z.id, firstn_all. reflexivity.
  - row_fields. cbn [set_ins set_ins_head set_slot set_ins_entry_cnt set_RET_SLOT set_RET_INSERT
                        slot ins_head ins_entry_cnt WT_CBT_RET_INSERT WT_CBT_RET_SLOT].
    assert (Hw : (if is_some h && negb (len (page_chain l (len (row_leaf_d l) - 1)) =? 0)
                  then len (page_chain l (len (row_leaf_d l) - 1)) + 1 else 0)
                 <= len (row_leaf_store l) + 2).
    { destruct (is_some h && negb (len (page_chain l (len (row_leaf_d l) - 1)) =? 0));
        unfold len in *; lia. }
    unfold len in *. nia.
Qed.

Lemma skipn_nth_cons {A : Type} (xs : list A) :
  forall k x, nth_error xs k = Some x -> skipn k xs = x :: skipn (S k) xs.
Proof.
  induction xs as [|a xs IH]; intros k x Hk.
  - destruct k; discriminate.
  - destruct k as [|k].
    + cbn in Hk. injection Hk as <-. reflexivity.
    + cbn in Hk. cbn [skipn]. rewrite (IH k x Hk). reflexivity.
Qed.

(** The state after call [k]: the pair number [k] of the page is in the
    cursor and the pairs after it are still to come. *)
Lemma row_call_state (fuel : nat) (cbt : WT_CURSOR_BTREE) :
  (len (row_leaf_d l) + 1) * (len (row_leaf_store l) + 3) <= Z.of_nat fuel ->
  forall k rec,
    nth_error (row_records l) k = Some rec ->
    exists c', row_call l fuel k cbt = Done (RET_OK, c') /\
               (cur_key (iface c'), cur_value (iface c')) = rec /\
               row_cursor_ok l c' /\
               row_remaining l c' = skipn (S k) (row_records l) /\
               row_work l c' < Z.of_nat fuel.
Proof.
  intros Hfuel. induction k as [|k IH]; intros rec Hk.
  - destruct (prev_row_newpage fuel cbt) as [c0 [E0 [I0 [R0 W0]]]].
    assert (W0' : row_work l c0 < Z.of_nat fuel) by lia.
    pose proof (prev_row_loop_next fuel c0 I0 W0') as Hnext.
    rewrite R0 in Hnext.
    destruct (row_records l) as [|r rest]; [discriminate|].
    cbn in Hk. injection Hk as ->.
    destruct Hnext as [c' [H1 [H2 [H3 [H4 H5]]]]].
    exists c'. cbn [row_call]. rewrite E0.
    split; [exact H1|]. split; [exact H2|]. split; [exact H3|].
    split; [exact H4 | lia].
  - destruct (nth_error (row_records l) k) as [rk|] eqn:Ek.
    2:{ apply nth_error_None in Ek.
        assert (Hlt : (S k < length (row_records l))%nat)
          by (apply nth_error_Some; rewrite Hk; discriminate).
        lia. }
    destruct (IH rk eq_refl) as [ck [E1 [_ [I1 [R1 W1]]]]].
    pose proof (prev_row_loop_next fuel ck I1 W1) as Hnext.
    rewrite R1, (skipn_nth_cons _ _ _ Hk) in Hnext.
    destruct Hnext as [c' [H1 [H2 [H3 [H4 H5]]]]].
    exists c'. cbn [row_call]. rewrite E1. cbn [bind].
    split; [exact H1|]. split; [exact H2|]. split; [exact H3|].
    split; [exact H4 | lia].
Qed.

Lemma row_call_end (fuel : nat) (cbt : WT_CURSOR_BTREE) :
  (len (row_leaf_d l) + 1) * (len (row_leaf_store l) + 3) <= Z.of_nat fuel ->
  exists c', row_call l fuel (length (row_records l)) cbt = Done (WT_NOTFOUND, c').
Proof.
  intros Hfuel. destruct (length (row_records l)) as [|m] eqn:El.
  - destruct (prev_row_newpage fuel cbt) as [c0 [E0 [I0 [R0 W0]]]].
    assert (W0' : row_work l c0 < Z.of_nat fuel) by lia.
    pose proof (prev_row_loop_next fuel c0 I0 W0') as Hnext.
    rewrite R0 in Hnext.
    destruct (row_records l) as [|r rest]; [|discriminate].
    cbn [row_call]. rewrite E0. exact Hnext.
  - destruct (nth_error (row_records l) m) as [rm|] eqn:Em.
    2:{ apply nth_error_None in Em. lia. }
    destruct (row_call_state fuel cbt Hfuel m rm Em) as [cm [E1 [_ [I1 [R1 W1]]]]].
    pose proof (prev_row_loop_next fuel cm I1 W1) as Hnext.
    rewrite R1, <- El, skipn_all in Hnext.
    cbn [row_call]. rewrite E1. cbn [bind]. exact Hnext.
Qed.

End RowSequence.

(** X11: on a row-store leaf with at least one slot and proper insert
    lists, the calls of the row iterator, the first for a new page, return
    in turn the pairs of the page from last to first: the live nodes of the
    list behind the last slot in reverse, then for each slot, from the last
    down, the slot's own pair (the update's value if it has one, none if
    the update is a deletion) and the live nodes of the list in front of
    it in reverse; the call after the last pair returns [WT_NOTFOUND]. *)
Theorem prev_row_returns_page_records `{BtreeEnv} :
  forall (l : ROW_LEAF) (cbt : WT_CURSOR_BTREE) (fuel : nat),
    row_page_ok l = true ->
    (len (row_leaf_d l) + 1) * (len (row_leaf_store l) + 3) <= Z.of_nat fuel ->
    (forall k rec,
       nth_error (row_records l) k = Some rec ->
       exists cbt',
         row_call l fuel k cbt = Done (RET_OK, cbt') /\
         (cur_key (iface cbt'), cur_value (iface cbt')) = rec) /\
    (exists cbt',
       row_call l fuel (length (row_records l)) cbt = Done (WT_NOTFOUND, cbt')).
Proof.
  intros l cbt fuel Hok Hfuel. split.
  - intros k rec Hk.
    destruct (row_call_state l Hok fuel cbt Hfuel k rec Hk) as [c' [E [Hr _]]].
    exists c'. split; assumption.
  - exact (row_call_end l Hok fuel cbt Hfuel).
Qed.

Local Open Scope string_scope.

(** The page of the scenario: [f], the node [e], [d], [b], then the end. *)
Lemma prev_row_returns_page_records_witness :
  (exists cbt',
      row_call demo_leaf 16 1 cbt0 = Done (RET_OK, cbt') /\
      (cur_key (iface cbt'), cur_value (iface cbt')) = (mkBuf "e" 1, mkBuf "E" 1)) /\
  (exists cbt', row_call demo_leaf 16 4 cbt0 = Done (WT_NOTFOUND, cbt')).
Proof.
  destruct (prev_row_returns_page_records demo_leaf cbt0 16) as [Hcalls Hend];
    [reflexivity | vm_compute; discriminate |].
  split; [apply (Hcalls 1%nat); reflexivity | exact Hend].
Defined.

Local Close Scope string_scope.

(** ** The skip-list search finds the keys of a sorted list *)

Section SkipComplete.
Context `{BtreeEnv}.
Variable store : list (WT_INSERT WT_ITEM).
Variable h : WT_INSERT_HEAD.
Variable key : WT_ITEM.
Variable c : list ptr.
Hypothesis Hchain : skiplist_chain store h c = true.
Hypothesis Hsorted : cmp_monotone (chain_key_cmps store key c) = true.

Lemma opt_ptr_eqb_eq (x y : option ptr) : opt_ptr_eqb x y = true -> x = y.
Proof.
  destruct x as [p|], y as [q|]; cbn; intros E; try discriminate; try reflexivity.
  apply Nat.eqb_eq in E. subst. reflexivity.
Qed.

Lemma place_links_spec (a : nat) (ls : list (option ptr)) :
  (a <= length c)%nat -> place_links store h c a = Some ls ->
  array_get ls 0 = Some (nth_error c a) /\
  forall i q, array_get ls i = Some (Some q) ->
    exists a', (a <= a')%nat /\ nth_error c a' = Some q.
Proof.
  intros Ha Hl. unfold skiplist_chain in Hchain. rewrite forallb_forall in Hchain.
  assert (Hin : In a (seq 0 (S (length c)))) by (apply in_seq; lia).
  pose proof (Hchain a Hin) as Hp. rewrite Hl in Hp.
  destruct ls as [|t0 ls]; [discriminate|].
  apply andb_prop in Hp. destruct Hp as [H0 Hls].
  apply opt_ptr_eqb_eq in H0. subst t0. split; [reflexivity|].
  intros i q Hi. unfold array_get in Hi.
  destruct (i <? 0); [discriminate|].
  destruct (Z.to_nat i) as [|j].
  - cbn in Hi. injection Hi as Hq. exists a. split; [lia | exact Hq].
  - cbn in Hi. rewrite forallb_forall in Hls.
    pose proof (Hls (Some q) (nth_error_In _ _ Hi)) as Hland.
    cbn [link_lands] in Hland. apply existsb_exists in Hland.
    destruct Hland as [a' [_ Ha']]. apply andb_prop in Ha'. destruct Ha' as [Hle Heq].
    apply Nat.leb_le in Hle. apply opt_ptr_eqb_eq in Heq.
    exists a'. split; assumption.
Qed.

Lemma slot_place_deref (s : ins_slot) (i : Z) (a : nat) (tgt : option ptr) :
  slot_place c s i a -> ins_slot_deref store h s = Some tgt ->
  exists ls, place_links store h c a = Some ls /\ array_get ls i = Some tgt.
Proof.
  intros Hp Hd. destruct s as [j|p j]; cbn [slot_place ins_slot_deref] in *.
  - destruct Hp as [-> ->]. exists (head h). split; [reflexivity | exact Hd].
  - destruct Hp as [-> [a' [-> Hc]]].
    destruct (nth_error store p) as [n|] eqn:En; [|discriminate].
    exists (ins_next n). split; [|exact Hd].
    cbn [place_links]. rewrite Hc, En. reflexivity.
Qed.

Lemma slot_place_dec (s : ins_slot) (i : Z) (a : nat) :
  slot_place c s i a -> slot_place c (ins_slot_dec s) (i - 1) a.
Proof.
  destruct s as [j|p j]; cbn [slot_place ins_slot_dec].
  - intros [-> ->]. split; reflexivity.
  - intros [-> Hx]. split; [reflexivity | exact Hx].
Qed.

Lemma slot_place_bound (s : ins_slot) (i : Z) (a : nat) :
  slot_place c s i a -> (a <= length c)%nat.
Proof.
  destruct s as [j|p j]; cbn [slot_place].
  - intros [_ ->]. lia.
  - intros [_ [a' [-> Hc]]].
    assert (a' < length c)%nat by (apply nth_error_Some; rewrite Hc; discriminate).
    lia.
Qed.

Lemma chain_cmp_nth (a : nat) (p : ptr) (n : WT_INSERT WT_ITEM) :
  nth_error c a = Some p -> nth_error store p = Some n ->
  nth_error (chain_key_cmps store key c) a = Some (btree_compare key (ins_key n)).
Proof.
  intros Hc Hn. unfold chain_key_cmps. rewrite (map_nth_error _ _ _ Hc).
  rewrite Hn. reflexivity.
Qed.

Variable b : nat.
Variable t : ptr.
Variable nt : WT_INSERT WT_ITEM.
Hypothesis Hb : nth_error c b = Some t.
Hypothesis Ht : nth_error store t = Some nt.
Hypothesis Hkey : btree_compare key (ins_key nt) = 0.

(** A node of the chain whose key is below the search key is in front of
    the node of the key; one whose key is equal is that node. *)
Lemma chain_cmp_place (a : nat) (q : ptr) (n : WT_INSERT WT_ITEM) :
  nth_error c a = Some q -> nth_error store q = Some n ->
  (btree_compare key (ins_key n) > 0 -> (a < b)%nat) /\
  (btree_compare key (ins_key n) = 0 -> q = t) /\
  (btree_compare key (ins_key n) < 0 -> (b < a)%nat).
Proof.
  intros Hc Hn.
  pose proof (chain_cmp_nth a q n Hc Hn) as Ca.
  pose proof (chain_cmp_nth b t nt Hb Ht) as Cb.
  pose proof (cmp_monotone_nth _ Hsorted) as Hm.
  destruct (Nat.lt_trichotomy a b) as [Hlt|[Heq|Hgt]].
  - pose proof (fun Hle => Hm a b _ _ Hlt Ca Cb Hle) as Hx.
    repeat split; intros Hcmp; lia.
  - subst a. rewrite Hb in Hc. injection Hc as <-. rewrite Ht in Hn. injection Hn as <-.
    repeat split; intros Hcmp; lia.
  - pose proof (fun Hle => Hm b a _ _ Hgt Cb Ca Hle) as Hx.
    assert (btree_compare key (ins_key n) < 0) by (apply Hx; lia).
    repeat split; intros Hcmp; lia.
Qed.

(** From a place in front of the node of the key the walk does not end
    without that node. *)
Lemma search_insert_loop_complete (fuel : nat) :
  forall i s stack a r stack',
    0 <= i -> slot_place c s i a -> (a <= b)%nat ->
    search_insert_loop fuel store h key i s stack = Done (r, stack') ->
    r = Some t.
Proof.
  induction fuel as [|f IH]; intros i s stack a r stack' Hi Hp Hab E;
    cbn [search_insert_loop] in E;
    destruct (Z.ltb_spec i 0) as [Hneg|_]; try lia; try discriminate.
  destruct (ins_slot_deref store h s) as [tgt|] eqn:Hd; [|discriminate].
  destruct (slot_place_deref s i a tgt Hp Hd) as [ls [Hl Hg]].
  destruct (place_links_spec a ls (slot_place_bound s i a Hp) Hl) as [H0 Hup].
  assert (Hdrop : forall stack0,
             search_insert_loop f store h key (i - 1) (ins_slot_dec s) stack0
             = Done (r, stack') ->
             (i = 0 -> False) -> r = Some t).
  { intros stack0 E0 Hi0.
    apply (IH (i - 1) (ins_slot_dec s) stack0 a r stack'); try assumption.
    - lia.
    - apply slot_place_dec. exact Hp. }
  destruct tgt as [q|].
  - destruct (nth_error store q) as [n|] eqn:Hn; [|discriminate].
    destruct (Hup i q Hg) as [a' [Hle Hq]].
    destruct (chain_cmp_place a' q n Hq Hn) as [Hpos [Hzero Hnegc]].
    destruct (Z.eqb_spec (btree_compare key (ins_key n)) 0) as [Hc|Hc].
    + injection E as <- _. rewrite (Hzero Hc). reflexivity.
    + destruct (Z.gtb_spec (btree_compare key (ins_key n)) 0) as [Hgt|Hle0].
      * apply (IH i (NextSlot q i) stack (S a') r stack'); try assumption.
        -- cbn [slot_place]. split; [reflexivity|]. exists a'. split; [reflexivity | exact Hq].
        -- assert (a' < b)%nat by (apply Hpos; lia). lia.
      * apply (Hdrop _ E). intros ->.
        rewrite H0 in Hg. injection Hg as Hg.
        destruct (chain_cmp_place a q n Hg Hn) as [_ [_ Hbelow]].
        assert (Hba : (b < a)%nat) by (apply Hbelow; lia).
        lia.
  - apply (Hdrop _ E). intros ->.
    rewrite H0 in Hg. injection Hg as Hg.
    apply nth_error_None in Hg.
    assert (b < length c)%nat by (apply nth_error_Some; rewrite Hb; discriminate).
    lia.
Qed.

End SkipComplete.

(** The walk from the top of the head of such a list ends at the node of
    the key. *)
Lemma search_insert_loop_finds `{BtreeEnv} (store : list (WT_INSERT WT_ITEM))
    (h : WT_INSERT_HEAD) (key : WT_ITEM) (c : list ptr)
    (b : nat) (t : ptr) (nt : WT_INSERT WT_ITEM) (stack : list (option ins_slot)) :
  skiplist_wf store h = true ->
  skiplist_chain store h c = true ->
  cmp_monotone (chain_key_cmps store key c) = true ->
  nth_error c b = Some t ->
  nth_error store t = Some nt ->
  btree_compare key (ins_key nt) = 0 ->
  exists stack',
    search_insert_loop (search_insert_fuel store) store h key
      (WT_SKIP_MAXDEPTH - 1) (HeadSlot (WT_SKIP_MAXDEPTH - 1)) stack
    = Done (Some t, stack').
Proof.
  intros Hwf Hchain Hsorted Hb Ht Hkey.
  assert (Hdepth : 1 <= WT_SKIP_MAXDEPTH /\ len (head h) = WT_SKIP_MAXDEPTH).
  { pose proof Hwf as Hw. unfold skiplist_wf in Hw.
    apply andb_true_iff in Hw. destruct Hw as [Hw _].
    apply andb_true_iff in Hw. destruct Hw as [Hlen _].
    apply Z.eqb_eq in Hlen. split; [|exact Hlen].
    unfold skiplist_chain in Hchain. rewrite forallb_forall in Hchain.
    assert (Hin : In 0%nat (seq 0 (S (length c)))) by (apply in_seq; lia).
    pose proof (Hchain 0%nat Hin) as H0. cbn [place_links] in H0.
    destruct (head h) as [|t0 ls]; [discriminate|].
    unfold len in Hlen. cbn [length] in Hlen. lia. }
  destruct Hdepth as [Hd Hlen].
  destruct (search_insert_loop_total store h key Hwf (search_insert_fuel store)
              (WT_SKIP_MAXDEPTH - 1) (HeadSlot (WT_SKIP_MAXDEPTH - 1)) stack)
    as [r [stack' E]].
  { right. split.
    - cbn [slot_ok]. split; [reflexivity | lia].
    - unfold search_insert_fuel, slot_rank.
      replace (WT_SKIP_MAXDEPTH - 1 + 1) with WT_SKIP_MAXDEPTH by lia.
      assert (1 <= Z.to_nat WT_SKIP_MAXDEPTH)%nat by lia. nia. }
  assert (Hr : r = Some t).
  { apply (search_insert_loop_complete store h key c Hchain Hsorted b t nt Hb Ht Hkey
             (search_insert_fuel store) (WT_SKIP_MAXDEPTH - 1)
             (HeadSlot (WT_SKIP_MAXDEPTH - 1)) stack 0%nat r stack');
      [lia | split; reflexivity | lia | exact E]. }
  subst r. exists stack'. exact E.
Qed.

(** X12: on a well-formed insert list whose links of every level stay on
    its level-0 chain and whose keys are in order along that chain, the
    search for a key that a node of the chain holds returns that node. *)
Theorem search_insert_finds_key `{BtreeEnv} :
  forall (cbt : WT_CURSOR_BTREE) (store : list (WT_INSERT WT_ITEM))
         (h : WT_INSERT_HEAD) (key : WT_ITEM) (c : list ptr)
         (b : nat) (t : ptr) (nt : WT_INSERT WT_ITEM),
    skiplist_wf store h = true ->
    skiplist_chain store h c = true ->
    cmp_monotone (chain_key_cmps store key c) = true ->
    nth_error c b = Some t ->
    nth_error store t = Some nt ->
    btree_compare key (ins_key nt) = 0 ->
    exists stack',
      __search_insert cbt store (Some h) key = Done (Some t, set_ins_stack cbt stack').
Proof.
  intros cbt store h key c b t nt Hwf Hchain Hsorted Hb Ht Hkey.
  destruct (search_insert_loop_finds store h key c b t nt (ins_stack cbt)
              Hwf Hchain Hsorted Hb Ht Hkey) as [stack' E].
  exists stack'. unfold __search_insert. rewrite E. reflexivity.
Qed.

Local Open Scope string_scope.

(** The search for [e] in the list [c, e, g], which has [c] and [g] on
    level 1, ends at the node of [e]. *)
Lemma search_insert_finds_key_witness :
  exists stack',
    __search_insert cbt0 tower_store (Some tower_head) "e"
    = Done (Some 1%nat, set_ins_stack cbt0 stack').
Proof.
  apply (search_insert_finds_key cbt0 tower_store tower_head "e"
           [0%nat; 1%nat; 2%nat] 1%nat 1%nat (mkIns "e" (live "E") [Some 2%nat]));
    reflexivity.
Defined.

Local Close Scope string_scope.

(** ** The search of a key that an insert list holds *)

Lemma nth_firstn_in {A : Type} (xs : list A) :
  forall k n x, nth_error xs k = Some x -> (k < n)%nat -> In x (firstn n xs).
Proof.
  induction xs as [|a xs IH]; intros k n x Hk Hlt.
  - destruct k; discriminate.
  - destruct n as [|n]; [lia|]. destruct k as [|k]; cbn in Hk.
    + injection Hk as <-. left. reflexivity.
    + right. apply (IH k n x Hk). lia.
Qed.

Lemma nth_skipn_in {A : Type} (xs : list A) :
  forall k n x, nth_error xs k = Some x -> (n <= k)%nat -> In x (skipn n xs).
Proof.
  induction xs as [|a xs IH]; intros k n x Hk Hle.
  - destruct k; discriminate.
  - destruct n as [|n].
    + cbn [skipn]. eapply nth_error_In. exact Hk.
    + destruct k as [|k]; [lia|]. cbn in Hk. cbn [skipn]. apply (IH k n x Hk). lia.
Qed.

Lemma leaf_boundary_spec `{BtreeEnv} (key : WT_ITEM) (d : list WT_ROW) (base : Z) :
  0 <= base -> leaf_boundary key d base = true ->
  slots_below d key base /\ slots_above d key base.
Proof.
  intros Hb Hbd. unfold leaf_boundary in Hbd.
  apply andb_prop in Hbd. destruct Hbd as [Hlo Hup].
  rewrite forallb_forall in Hlo. rewrite forallb_forall in Hup.
  split; intros j cj Hj Hc; unfold slot_cmp in Hc;
    destruct (array_get d j) as [row|] eqn:Hrow; try discriminate;
    injection Hc as <-; unfold array_get in Hrow;
    destruct (Z.ltb_spec j 0) as [Hneg|Hpos]; try discriminate.
  - assert (Hin : In row (firstn (Z.to_nat base) d))
      by (apply (nth_firstn_in d (Z.to_nat j)); [exact Hrow | lia]).
    apply Hlo in Hin. apply Z.ltb_lt in Hin. lia.
  - assert (Hin : In row (skipn (Z.to_nat base) d))
      by (apply (nth_skipn_in d (Z.to_nat j)); [exact Hrow | lia]).
    apply Hup in Hin. apply Z.ltb_lt in Hin. exact Hin.
Qed.

(** The boundary the slots leave for a key is one place. *)
Lemma leaf_boundary_unique `{BtreeEnv} (key : WT_ITEM) (d : list WT_ROW) (b1 b2 : Z) :
  0 <= b1 <= len d -> 0 <= b2 <= len d ->
  slots_below d key b1 -> slots_above d key b1 ->
  slots_below d key b2 -> slots_above d key b2 ->
  b1 = b2.
Proof.
  intros H1 H2 Hlo1 Hup1 Hlo2 Hup2.
  destruct (Z.lt_trichotomy b1 b2) as [Hlt|[Heq|Hgt]]; [|exact Heq|].
  - destruct (array_get_in_range d b1) as [row Hrow]; [lia|].
    assert (E : slot_cmp d key b1 = Some (btree_compare key (snd (row_slot_key row))))
      by (unfold slot_cmp; rewrite Hrow; reflexivity).
    pose proof (Hup1 b1 _ ltac:(lia) E). pose proof (Hlo2 b1 _ ltac:(lia) E). lia.
  - destruct (array_get_in_range d b2) as [row Hrow]; [lia|].
    assert (E : slot_cmp d key b2 = Some (btree_compare key (snd (row_slot_key row))))
      by (unfold slot_cmp; rewrite Hrow; reflexivity).
    pose proof (Hup2 b2 _ ltac:(lia) E). pose proof (Hlo1 b2 _ ltac:(lia) E). lia.
Qed.

(** X13: a row search for a key that no slot of the leaf holds and that a
    node of the insert list at its place between the slots holds (the
    list of slot [base - 1], or the one in front of slot 0) returns that
    node: the search matches, with the node, its list and the slot of the
    list in the cursor. *)
Theorem row_search_finds_insert `{BtreeEnv} :
  forall (root : WT_PAGE) (cbt : WT_CURSOR_BTREE) (is_modify : bool)
         (l : ROW_LEAF) (cmp0 base : Z) (h : WT_INSERT_HEAD) (c : list ptr)
         (b : nat) (t : ptr) (nt : WT_INSERT WT_ITEM),
    let key := buf_data (cur_key (iface cbt)) in
    let d := row_leaf_d l in
    row_descend root key (-1) = Done (RET_OK, WT_PAGE_ROW_LEAF l, cmp0) ->
    len d <= UINT32_MAX ->
    (1 <= len d \/ cmp0 <> 0) ->
    leaf_keys_ok d = true ->
    leaf_sorted_for key d = true ->
    0 <= base <= len d ->
    leaf_boundary key d base = true ->
    anchor_list l base = Done (Some h) ->
    skiplist_wf (row_leaf_store l) h = true ->
    skiplist_chain (row_leaf_store l) h c = true ->
    cmp_monotone (chain_key_cmps (row_leaf_store l) key c) = true ->
    nth_error c b = Some t ->
    nth_error (row_leaf_store l) t = Some nt ->
    btree_compare key (ins_key nt) = 0 ->
    exists c',
      __wt_row_search root cbt is_modify = Done (RET_OK, c') /\
      cbt_match c' = true /\
      ins c' = Some t /\
      ins_head c' = Some h /\
      slot c' = anchor_slot l base /\
      page c' = Some (WT_PAGE_ROW_LEAF l).
Proof.
  intros root cbt is_modify l cmp0 base h c b t nt key d
         Hdesc Hmax Hne Hok Hsorted Hbase Hbd Hlist Hwf Hchain Hcs Hb Ht Hkey.
  destruct (leaf_boundary_spec key d base (proj1 Hbase) Hbd) as [Hlo Hup].
  rewrite (wt_row_search_leaf root cbt is_modify l cmp0 Hdesc). fold key.
  destruct (row_leaf_bsearch_sorted_all d key cmp0 Hmax Hok Hsorted Hne)
    as [cmp [base0 [rp [E Hcase]]]].
  destruct Hcase as [[_ [i [_ Hi]]]|[Hc [Hb0 [Hlo0 Hup0]]]].
  { exfalso. pose proof Hi as Hi'. unfold slot_cmp in Hi'.
    destruct (array_get d i) as [row|] eqn:Hrow; [|discriminate].
    apply array_get_lt in Hrow.
    destruct (Z.lt_ge_cases i base) as [Hlt|Hge].
    - pose proof (Hlo i 0 ltac:(lia) Hi). lia.
    - pose proof (Hup i 0 Hge Hi). lia. }
  assert (Heq : base0 = base)
    by (apply (leaf_boundary_unique key d); assumption).
  subst base0.
  rewrite (row_search_leaf_miss cbt l key cmp0 is_modify cmp base rp E Hc Hb0 Hmax).
  unfold anchor_list in Hlist. rewrite Hlist. cbn [bind].
  match goal with
  | [ |- context [__search_insert ?cur ?st ?hh ?k] ] =>
      destruct (search_insert_loop_finds st h k c b t nt (ins_stack cur)
                  Hwf Hchain Hcs Hb Ht Hkey) as [stack' Es];
      unfold __search_insert; rewrite Es
  end.
  cbn [bind]. eexists. split; [reflexivity|].
  unfold anchor_slot. repeat split.
Qed.

Local Open Scope string_scope.

(** The search for [e] in the demo tree ends at the node of [e] on the
    list of the slot of [d]. *)
Lemma row_search_finds_insert_witness :
  exists c',
    __wt_row_search demo_root (cbt_for "e") false = Done (RET_OK, c') /\
    cbt_match c' = true /\
    ins c' = Some 0%nat /\
    ins_head c' = Some demo_head /\
    slot c' = 1 /\
    page c' = Some (WT_PAGE_ROW_LEAF demo_leaf).
Proof.
  apply (row_search_finds_insert demo_root (cbt_for "e") false demo_leaf 1 2 demo_head
           [0%nat] 0%nat 0%nat (mkIns "e" (live "E") [None; None]));
    try reflexivity; try (vm_compute; discriminate).
  - left. vm_compute. discriminate.
  - split; vm_compute; discriminate.
Defined.

Local Close Scope string_scope.

(** ** The row-store iterator, over the leaves of a tree *)

Section RowTreeFrame.
Context `{BtreeEnv}.

Lemma prev_row_slot_search_set l cbt r cbt' :
  prev_row_slot l cbt = Done (r, cbt') ->
  WT_CBT_SEARCH_SET cbt' = WT_CBT_SEARCH_SET cbt.
Proof.
  unfold prev_row_slot.
  destruct (negb (WT_CBT_RET_SLOT cbt) && (slot cbt =? 0)).
  { intros E. injection E as _ <-. reflexivity. }
  set (c1 := if WT_CBT_RET_SLOT cbt then set_RET_SLOT cbt false
             else set_slot cbt (u32 (slot cbt - 1))).
  assert (H1 : WT_CBT_SEARCH_SET c1 = WT_CBT_SEARCH_SET cbt).
  { unfold c1. destruct (WT_CBT_RET_SLOT cbt); reflexivity. }
  destruct (if slot c1 =? 0 then WT_ROW_INSERT_SMALLEST l
            else WT_ROW_INSERT_SLOT l (u32 (slot c1 - 1))) as [h0| |];
    cbn [bind]; try discriminate.
  destruct (count_inserts (row_leaf_store l) (ins_head (set_ins_head c1 h0))) as [cnt| |];
    cbn [bind]; try discriminate.
  set (c2 := set_RET_INSERT (set_ins_entry_cnt (set_ins_head c1 h0) cnt) true).
  destruct (WT_ROW_UPDATE l (slot c2)) as [upd| |]; cbn [bind]; try discriminate.
  destruct (match upd with Some u0 => WT_UPDATE_DELETED_ISSET u0 | None => false end).
  { intros E. injection E as _ <-. exact H1. }
  destruct (array_get (row_leaf_d l) (slot c2)) as [row|]; [|discriminate].
  destruct (row_slot_key row) as [[| |code] k];
    try (intros E; injection E as _ <-; exact H1).
  destruct upd as [u0|]; [intros E; injection E as _ <-; exact H1|].
  destruct (row_value row) as [cell|]; [|intros E; injection E as _ <-; exact H1].
  destruct (__wt_cell_copy cell) as [[| |code] buf]; intros E; injection E as _ <-;
    exact H1.
Qed.

Lemma prev_row_loop_search_set l :
  forall fuel cbt ret cbt',
    prev_row_loop fuel l cbt = Done (ret, cbt') ->
    WT_CBT_SEARCH_SET cbt' = WT_CBT_SEARCH_SET cbt.
Proof.
  induction fuel as [|fuel IH]; intros cbt ret cbt' E; cbn [prev_row_loop] in E;
    [discriminate|].
  destruct (_ && _).
  - destruct (WT_CBT_RET_INSERT cbt).
    + set (c1 := set_RET_INSERT cbt false) in *.
      cbv iota beta in E.
      destruct (nth_insert (row_leaf_store l) (ins_head c1) (ins_entry_cnt c1)) as [node| |];
        cbn [bind] in E; try discriminate.
      destruct (WT_UPDATE_DELETED_ISSET (ins_upd node)).
      * apply (IH _ _ _ E).
      * injection E as _ <-. reflexivity.
    + set (c1 := set_ins_entry_cnt cbt (u32 (ins_entry_cnt cbt - 1))) in *.
      cbv iota beta zeta in E. fold c1 in E.
      destruct (ins_entry_cnt c1 =? 0).
      * apply (IH _ _ _ E).
      * destruct (nth_insert (row_leaf_store l) (ins_head c1) (ins_entry_cnt c1))
          as [node| |]; cbn [bind] in E; try discriminate.
        destruct (WT_UPDATE_DELETED_ISSET (ins_upd node)).
        -- apply (IH _ _ _ E).
        -- injection E as _ <-. reflexivity.
  - destruct (prev_row_slot l cbt) as [[r c1]| |] eqn:Es; cbn [bind] in E; try discriminate.
    apply prev_row_slot_search_set in Es. destruct r as [ret1|].
    + injection E as _ <-. exact Es.
    + rewrite <- Es. apply (IH _ _ _ E).
Qed.

End RowTreeFrame.

Section RowTree.
Context `{BtreeEnv}.

Lemma prev_row_search_set l fuel cbt newpage ret cbt' :
  __prev_row fuel cbt l newpage = Done (ret, cbt') ->
  WT_CBT_SEARCH_SET cbt' = WT_CBT_SEARCH_SET cbt.
Proof.
  unfold __prev_row. destruct newpage.
  - destruct (WT_ROW_INSERT_SLOT l _) as [h0| |]; cbn [bind]; try discriminate.
    destruct (WT_SKIP_FIRST _) as [first| |]; cbn [bind]; try discriminate.
    destruct (count_inserts _ _) as [cnt| |]; cbn [bind]; try discriminate.
    intros E. apply prev_row_loop_search_set in E. exact E.
  - cbn [bind]. apply prev_row_loop_search_set.
Qed.

(** One call of [__prev_row] on a page the iterator can walk. *)
Lemma prev_row_page_next (l : ROW_LEAF) (fuel : nat) (cbt : WT_CURSOR_BTREE)
    (newpage : bool) (rem : list row_record) :
  row_page_ok l = true ->
  page_fuel (WT_PAGE_ROW_LEAF l) <= Z.of_nat fuel ->
  ((newpage = true /\ rem = row_records l) \/
   (newpage = false /\ row_cursor_ok l cbt /\
    row_work l cbt < page_fuel (WT_PAGE_ROW_LEAF l) /\ rem = row_remaining l cbt)) ->
  match rem with
  | [] =>
      exists c', __prev_row fuel cbt l newpage = Done (WT_NOTFOUND, c') /\
                 page c' = page cbt /\
                 WT_CBT_SEARCH_SET c' = WT_CBT_SEARCH_SET cbt
  | rec :: rest =>
      exists c', __prev_row fuel cbt l newpage = Done (RET_OK, c') /\
                 (cur_key (iface c'), cur_value (iface c')) = rec /\
                 page c' = page cbt /\
                 WT_CBT_SEARCH_SET c' = WT_CBT_SEARCH_SET cbt /\
                 row_cursor_ok l c' /\
                 row_work l c' < page_fuel (WT_PAGE_ROW_LEAF l) /\
                 row_remaining l c' = rest
  end.
Proof.
  intros Hok Hfuel Hstate. cbn [page_fuel] in *.
  assert (Hloop : exists c0,
             __prev_row fuel cbt l newpage = prev_row_loop fuel l c0 /\
             row_cursor_ok l c0 /\ row_remaining l c0 = rem /\
             row_work l c0 < (len (row_leaf_d l) + 1) * (len (row_leaf_store l) + 3)).
  { destruct Hstate as [[-> ->]|[-> [Hi [Hw ->]]]].
    - apply (prev_row_newpage l Hok fuel cbt).
    - exists cbt. split; [reflexivity|]. split; [exact Hi|].
      split; [reflexivity | exact Hw]. }
  destruct Hloop as [c0 [E0 [I0 [R0 W0]]]].
  assert (W0' : row_work l c0 < Z.of_nat fuel) by lia.
  pose proof (prev_row_loop_next l Hok fuel c0 I0 W0') as Hnext.
  rewrite R0 in Hnext. destruct rem as [|rec rest].
  - destruct Hnext as [c' E]. exists c'. rewrite E0.
    split; [exact E|]. rewrite <- E0 in E.
    split; [apply (prev_row_frame _ _ _ _ _ _ E) | apply (prev_row_search_set _ _ _ _ _ _ E)].
  - destruct Hnext as [c' [E [Hr [Hi [Hrem Hw]]]]]. exists c'. rewrite E0.
    split; [exact E|]. rewrite <- E0 in E.
    split; [exact Hr|].
    split; [apply (prev_row_frame _ _ _ _ _ _ E)|].
    split; [apply (prev_row_search_set _ _ _ _ _ _ E)|].
    split; [exact Hi|]. split; [lia | exact Hrem].
Qed.

(** The step to the page before, on a walk: the next row leaf of the
    walk, or the end of the walk. *)
Lemma prev_page_walk :
  forall ps fuel cbt,
    walk_ok (page cbt) ps -> forallb walk_page_ok ps = true ->
    len ps < Z.of_nat fuel ->
    (exists l' ps',
        prev_page fuel cbt = Done (RET_OK, set_page cbt (Some (WT_PAGE_ROW_LEAF l'))) /\
        row_page_ok l' = true /\
        walk_ok (Some (WT_PAGE_ROW_LEAF l')) ps' /\
        forallb walk_page_ok ps' = true /\
        walk_records ps = row_records l' ++ walk_records ps' /\
        len ps' < len ps /\
        In (WT_PAGE_ROW_LEAF l') ps /\
        (forall p, In p ps' -> In p ps))
    \/ (prev_page fuel cbt = Done (WT_NOTFOUND, set_page cbt None) /\
        walk_records ps = []).
Proof.
  induction ps as [|p ps IH]; intros fuel cbt Hw Hok Hf.
  - right. destruct fuel as [|f]; [unfold len in Hf; cbn in Hf; lia|].
    cbn [walk_ok] in Hw. cbn [prev_page]. rewrite Hw. split; reflexivity.
  - destruct fuel as [|f]; [unfold len in Hf; cbn in Hf; lia|].
    cbn [walk_ok] in Hw. destruct Hw as [Hnp Hw].
    cbn [forallb] in Hok. apply andb_prop in Hok. destruct Hok as [Hp Hok].
    cbn [prev_page]. rewrite Hnp.
    assert (Hlen : len (p :: ps) = len ps + 1) by (unfold len; cbn [length]; lia).
    destruct (is_internal p) eqn:Hint.
    + destruct (IH f (set_page cbt (Some p)) Hw Hok ltac:(lia))
        as [[l' [ps' [E [H1 [H2 [H3 [H4 [H5 [H6 H7]]]]]]]]]|[E Hnil]].
      * left. exists l', ps'. split; [exact E|].
        split; [exact H1|]. split; [exact H2|]. split; [exact H3|].
        split.
        { unfold walk_records in *. cbn [flat_map]. rewrite H4.
          destruct p; try discriminate; reflexivity. }
        split; [lia|]. split; [right; exact H6|].
        intros q Hq. right. apply H7. exact Hq.
      * right. split; [exact E|].
        unfold walk_records in *. cbn [flat_map]. rewrite Hnil.
        destruct p; try discriminate; reflexivity.
    + destruct p as [t|l'| | | |]; try discriminate.
      left. exists l', ps. split; [reflexivity|].
      split; [exact Hp|]. split; [exact Hw|]. split; [exact Hok|].
      split; [reflexivity|]. split; [lia|]. split; [left; reflexivity|].
      intros q Hq. right. exact Hq.
Qed.

(** A call of the loop of [__wt_btcur_prev] on a walk of row leaves hands
    out the first of the pairs still to come. *)
Lemma btcur_prev_loop_walk (F : Z) (u : WT_CELL_UNPACK) :
  0 <= F ->
  forall fuel cbt newpage ps rem,
    walk_ok (page cbt) ps -> forallb walk_page_ok ps = true ->
    (forall p, In p ps -> page_fuel p <= F) ->
    F + len ps + 3 <= Z.of_nat fuel ->
    ((page cbt = None /\ rem = walk_records ps) \/
     exists l rem0,
       page cbt = Some (WT_PAGE_ROW_LEAF l) /\ row_page_ok l = true /\
       page_fuel (WT_PAGE_ROW_LEAF l) <= F /\
       rem = rem0 ++ walk_records ps /\
       ((newpage = true /\ rem0 = row_records l) \/
        (newpage = false /\ row_cursor_ok l cbt /\
         row_work l cbt < page_fuel (WT_PAGE_ROW_LEAF l) /\
         rem0 = row_remaining l cbt))) ->
    match rem with
    | [] =>
        exists c', btcur_prev_loop fuel cbt newpage u = Done (WT_NOTFOUND, c') /\
                   WT_CBT_SEARCH_SET c' = WT_CBT_SEARCH_SET cbt
    | rec :: rest =>
        exists c' ps',
          btcur_prev_loop fuel cbt newpage u = Done (RET_OK, c') /\
          (cur_key (iface c'), cur_value (iface c')) = rec /\
          WT_CBT_SEARCH_SET c' = WT_CBT_SEARCH_SET cbt /\
          walk_state F c' ps' rest /\
          len ps' <= len ps
    end.
Proof.
  intros HF. induction fuel as [|f IH]; intros cbt newpage ps rem Hw Hok HFp Hfuel Hst.
  { unfold len in Hfuel. lia. }
  assert (Hlenps : 0 <= len ps) by (unfold len; lia).
  assert (Hpage : forall c1,
             page c1 = page cbt ->
             WT_CBT_SEARCH_SET c1 = WT_CBT_SEARCH_SET cbt ->
             match walk_records ps with
             | [] =>
                 exists c',
                   ('(ret, c2) <- prev_page f c1 ;;
                    if ret_is_ok ret then btcur_prev_loop f c2 true u
                    else Done (ret, c2)) = Done (WT_NOTFOUND, c') /\
                   WT_CBT_SEARCH_SET c' = WT_CBT_SEARCH_SET cbt
             | rec :: rest =>
                 exists c' ps',
                   ('(ret, c2) <- prev_page f c1 ;;
                    if ret_is_ok ret then btcur_prev_loop f c2 true u
                    else Done (ret, c2)) = Done (RET_OK, c') /\
                   (cur_key (iface c'), cur_value (iface c')) = rec /\
                   WT_CBT_SEARCH_SET c' = WT_CBT_SEARCH_SET cbt /\
                   walk_state F c' ps' rest /\
                   len ps' <= len ps
             end).
  { intros c1 Hp1 Hs1.
    assert (Hw1 : walk_ok (page c1) ps) by (rewrite Hp1; exact Hw).
    destruct (prev_page_walk ps f c1 Hw1 Hok ltac:(lia))
      as [[l' [ps' [E [H1 [H2 [H3 [H4 [H5 [H6 H7]]]]]]]]]|[E Hnil]].
    - rewrite E. cbn [bind ret_is_ok].
      pose proof (IH (set_page c1 (Some (WT_PAGE_ROW_LEAF l'))) true ps'
                     (row_records l' ++ walk_records ps')) as Hrec.
      rewrite <- H4 in Hrec.
      assert (Hnext : match walk_records ps with
                      | [] =>
                          exists c',
                            btcur_prev_loop f (set_page c1 (Some (WT_PAGE_ROW_LEAF l'))) true u
                            = Done (WT_NOTFOUND, c') /\
                            WT_CBT_SEARCH_SET c'
                            = WT_CBT_SEARCH_SET (set_page c1 (Some (WT_PAGE_ROW_LEAF l')))
                      | rec :: rest =>
                          exists c' ps'0,
                            btcur_prev_loop f (set_page c1 (Some (WT_PAGE_ROW_LEAF l'))) true u
                            = Done (RET_OK, c') /\
                            (cur_key (iface c'), cur_value (iface c')) = rec /\
                            WT_CBT_SEARCH_SET c'
                            = WT_CBT_SEARCH_SET (set_page c1 (Some (WT_PAGE_ROW_LEAF l'))) /\
                            walk_state F c' ps'0 rest /\
                            len ps'0 <= len ps'
                      end).
      { apply Hrec.
        - exact H2.
        - exact H3.
        - intros p Hp. apply HFp. apply H7. exact Hp.
        - lia.
        - right. exists l', (row_records l').
          split; [reflexivity|]. split; [exact H1|].
          split; [apply HFp; exact H6|]. split; [exact H4|].
          left. split; reflexivity. }
      destruct (walk_records ps) as [|rec rest].
      + destruct Hnext as [c' [E' Hs']]. exists c'. split; [exact E'|].
        rewrite Hs'. exact Hs1.
      + destruct Hnext as [c' [ps'' [E' [Hr [Hs' [Hst' Hl']]]]]].
        exists c', ps''. split; [exact E'|]. split; [exact Hr|].
        split; [rewrite Hs'; exact Hs1|]. split; [exact Hst' | lia].
    - rewrite E, Hnil. cbn [bind ret_is_ok]. eexists. split; [reflexivity | exact Hs1]. }
  cbn [btcur_prev_loop].
  destruct Hst as [[Hnone ->]|[l [rem0 [Hpg [Hlok [HlF [-> Hcase]]]]]]].
  - rewrite Hnone. cbn [bind ret_is_notfound negb].
    apply (Hpage cbt); reflexivity.
  - rewrite Hpg. cbn [prev_on_page].
    pose proof (prev_row_page_next l f cbt newpage rem0 Hlok ltac:(lia) Hcase) as Hrow.
    destruct rem0 as [|rec rest0].
    + destruct Hrow as [c1 [E1 [Hp1 Hs1]]]. rewrite E1.
      cbn [bind ret_is_notfound negb app].
      apply (Hpage c1); assumption.
    + destruct Hrow as [c1 [E1 [Hr [Hp1 [Hs1 [Hi1 [Hw1 Hrem1]]]]]]]. rewrite E1.
      cbn [bind ret_is_notfound negb app].
      exists c1, ps. split; [reflexivity|]. split; [exact Hr|]. split; [exact Hs1|].
      split; [|lia].
      exists l. rewrite Hp1, Hpg, Hrem1.
      rewrite Hpg in Hw.
      repeat (split; [first [reflexivity | assumption]|]). assumption.
Qed.

Lemma walk_state_iface (F : Z) (cbt : WT_CURSOR_BTREE) (ps : list WT_PAGE)
    (rem : list row_record) (x : WT_CURSOR) :
  walk_state F cbt ps rem -> walk_state F (set_iface cbt x) ps rem.
Proof. intros Hst. exact Hst. Qed.

(** One call of [__wt_btcur_prev] on a walk of row leaves. *)
Lemma btcur_prev_walk (F : Z) (u : WT_CELL_UNPACK) (fuel : nat)
    (cbt : WT_CURSOR_BTREE) (ps : list WT_PAGE) (rem : list row_record) :
  0 <= F ->
  WT_CBT_SEARCH_SET cbt = false ->
  forallb walk_page_ok ps = true ->
  (forall p, In p ps -> page_fuel p <= F) ->
  F + len ps + 3 <= Z.of_nat fuel ->
  ((page cbt = None /\ walk_ok None ps /\ rem = walk_records ps) \/
   walk_state F cbt ps rem) ->
  match rem with
  | [] => exists c', __wt_btcur_prev fuel cbt u = Done (WT_NOTFOUND, c')
  | rec :: rest =>
      exists c' ps',
        __wt_btcur_prev fuel cbt u = Done (RET_OK, c') /\
        (cur_key (iface c'), cur_value (iface c')) = rec /\
        WT_CURSTD_KEY_SET (iface c') = true /\
        WT_CURSTD_VALUE_SET (iface c') = true /\
        WT_CBT_SEARCH_SET c' = false /\
        walk_state F c' ps' rest /\
        (forall p, In p ps' -> page_fuel p <= F) /\
        forallb walk_page_ok ps' = true /\
        len ps' <= len ps
  end.
Proof.
  intros HF Hss Hok HFp Hfuel Hst.
  rewrite btcur_prev_unfold. unfold prev_setup.
  replace (WT_CBT_SEARCH_SET (clear_std_flags cbt)) with false by (symmetry; exact Hss).
  pose proof (btcur_prev_loop_walk F u HF fuel (clear_std_flags cbt) false ps rem) as Hloop.
  assert (Hnext : match rem with
                  | [] =>
                      exists c',
                        btcur_prev_loop fuel (clear_std_flags cbt) false u
                        = Done (WT_NOTFOUND, c') /\
                        WT_CBT_SEARCH_SET c' = WT_CBT_SEARCH_SET (clear_std_flags cbt)
                  | rec :: rest =>
                      exists c' ps',
                        btcur_prev_loop fuel (clear_std_flags cbt) false u
                        = Done (RET_OK, c') /\
                        (cur_key (iface c'), cur_value (iface c')) = rec /\
                        WT_CBT_SEARCH_SET c' = WT_CBT_SEARCH_SET (clear_std_flags cbt) /\
                        walk_state F c' ps' rest /\
                        len ps' <= len ps
                  end).
  { destruct Hst as [[Hnone [Hw Hrem]]|Hws].
    - apply Hloop; try assumption.
      + change (page (clear_std_flags cbt)) with (page cbt). rewrite Hnone. exact Hw.
      + left. split; [exact Hnone | exact Hrem].
    - destruct Hws as [l [Hpg [Hlok [HlF [Hi [Hwk [Hrem [Hw _]]]]]]]].
      apply Hloop; try assumption.
      right. exists l, (row_remaining l cbt).
      split; [exact Hpg|]. split; [exact Hlok|]. split; [exact HlF|].
      split; [exact Hrem|]. right.
      split; [reflexivity|]. split; [exact Hi|]. split; [exact Hwk | reflexivity]. }
  destruct rem as [|rec rest].
  - destruct Hnext as [c' [E _]]. rewrite E. cbn [bind ret_is_ok]. eexists. reflexivity.
  - destruct Hnext as [c' [ps' [E [Hr [Hs [Hws Hl]]]]]]. rewrite E. cbn [bind ret_is_ok].
    exists (set_iface c' (set_cur_flags (iface c') true true)), ps'.
    split; [reflexivity|]. split; [exact Hr|].
    split; [reflexivity|]. split; [reflexivity|].
    split; [rewrite <- Hss; exact Hs|].
    split; [apply walk_state_iface; exact Hws|].
    destruct Hws as [l [_ [_ [_ [_ [_ [_ [_ [Hok' HF']]]]]]]]].
    split; [exact HF'|]. split; [exact Hok' | exact Hl].
Qed.

Lemma page_fuel_nonneg (p : WT_PAGE) : 0 <= page_fuel p.
Proof.
  destruct p; cbn [page_fuel]; try lia.
  assert (0 <= len (row_leaf_d l)) by (unfold len; lia).
  assert (0 <= len (row_leaf_store l)) by (unfold len; lia).
  nia.
Qed.

Lemma pages_fuel_max (ps : list WT_PAGE) :
  0 <= fold_right Z.max 0 (map page_fuel ps) /\
  forall p, In p ps -> page_fuel p <= fold_right Z.max 0 (map page_fuel ps).
Proof.
  induction ps as [|q ps [IH0 IH]]; cbn [map fold_right].
  - split; [lia|]. intros p [].
  - split; [lia|]. intros p [->|Hin]; [lia|]. pose proof (IH p Hin). lia.
Qed.

(** The state after call [k] on a walk. *)
Lemma tree_call_state (u : WT_CELL_UNPACK) (fuel : nat) (cbt : WT_CURSOR_BTREE)
    (ps : list WT_PAGE) :
  page cbt = None -> WT_CBT_SEARCH_SET cbt = false ->
  walk_ok None ps -> forallb walk_page_ok ps = true ->
  walk_fuel ps <= Z.of_nat fuel ->
  forall k rec,
    nth_error (walk_records ps) k = Some rec ->
    exists c' ps',
      tree_call fuel u k cbt = Done (RET_OK, c') /\
      (cur_key (iface c'), cur_value (iface c')) = rec /\
      WT_CURSTD_KEY_SET (iface c') = true /\
      WT_CURSTD_VALUE_SET (iface c') = true /\
      WT_CBT_SEARCH_SET c' = false /\
      walk_state (fold_right Z.max 0 (map page_fuel ps)) c' ps'
        (skipn (S k) (walk_records ps)) /\
      (forall p, In p ps' -> page_fuel p <= fold_right Z.max 0 (map page_fuel ps)) /\
      forallb walk_page_ok ps' = true /\
      len ps' <= len ps.
Proof.
  intros Hnone Hss Hw Hok Hfuel. unfold walk_fuel in Hfuel.
  destruct (pages_fuel_max ps) as [HF HFp].
  induction k as [|k IH]; intros rec Hk.
  - pose proof (btcur_prev_walk _ u fuel cbt ps (walk_records ps) HF Hss Hok HFp Hfuel
                  (or_introl (conj Hnone (conj Hw eq_refl)))) as Hcall.
    destruct (walk_records ps) as [|r rest]; [discriminate|].
    cbn in Hk. injection Hk as ->. cbn [tree_call skipn]. exact Hcall.
  - destruct (nth_error (walk_records ps) k) as [rk|] eqn:Ek.
    2:{ apply nth_error_None in Ek.
        assert (Hlt : (S k < length (walk_records ps))%nat)
          by (apply nth_error_Some; rewrite Hk; discriminate).
        lia. }
    destruct (IH rk eq_refl) as [ck [psk [E [_ [_ [_ [Hssk [Hst [HFk [Hokk Hlk]]]]]]]]]].
    pose proof (btcur_prev_walk _ u fuel ck psk (skipn (S k) (walk_records ps))
                  HF Hssk Hokk HFk ltac:(lia) (or_intror Hst)) as Hcall.
    rewrite (skipn_nth_cons _ _ _ Hk) in Hcall.
    destruct Hcall as [c' [ps' [E' [Hr [Hks [Hvs [Hs' [Hst' [HF' [Hok' Hl']]]]]]]]]].
    exists c', ps'. cbn [tree_call]. rewrite E. cbn [bind].
    split; [exact E'|]. split; [exact Hr|]. split; [exact Hks|]. split; [exact Hvs|].
    split; [exact Hs'|]. split; [exact Hst'|]. split; [exact HF'|].
    split; [exact Hok' | lia].
Qed.

End RowTree.

(** X14: in a tree whose walk from the end goes through internal pages
    and row leaves the iterator can walk, the calls of [__wt_btcur_prev]
    from a cursor that holds no page return in turn the pairs of the
    leaves, each leaf last to first, the leaves in the order of the walk,
    with the key-set and value-set flags set; internal pages and leaves
    with no pair left are passed in the same call; the call after the last
    pair returns [WT_NOTFOUND]. *)
Theorem btcur_prev_returns_tree_records `{BtreeEnv} :
  forall (ps : list WT_PAGE) (cbt : WT_CURSOR_BTREE) (fuel : nat) (u : WT_CELL_UNPACK),
    page cbt = None ->
    WT_CBT_SEARCH_SET cbt = false ->
    walk_ok None ps ->
    forallb walk_page_ok ps = true ->
    walk_fuel ps <= Z.of_nat fuel ->
    (forall k rec,
       nth_error (walk_records ps) k = Some rec ->
       exists cbt',
         tree_call fuel u k cbt = Done (RET_OK, cbt') /\
         (cur_key (iface cbt'), cur_value (iface cbt')) = rec /\
         WT_CURSTD_KEY_SET (iface cbt') = true /\
         WT_CURSTD_VALUE_SET (iface cbt') = true) /\
    (exists cbt',
       tree_call fuel u (length (walk_records ps)) cbt = Done (WT_NOTFOUND, cbt')).
Proof.
  intros ps cbt fuel u Hnone Hss Hw Hok Hfuel.
  pose proof (tree_call_state u fuel cbt ps Hnone Hss Hw Hok Hfuel) as Hstate.
  destruct (pages_fuel_max ps) as [HF HFp].
  split.
  - intros k rec Hk.
    destruct (Hstate k rec Hk) as [c' [ps' [E [Hr [Hks [Hvs _]]]]]].
    exists c'. repeat split; assumption.
  - destruct (length (walk_records ps)) as [|m] eqn:El.
    + pose proof (btcur_prev_walk _ u fuel cbt ps (walk_records ps) HF Hss Hok HFp
                    ltac:(unfold walk_fuel in Hfuel; lia)
                    (or_introl (conj Hnone (conj Hw eq_refl)))) as Hcall.
      destruct (walk_records ps) as [|r rest]; [|discriminate].
      cbn [tree_call]. exact Hcall.
    + destruct (nth_error (walk_records ps) m) as [rm|] eqn:Em.
      2:{ apply nth_error_None in Em. lia. }
      destruct (Hstate m rm Em)
        as [cm [psm [E [_ [_ [_ [Hssm [Hst [HFm [Hokm Hlm]]]]]]]]]].
      pose proof (btcur_prev_walk _ u fuel cm psm (skipn (S m) (walk_records ps))
                    HF Hssm Hokm HFm ltac:(unfold walk_fuel in Hfuel; lia)
                    (or_intror Hst)) as Hcall.
      rewrite <- El, skipn_all in Hcall.
      cbn [tree_call]. rewrite E. cbn [bind]. exact Hcall.
Qed.


Local Open Scope string_scope.

(** The walk of the root, the demo leaf and the leaf of [a]: the fifth
    call returns [a], the sixth the end. *)
Lemma btcur_prev_returns_tree_records_witness :
  (exists cbt',
      @tree_call walk_env 22 unpack_garbage 4 cbt0 = Done (RET_OK, cbt') /\
      (cur_key (iface cbt'), cur_value (iface cbt')) = (mkBuf "a" 1, mkBuf EmptyString 0) /\
      WT_CURSTD_KEY_SET (iface cbt') = true /\
      WT_CURSTD_VALUE_SET (iface cbt') = true) /\
  (exists cbt', @tree_call walk_env 22 unpack_garbage 5 cbt0 = Done (WT_NOTFOUND, cbt')).
Proof.
  destruct (@btcur_prev_returns_tree_records walk_env
              [demo_root; WT_PAGE_ROW_LEAF demo_leaf; WT_PAGE_ROW_LEAF first_leaf]
              cbt0 22 unpack_garbage) as [Hcalls Hend].
  - reflexivity.
  - reflexivity.
  - cbn. repeat split; reflexivity.
  - reflexivity.
  - vm_compute. discriminate.
  - split; [apply (Hcalls 4%nat); reflexivity | exact Hend].
Defined.

Local Close Scope string_scope.


(** ** The results of the row iterator, on any page *)

Section RowResult.
Context `{BtreeEnv}.

Lemma nth_insert_in store inshead cnt node :
  nth_insert store inshead cnt = Done node ->
  exists p, nth_error store p = Some node.
Proof.
  unfold nth_insert.
  destruct (WT_SKIP_FIRST inshead) as [first| |]; cbn [bind]; try discriminate.
  destruct (skip_advance _ store first) as [[p|]| |]; cbn [bind]; try discriminate.
  destruct (nth_error store p) as [n|] eqn:En; [|discriminate].
  intros E. injection E as <-. exists p. exact En.
Qed.

Lemma array_get_in {A : Type} (xs : list A) (i : Z) (x : A) :
  array_get xs i = Some x -> In x xs.
Proof.
  unfold array_get. destruct (i <? 0); [discriminate|]. apply nth_error_In.
Qed.

Lemma prev_row_slot_result l cbt ret cbt' :
  prev_row_slot l cbt = Done (Some ret, cbt') -> prev_row_result l ret cbt'.
Proof.
  unfold prev_row_slot.
  destruct (negb (WT_CBT_RET_SLOT cbt) && (slot cbt =? 0)) eqn:Econd.
  { intros E. injection E as <- <-. right. left.
    apply andb_prop in Econd. destruct Econd as [E1 E2].
    apply negb_true_iff in E1. apply Z.eqb_eq in E2. auto. }
  set (c1 := if WT_CBT_RET_SLOT cbt then set_RET_SLOT cbt false
             else set_slot cbt (u32 (slot cbt - 1))).
  destruct (if slot c1 =? 0 then WT_ROW_INSERT_SMALLEST l
            else WT_ROW_INSERT_SLOT l (u32 (slot c1 - 1))) as [h0| |];
    cbn [bind]; try discriminate.
  destruct (count_inserts (row_leaf_store l) (ins_head (set_ins_head c1 h0))) as [cnt| |];
    cbn [bind]; try discriminate.
  set (c2 := set_RET_INSERT (set_ins_entry_cnt (set_ins_head c1 h0) cnt) true).
  destruct (WT_ROW_UPDATE l (slot c2)) as [upd| |] eqn:Eu; cbn [bind]; try discriminate.
  destruct (match upd with Some u0 => WT_UPDATE_DELETED_ISSET u0 | None => false end)
    eqn:Edel; [discriminate|].
  destruct (array_get (row_leaf_d l) (slot c2)) as [row|] eqn:Erow; [|discriminate].
  pose proof (array_get_in _ _ _ Erow) as Hin.
  destruct (row_slot_key row) as [rk k] eqn:Ek.
  assert (Hkey : rk <> RET_OK -> collaborator_code l rk).
  { intros Hne. split; [exact Hne|]. exists row. split; [exact Hin|].
    left. rewrite Ek. reflexivity. }
  destruct rk as [| |code];
    try (intros E; injection E as <- <-; right; right; apply Hkey; discriminate).
  assert (Hslot : forall v rc,
             match upd with
             | Some u0 => v = mkBuf (WT_UPDATE_DATA u0) (upd_size u0)
             | None =>
                 match row_value row with
                 | None => v = mkBuf EmptyString 0
                 | Some cell => __wt_cell_copy cell = (RET_OK, v)
                 end
             end ->
             rc = set_valuep (set_keyp c2 (item_buf k)) v ->
             prev_row_result l RET_OK rc).
  { intros v rc Hv ->. left. split; [reflexivity|]. right.
    unfold slot_result.
    change (slot (set_valuep (set_keyp c2 (item_buf k)) v)) with (slot c2).
    cbn [set_valuep set_keyp set_iface iface set_cur_key set_cur_value cur_key cur_value].
    split.
    - unfold slot_record. rewrite Erow, Eu, Ek. cbn [snd].
      destruct upd as [u0|].
      + rewrite Edel, Hv. reflexivity.
      + destruct (row_value row) as [cell|]; [rewrite Hv|rewrite Hv]; reflexivity.
    - exists row. split; [exact Erow|]. split; [rewrite Ek; reflexivity|].
      intros cell Hnone Hcell. rewrite Eu in Hnone. injection Hnone as ->.
      rewrite Hcell in Hv. rewrite Hv. reflexivity. }
  destruct upd as [u0|].
  { intros E. injection E as <- <-. apply (Hslot _ _ eq_refl eq_refl). }
  destruct (row_value row) as [cell|] eqn:Ev.
  2:{ intros E. injection E as <- <-. apply (Hslot _ _ eq_refl eq_refl). }
  destruct (__wt_cell_copy cell) as [rc buf] eqn:Ec.
  destruct rc as [| |code]; intros E; injection E as <- <-.
  - apply (Hslot buf _ eq_refl eq_refl).
  - right. right. split; [discriminate|]. exists row. split; [exact Hin|].
    right. exists cell. split; [exact Ev|]. rewrite Ec. reflexivity.
  - right. right. split; [discriminate|]. exists row. split; [exact Hin|].
    right. exists cell. split; [exact Ev|]. rewrite Ec. reflexivity.
Qed.

Lemma prev_row_loop_result l :
  forall fuel cbt ret cbt',
    prev_row_loop fuel l cbt = Done (ret, cbt') -> prev_row_result l ret cbt'.
Proof.
  induction fuel as [|fuel IH]; intros cbt ret cbt' E; cbn [prev_row_loop] in E;
    [discriminate|].
  assert (Hins : forall c1 node,
             nth_insert (row_leaf_store l) (ins_head c1) (ins_entry_cnt c1) = Done node ->
             WT_UPDATE_DELETED_ISSET (ins_upd node) = false ->
             prev_row_result l RET_OK
               (set_valuep (set_keyp c1 (item_buf (ins_key node)))
                  (mkBuf (WT_UPDATE_DATA (ins_upd node)) (upd_size (ins_upd node))))).
  { intros c1 node Hn Hd. left. split; [reflexivity|]. left.
    destruct (nth_insert_in _ _ _ _ Hn) as [p Hp].
    exists p, node. split; [exact Hp|]. split; [exact Hd | reflexivity]. }
  destruct (_ && _).
  - destruct (WT_CBT_RET_INSERT cbt).
    + set (c1 := set_RET_INSERT cbt false) in *.
      cbv iota beta in E.
      destruct (nth_insert (row_leaf_store l) (ins_head c1) (ins_entry_cnt c1))
        as [node| |] eqn:En; cbn [bind] in E; try discriminate.
      destruct (WT_UPDATE_DELETED_ISSET (ins_upd node)) eqn:Ed.
      * apply (IH _ _ _ E).
      * injection E as <- <-. apply (Hins c1 node En Ed).
    + set (c1 := set_ins_entry_cnt cbt (u32 (ins_entry_cnt cbt - 1))) in *.
      cbv iota beta zeta in E. fold c1 in E.
      destruct (ins_entry_cnt c1 =? 0).
      * apply (IH _ _ _ E).
      * destruct (nth_insert (row_leaf_store l) (ins_head c1) (ins_entry_cnt c1))
          as [node| |] eqn:En; cbn [bind] in E; try discriminate.
        destruct (WT_UPDATE_DELETED_ISSET (ins_upd node)) eqn:Ed.
        -- apply (IH _ _ _ E).
        -- injection E as <- <-. apply (Hins c1 node En Ed).
  - destruct (prev_row_slot l cbt) as [[r c1]| |] eqn:Es; cbn [bind] in E; try discriminate.
    destruct r as [ret1|].
    + injection E as <- <-. apply (prev_row_slot_result _ _ _ _ Es).
    + apply (IH _ _ _ E).
Qed.

End RowResult.

(** X15: whatever the page, a call of the row iterator that returns 0
    has in the cursor the pair of a node of the page that is not deleted,
    or the pair of the slot the cursor is at, which is not deleted and
    whose value is that of its update if it has one; a call that returns
    [WT_NOTFOUND] has the cursor at slot 0 with the slot returned; any
    other result is a code that [__wt_row_key] or [__wt_cell_copy]
    returned for a slot of the page. *)
Theorem prev_row_result_sound `{BtreeEnv} :
  forall (fuel : nat) (cbt cbt' : WT_CURSOR_BTREE) (l : ROW_LEAF)
         (newpage : bool) (ret : ret_code),
    __prev_row fuel cbt l newpage = Done (ret, cbt') ->
    (ret = RET_OK /\ (insert_result l cbt' \/ slot_result l cbt')) \/
    (ret = WT_NOTFOUND /\ slot cbt' = 0 /\ WT_CBT_RET_SLOT cbt' = false) \/
    collaborator_code l ret.
Proof.
  intros fuel cbt cbt' l newpage ret.
  change (__prev_row fuel cbt l newpage = Done (ret, cbt') -> prev_row_result l ret cbt').
  unfold __prev_row. destruct newpage.
  - destruct (WT_ROW_INSERT_SLOT l _) as [h0| |]; cbn [bind]; try discriminate.
    destruct (WT_SKIP_FIRST _) as [first| |]; cbn [bind]; try discriminate.
    destruct (count_inserts _ _) as [cnt| |]; cbn [bind]; try discriminate.
    apply prev_row_loop_result.
  - cbn [bind]. apply prev_row_loop_result.
Qed.


(** The first call on the demo leaf returns 0, with the pair of a node or
    of the slot of the cursor. *)
Lemma prev_row_result_sound_witness :
  exists cbt',
    __prev_row 16 cbt0 demo_leaf true = Done (RET_OK, cbt') /\
    ((RET_OK = RET_OK /\ (insert_result demo_leaf cbt' \/ slot_result demo_leaf cbt')) \/
     (RET_OK = WT_NOTFOUND /\ slot cbt' = 0 /\ WT_CBT_RET_SLOT cbt' = false) \/
     collaborator_code demo_leaf RET_OK).
Proof.
  eexists. split; [vm_compute; reflexivity|].
  apply (prev_row_result_sound 16 cbt0 _ demo_leaf true RET_OK).
  vm_compute. reflexivity.
Defined.


(** ** The iterator on a leaf without slots *)

Section EmptyLeaf.
Context `{BtreeEnv}.

Lemma array_get_short {A : Type} (xs : list A) (i : Z) :
  len xs <= i -> array_get xs i = None.
Proof.
  intros Hi. unfold array_get, len in *.
  destruct (Z.ltb_spec i 0); [reflexivity|]. apply nth_error_None. lia.
Qed.

(** The new-page call of the row iterator on a leaf without slots: the
    slot is [entries - 1], which wraps to [UINT32_MAX], and the read of
    that slot is outside the page. *)
Lemma count_inserts_none (store : list (WT_INSERT WT_ITEM)) :
  count_inserts store None = Done 0.
Proof. reflexivity. Qed.

(** The slot step of the row iterator at slot [UINT32_MAX] of a leaf
    without slots. *)
Lemma prev_row_slot_empty_leaf (l : ROW_LEAF) (cbt : WT_CURSOR_BTREE) :
  row_leaf_d l = [] ->
  row_leaf_ins l = None ->
  match row_leaf_upd l with Some a => len a <= UINT32_MAX | None => True end ->
  WT_CBT_RET_SLOT cbt = true -> slot cbt = UINT32_MAX ->
  prev_row_slot l cbt = Abort InvalidAccess.
Proof.
  intros Hd Hins Hupd Hrs Hslot. unfold prev_row_slot. rewrite Hrs.
  cbn [negb andb slot set_RET_SLOT]. rewrite Hslot.
  assert (Hz : (UINT32_MAX =? 0) = false) by reflexivity.
  rewrite Hz. unfold WT_ROW_INSERT_SLOT, insert_array_get. rewrite Hins.
  cbn [bind ins_head set_ins_head]. rewrite count_inserts_none.
  cbn [bind slot set_RET_INSERT set_ins_entry_cnt set_ins_head set_RET_SLOT].
  rewrite Hslot. unfold WT_ROW_UPDATE.
  destruct (row_leaf_upd l) as [b|].
  { rewrite (array_get_short b UINT32_MAX Hupd). reflexivity. }
  cbn [bind]. rewrite Hd.
  rewrite (array_get_short (@nil WT_ROW) UINT32_MAX); [reflexivity|].
  unfold len. cbn [length]. unfold UINT32_MAX. lia.
Qed.

(** The new-page call of the row iterator on a leaf without slots: the
    slot is [entries - 1], which wraps to [UINT32_MAX], and the read of
    that slot is outside the page. *)
Lemma prev_row_empty_leaf (l : ROW_LEAF) (cbt : WT_CURSOR_BTREE) (fuel : nat) :
  row_leaf_d l = [] ->
  match row_leaf_ins l with Some a => len a <= UINT32_MAX | None => True end ->
  match row_leaf_upd l with Some a => len a <= UINT32_MAX | None => True end ->
  __prev_row (S fuel) cbt l true = Abort InvalidAccess.
Proof.
  intros Hd Hins Hupd. unfold __prev_row.
  assert (Hx : u32 (len (row_leaf_d l) - 1) = UINT32_MAX) by (rewrite Hd; reflexivity).
  rewrite Hx. unfold WT_ROW_INSERT_SLOT, insert_array_get.
  destruct (row_leaf_ins l) as [a|] eqn:Ea.
  { rewrite (array_get_short a UINT32_MAX Hins). reflexivity. }
  cbn [bind ins_head set_ins_head WT_SKIP_FIRST]. rewrite count_inserts_none.
  cbn [bind prev_row_loop ins_head set_RET_INSERT set_RET_SLOT set_slot
       set_ins_entry_cnt set_ins set_ins_head andb].
  rewrite prev_row_slot_empty_leaf; try assumption; reflexivity.
Qed.

End EmptyLeaf.

(** C9, as the code runs on an empty tree: the tree is one row leaf
    without slots.  From a cursor that holds no page [__wt_btcur_prev]
    takes the leaf from the walk and calls the row iterator for a new
    page; the iterator sets the slot to [entries - 1], which wraps to
    [UINT32_MAX], and reads that slot of the page: the call ends in an
    access outside the page and not in [WT_NOTFOUND]. *)
Theorem prev_empty_leaf_faults `{BtreeEnv} :
  forall (l : ROW_LEAF) (cbt : WT_CURSOR_BTREE) (fuel : nat) (u : WT_CELL_UNPACK),
    row_leaf_d l = [] ->
    match row_leaf_ins l with Some a => len a <= UINT32_MAX | None => True end ->
    match row_leaf_upd l with Some a => len a <= UINT32_MAX | None => True end ->
    page cbt = None ->
    WT_CBT_SEARCH_SET cbt = false ->
    __wt_xxx_np None = (RET_OK, Some (WT_PAGE_ROW_LEAF l)) ->
    __prev_row (S fuel) cbt l true = Abort InvalidAccess /\
    __wt_btcur_prev (S (S (S fuel))) cbt u = Abort InvalidAccess.
Proof.
  intros l cbt fuel u Hd Hins Hupd Hpage Hss Hnp.
  split; [apply prev_row_empty_leaf; assumption|].
  rewrite btcur_prev_unfold. unfold prev_setup.
  replace (WT_CBT_SEARCH_SET (clear_std_flags cbt)) with false by (symmetry; exact Hss).
  cbn [btcur_prev_loop].
  change (page (clear_std_flags cbt)) with (page cbt). rewrite Hpage.
  cbn [bind ret_is_notfound negb prev_page].
  change (page (clear_std_flags cbt)) with (page cbt). rewrite Hpage, Hnp.
  cbn [is_internal bind ret_is_ok page set_page prev_on_page].
  rewrite prev_row_empty_leaf by assumption. reflexivity.
Qed.

(** The tree of the one leaf without slots: the first call ends in the
    access outside the page. *)
Lemma prev_empty_leaf_faults_witness :
  @__prev_row (one_leaf_env (WT_PAGE_ROW_LEAF empty_leaf)) 1 cbt0 empty_leaf true
  = Abort InvalidAccess /\
  @__wt_btcur_prev (one_leaf_env (WT_PAGE_ROW_LEAF empty_leaf)) 3 cbt0 unpack_garbage
  = Abort InvalidAccess.
Proof.
  apply (@prev_empty_leaf_faults (one_leaf_env (WT_PAGE_ROW_LEAF empty_leaf))
           empty_leaf cbt0 0%nat unpack_garbage); try reflexivity; exact I.
Defined.
